(** * Bulk-operation orchestrators of the WhatsApp bot

    A shallow embedding of [src/group-creator.js] (createMultipleGroups,
    validateParticipants, getRateLimit) and [src/message-sender.js]
    (ANTI_BAN, addMessageVariation, getRandomizedDelay, sendBulkMessages),
    followed by the properties of the batching, pacing, variation and
    aggregation logic.

    Conventions of the embedding.
    - A JavaScript number is a double. A number that holds an integer is a
      [Z], and the sums and products of integers are those of [Z]: they
      are the ones of the source as long as the operands and the result
      are below 2^53 in absolute value, which the statements about runs
      require of the count and of the options ([Shapes.SafeCount],
      [Shapes.SafeWaits]).
      [toString] writes the decimal digits, as the source does below
      10^21.
    - The numbers computed from [Math.random()] are not integers: they are
      rationals rounded as binary64 rounds, to the nearest double and to
      the even one on a tie ([Number.round]); a draw is a double of [0,1)
      taken from a stream.
    - A JavaScript string is the list of its UTF-16 code units, so that
      [length] is the [.length] of the source.
    - [await], the collaborator, the logger's batch line and the progress
      callback are effects: they are recorded, in order, in a trace. The
      other lines of the logger are not recorded. *)

From Stdlib Require Import String Ascii ZArith QArith Qround Qabs Qpower.
From Stdlib Require Import List Bool Lia Lqa.
Import ListNotations.

Local Open Scope Z_scope.

(* ------------------------------------------------------------------ *)
(** ** Numbers that are not integers *)

(** The Number type of JavaScript is binary64: 53 bits of significand,
    exponents from -1074 (the subnormal numbers included). A finite
    number is kept as the rational it stands for, and the result of an
    operation is the exact result rounded. Infinity is not a value here:
    no operation of the two modules on numbers below 2^53 comes near
    2^1024. *)
Module Number.

Definition pow2 (e : Z) : Q := (2 ^ e)%Q.

(** The binary exponent of a number that is not zero: the [e] with
    2^e <= |x| < 2^(e+1). *)
Definition exponentOf (x : Q) : Z :=
  let d := Z.log2 (Z.abs (Qnum x)) - Z.log2 (Zpos (Qden x)) in
  if Qle_bool (pow2 d) (Qabs x) then d else d - 1.

(** The nearest integer, the even one of the two on a tie. *)
Definition roundHalfEven (y : Q) : Z :=
  let f := Qfloor y in
  match (y - inject_Z f ?= 1 # 2)%Q with
  | Lt => f
  | Gt => f + 1
  | Eq => if Z.even f then f else f + 1
  end.

(** The exponent of the unit in the last place of the doubles around
    [x]. *)
Definition ulpExponent (x : Q) : Z := Z.max (exponentOf x - 52) (-1074).

(** The double nearest to [x]. *)
Definition round (x : Q) : Q :=
  let u := pow2 (ulpExponent x) in
  (inject_Z (roundHalfEven (x / u)) * u)%Q.

(** [x * y], [x + y] and [x / y] on doubles. *)
Definition mul (x y : Q) : Q := round (x * y).
Definition add (x y : Q) : Q := round (x + y).
Definition div (x y : Q) : Q := round (x / y).

(** The largest double below 1. *)
Definition maxDraw : Q := (1 - pow2 (-53))%Q.

End Number.

(* ------------------------------------------------------------------ *)
(** ** JavaScript values used by the two modules *)

Module JS.

(** UTF-16 code units. *)
Definition jsstring := list Z.

(** An ASCII literal of the source. *)
Definition str (s : string) : jsstring :=
  map (fun a => Z.of_nat (nat_of_ascii a)) (list_ascii_of_string s).

(** [x.length], of a string or of an array. *)
Definition len {A} (s : list A) : Z := Z.of_nat (length s).

Fixpoint jsstring_eqb (a b : jsstring) : bool :=
  match a, b with
  | [], [] => true
  | x :: a', y :: b' => (x =? y) && jsstring_eqb a' b'
  | _, _ => false
  end.

(** [s.startsWith(p)]. *)
Fixpoint startsWith (p s : jsstring) : bool :=
  match p, s with
  | [], _ => true
  | x :: p', y :: s' => (x =? y) && startsWith p' s'
  | _ :: _, [] => false
  end.

(** Relative index of [slice] (strings and arrays alike): a negative index
    counts from the end, and everything is clamped to [0, length]. *)
Definition slice_index {A} (s : list A) (i : Z) : nat :=
  Z.to_nat (if i <? 0 then Z.max (Z.of_nat (length s) + i) 0
            else Z.min i (Z.of_nat (length s))).

(** [s.slice(from, to)]. *)
Definition slice {A} (s : list A) (from to : Z) : list A :=
  let a := slice_index s from in
  let b := slice_index s to in
  firstn (b - a) (skipn a s).

(** [s.slice(from)]. *)
Definition slice_from {A} (s : list A) (from : Z) : list A :=
  skipn (slice_index s from) s.

(** [s.replace(pat, rep)] with a string pattern: only the first occurrence
    is replaced (the replacements of the source contain no [$]). *)
Fixpoint replace (pat rep s : jsstring) : jsstring :=
  if startsWith pat s then rep ++ skipn (length pat) s
  else match s with
       | [] => []
       | c :: s' => c :: replace pat rep s'
       end.

(** [parts.join(sep)]. *)
Fixpoint join (sep : jsstring) (parts : list jsstring) : jsstring :=
  match parts with
  | [] => []
  | [p] => p
  | p :: rest => p ++ sep ++ join sep rest
  end.

(** Decimal digits of a non-negative integer, most significant first.
    [fuel] bounds the number of digits. *)
Fixpoint digits (fuel : nat) (n : Z) (acc : jsstring) : jsstring :=
  match fuel with
  | O => acc
  | S fuel' =>
      let acc' := (48 + n mod 10) :: acc in
      if n <? 10 then acc' else digits fuel' (n / 10) acc'
  end.

(** [n.toString()] for an integer [n]: its decimal digits, after a minus
    sign if it is negative. This is what JavaScript writes for an
    integer below 10^21 in absolute value; from there on it writes an
    exponent, which is not modelled: the statements on group names
    require safe integers, below 2^53. *)
Definition toString (n : Z) : jsstring :=
  if n <? 0 then 45 :: digits (S (Z.to_nat (Z.log2 (- n)))) (- n) []
  else digits (S (Z.to_nat (Z.log2 n))) n [].

(** [s.padStart(width, "0")]. *)
Definition padStart0 (s : jsstring) (width : Z) : jsstring :=
  repeat 48 (Z.to_nat (width - len s)) ++ s.

(** [a || d] on an optional number: [undefined] and [0] are falsy. *)
Definition or_default (a : option Z) (d : Z) : Z :=
  match a with
  | Some v => if v =? 0 then d else v
  | None => d
  end.

(** [a || false] on an optional boolean. *)
Definition or_false (a : option bool) : bool :=
  match a with
  | Some b => b
  | None => false
  end.

(** [Math.floor] and [Math.ceil]. *)
Definition Math_floor (x : Q) : Z := Qfloor x.
Definition Math_ceil (x : Q) : Z := Qceiling x.

(** A result of [Math.random()]: a double of [0,1). *)
Record Draw : Type := mkDraw {
  value : Q;
  value_range : (0 <= value)%Q /\ (value < 1)%Q;
  value_double : (Number.round value == value)%Q
}.

(** An [Error] object: only its [message] is ever read. *)
Record Error : Type := mkError { message : jsstring }.

End JS.

Import JS.

(* ------------------------------------------------------------------ *)
(** ** Effects: the trace of a run, exceptions, loops *)

Module Effects.

(** The collaborator's answer to one call: the promise resolves with a
    handle (of which only the serialized id is read) or rejects with an
    [Error]. *)
Inductive CallResult : Type :=
| Resolved (serialized : jsstring)
| Rejected (e : Error).

Inductive Call : Type :=
| CreateGroup (groupName : jsstring) (participants : list jsstring)
| SendMessage (recipient : jsstring) (text : jsstring).

(** The objects handed to the progress callback. *)
Inductive ProgressEvent : Type :=
| GroupProgress (current total success failed currentBatch totalBatches
                 batchProgress batchSize : Z)
| MessageProgress (current total success failed : Z) (lastRecipient : jsstring)
                  (currentBatch totalBatches : Z)
| CooldownProgress (current total success failed cooldownSeconds nextBatch
                    totalBatches : Z).

(** Why [delay(ms)] is awaited: before a unit, or between two batches. *)
Inductive DelayKind : Type := Pacing | Cooldown.

Inductive Event : Type :=
| EvGroupBatch (batchNumber totalBatches first last : Z)
    (* logger.info(`Processing batch n/total (groups first to last)`) *)
| EvMessageBatch (batchNumber totalBatches size : Z)
    (* logger.info(`Processing batch n/total (size recipients)`) *)
| EvDelay (kind : DelayKind) (ms : Z)            (* await delay(ms) *)
| EvCall (c : Call) (r : CallResult)             (* await client.<call>(...) *)
| EvProgress (p : ProgressEvent).                (* await progressCallback(p) *)

(** What a run has done so far: the number of [Math.random()] calls and
    the events in the order they happened. *)
Record World : Type := mkWorld {
  randomCalls : nat;
  trace : list Event
}.

Definition emit (e : Event) (w : World) : World :=
  mkWorld (randomCalls w) (trace w ++ [e]).

(** The client object: [info] is absent until the session is
    authenticated; the two collaborator calls may answer from everything
    that happened before. *)
Record Client : Type := mkClient {
  info : option jsstring;
  createGroup : list Event -> jsstring -> list jsstring -> CallResult;
  sendMessage : list Event -> jsstring -> jsstring -> CallResult
}.

(** The progress callback: it returns, or throws. *)
Definition Callback := ProgressEvent -> option Error.

Inductive Completion (A : Type) : Type :=
| Normal (a : A)
| Throw (e : Error).
Arguments Normal {A} a.
Arguments Throw {A} e.

Definition Eff (A : Type) : Type := World -> Completion A * World.

Definition ret {A} (a : A) : Eff A := fun w => (Normal a, w).

Definition bind {A B} (m : Eff A) (k : A -> Eff B) : Eff B :=
  fun w =>
    match m w with
    | (Normal a, w') => k a w'
    | (Throw e, w') => (Throw e, w')
    end.

Definition throw {A} (e : Error) : Eff A := fun w => (Throw e, w).

(** [try { body } catch (error) { handler }]. *)
Definition try_catch {A} (body : Eff A) (handler : Error -> Eff A) : Eff A :=
  fun w =>
    match body w with
    | (Normal a, w') => (Normal a, w')
    | (Throw e, w') => handler e w'
    end.

Declare Scope eff_scope.
Delimit Scope eff_scope with eff.
Notation "x <- m ;; k" := (bind m (fun x => k))
  (at level 100, m at next level, right associativity) : eff_scope.
Notation "m ;;; k" := (bind m (fun _ => k))
  (at level 100, right associativity) : eff_scope.

(** [for (let i = from; i < from + n; i++) acc = body(i, acc)]. *)
Fixpoint for_upto {A} (n : nat) (from : Z) (body : Z -> A -> Eff A) (acc : A)
  : Eff A :=
  match n with
  | O => ret acc
  | S n' => bind (body from acc) (for_upto n' (from + 1) body)
  end.

(** [for (let i = 0; i < bound; i++) ...]. *)
Definition for_loop {A} (bound : Z) (body : Z -> A -> Eff A) (acc : A) : Eff A :=
  for_upto (Z.to_nat bound) 0 body acc.

(** The logger's line at the start of a batch. Of the lines of the
    logger this one alone is an event of the trace: the lines written at
    the start and at the end of a run, before a throw and around each
    unit are written by the source too, and are not recorded. *)
Definition log (e : Event) : Eff unit := fun w => (Normal tt, emit e w).

(** [await delay(ms)]. *)
Definition delay (kind : DelayKind) (ms : Z) : Eff unit :=
  fun w => (Normal tt, emit (EvDelay kind ms) w).

(** [Math.random()]: the next draw of the stream. *)
Definition Math_random (random : nat -> Draw) : Eff Q :=
  fun w => (Normal (value (random (randomCalls w))),
            mkWorld (S (randomCalls w)) (trace w)).

(** [await client.createGroup(name, participants, groupOptions)]. *)
Definition call_createGroup (c : Client) (name : jsstring)
    (participants : list jsstring) : Eff jsstring :=
  fun w =>
    let r := createGroup c (trace w) name participants in
    let w' := emit (EvCall (CreateGroup name participants) r) w in
    match r with
    | Resolved id => (Normal id, w')
    | Rejected e => (Throw e, w')
    end.

(** [await client.sendMessage(recipient, text)]. *)
Definition call_sendMessage (c : Client) (recipient text : jsstring)
  : Eff jsstring :=
  fun w =>
    let r := sendMessage c (trace w) recipient text in
    let w' := emit (EvCall (SendMessage recipient text) r) w in
    match r with
    | Resolved id => (Normal id, w')
    | Rejected e => (Throw e, w')
    end.

(** [if (typeof progressCallback === 'function') await progressCallback(p)]. *)
Definition notify (cb : option Callback) (p : ProgressEvent) : Eff unit :=
  match cb with
  | None => ret tt
  | Some f =>
      fun w =>
        let w' := emit (EvProgress p) w in
        match f p with
        | None => (Normal tt, w')
        | Some e => (Throw e, w')
        end
  end.

(** The callback of a run, if there is one, never throws. *)
Definition quiet (cb : option Callback) : Prop :=
  forall f, cb = Some f -> forall ev, f ev = None.

End Effects.

Import Effects.
Local Open Scope eff_scope.

(* ------------------------------------------------------------------ *)
(** ** src/message-sender.js *)

Module MessageSender.

(** An entry of [ANTI_BAN.MESSAGE_VARIATIONS]: an object that has some of
    the keys [append], [prepend], [replace] (with [with]) and [invisible]. *)
Record Variation : Type := mkVariation {
  append : option jsstring;
  prepend : option jsstring;
  replace_ : option jsstring;
  with_ : option jsstring;
  invisible : option jsstring
}.

Definition on_append (s : jsstring) := mkVariation (Some s) None None None None.
Definition on_prepend (s : jsstring) := mkVariation None (Some s) None None None.
Definition on_replace (a b : jsstring) := mkVariation None None (Some a) (Some b) None.
Definition on_invisible (s : jsstring) := mkVariation None None None None (Some s).

Module ANTI_BAN.
Definition MAX_MESSAGES_PER_HOUR : Z := 30.
Definition MIN_RANDOM_DELAY : Z := 1000.
Definition MAX_RANDOM_DELAY : Z := 6000.
Definition MESSAGE_VARIATIONS : list Variation :=
  [ on_append (str "");
    on_append (str " ");
    on_append (str ".");
    on_prepend (str "");
    on_prepend (str " ");
    on_replace (str "a") [1072];      (* Cyrillic a, U+0430 *)
    on_replace (str "e") [1077];      (* Cyrillic ie, U+0435 *)
    on_replace (str "o") [1086];      (* Cyrillic o, U+043E *)
    on_invisible [8203];              (* zero-width space, U+200B *)
    on_invisible [8204] ].            (* zero-width non-joiner, U+200C *)
Definition BATCH_SIZE : Z := 26.
Definition BATCH_COOLDOWN : Z := 300000.
End ANTI_BAN.

(** The value of an array access past the end; the index computed from a
    draw never reaches it (lemma [selected_variation]). *)
Definition undefined_variation := mkVariation None None None None None.

(** An entry of [results.details]. *)
Record Detail : Type := mkDetail {
  recipient : jsstring;
  success : bool;
  messageId : option jsstring;
  error : option jsstring
}.

Record Results : Type := mkResults {
  successCount : Z;
  failedCount : Z;
  details : list Detail
}.

Definition notReady : Error :=
  mkError (str "WhatsApp client is not ready. Please try again.").

Section WithRandom.

Variable random : nat -> Draw.

(** Position of the invisible character: [Math.floor(Math.random() *
    modifiedMessage.length)]. *)
Definition invisiblePosition (r : Q) (modifiedMessage : jsstring) : Z :=
  Math_floor (Number.mul r (inject_Z (len modifiedMessage))).

(** Index of the variation: [Math.floor(Math.random() *
    ANTI_BAN.MESSAGE_VARIATIONS.length)]. *)
Definition variationIndex (r : Q) : Z :=
  Math_floor (Number.mul r (inject_Z (len ANTI_BAN.MESSAGE_VARIATIONS))).

Definition addMessageVariation (originalMessage : jsstring) : Eff jsstring :=
  r <- Math_random random ;;
  let variation :=
    nth (Z.to_nat (variationIndex r)) ANTI_BAN.MESSAGE_VARIATIONS
        undefined_variation in
  let modifiedMessage := originalMessage in
  match append variation with
  | Some suffix => ret (modifiedMessage ++ suffix)
  | None =>
  match prepend variation with
  | Some prefix => ret (prefix ++ modifiedMessage)
  | None =>
  match replace_ variation with
  | Some pat =>
      let rep := match with_ variation with
                 | Some rep => rep
                 | None => str "undefined"
                 end in
      ret (replace pat rep modifiedMessage)
  | None =>
  match invisible variation with
  | Some mark =>
      r' <- Math_random random ;;
      let position := invisiblePosition r' modifiedMessage in
      ret (slice modifiedMessage 0 position ++ mark
           ++ slice_from modifiedMessage position)
  | None => ret modifiedMessage
  end end end end.

(** [Math.floor(Math.random() * (MAX_RANDOM_DELAY - MIN_RANDOM_DELAY) +
    MIN_RANDOM_DELAY)]: the product is rounded, then the sum. *)
Definition randomOffset (r : Q) : Z :=
  Math_floor
    (Number.add
       (Number.mul r
          (inject_Z (ANTI_BAN.MAX_RANDOM_DELAY - ANTI_BAN.MIN_RANDOM_DELAY)))
       (inject_Z ANTI_BAN.MIN_RANDOM_DELAY)).

Definition getRandomizedDelay (baseDelaySeconds : Z) : Eff Z :=
  let baseDelay := baseDelaySeconds * 1000 in
  r <- Math_random random ;;
  ret (baseDelay + randomOffset r).

(** One pass of the inner loop of [sendBulkMessages]. *)
Definition sendUnit (c : Client) (message : jsstring) (total : Z)
    (delaySeconds : Z) (progressCallback : option Callback)
    (batchIndex totalBatches batchStart : Z) (batchRecipients : list jsstring)
    (i : Z) (results : Results) : Eff Results :=
  let recipient := nth (Z.to_nat i) batchRecipients [] in
  let totalProcessed := batchStart + i in
  results <-
    try_catch
      ((if totalProcessed >? 0
        then (randomDelay <- getRandomizedDelay delaySeconds ;;
              delay Pacing randomDelay)
        else ret tt) ;;;
       modifiedMessage <- addMessageVariation message ;;
       response <- call_sendMessage c recipient modifiedMessage ;;
       ret (mkResults (successCount results + 1) (failedCount results)
              (details results
               ++ [mkDetail recipient true (Some response) None])))
      (fun error =>
         ret (mkResults (successCount results) (failedCount results + 1)
                (details results
                 ++ [mkDetail recipient false None (Some (JS.message error))]))) ;;
  notify progressCallback
    (MessageProgress (totalProcessed + 1) total
       (successCount results) (failedCount results) recipient
       (batchIndex + 1) totalBatches) ;;;
  ret results.

(** One pass of the outer loop of [sendBulkMessages]. *)
Definition sendBatch (c : Client) (message : jsstring)
    (recipients : list jsstring) (delaySeconds : Z)
    (progressCallback : option Callback) (totalBatches : Z)
    (batchIndex : Z) (results : Results) : Eff Results :=
  let batchStart := batchIndex * ANTI_BAN.BATCH_SIZE in
  let batchEnd := Z.min (batchStart + ANTI_BAN.BATCH_SIZE) (len recipients) in
  let batchRecipients := slice recipients batchStart batchEnd in
  log (EvMessageBatch (batchIndex + 1) totalBatches (len batchRecipients)) ;;;
  results <-
    for_loop (len batchRecipients)
      (sendUnit c message (len recipients) delaySeconds progressCallback
         batchIndex totalBatches batchStart batchRecipients)
      results ;;
  (if batchIndex <? totalBatches - 1
   then (notify progressCallback
           (CooldownProgress batchEnd (len recipients)
              (successCount results) (failedCount results)
              (ANTI_BAN.BATCH_COOLDOWN / 1000) (batchIndex + 2) totalBatches) ;;;
         delay Cooldown ANTI_BAN.BATCH_COOLDOWN)
   else ret tt) ;;;
  ret results.

(** [Math.ceil(recipients.length / ANTI_BAN.BATCH_SIZE)]. The quotient
    is taken exactly: rounding it to a double does not change its ceiling
    (lemma [message_totalBatches_rounded]). *)
Definition totalBatchesOf (recipients : list jsstring) : Z :=
  Math_ceil (inject_Z (len recipients) / inject_Z ANTI_BAN.BATCH_SIZE).

(** [sendBulkMessages(client, message, recipients, delaySeconds = 3,
    progressCallback)]. *)
Definition sendBulkMessages (client : option Client) (message : jsstring)
    (recipients : list jsstring) (delaySeconds : option Z)
    (progressCallback : option Callback) : Eff Results :=
  let delaySeconds := match delaySeconds with Some d => d | None => 3 end in
  let results := mkResults 0 0 [] in
  match client with
  | None => throw notReady
  | Some c =>
  match info c with
  | None => throw notReady
  | Some _ =>
      let totalBatches := totalBatchesOf recipients in
      for_loop totalBatches
        (sendBatch c message recipients delaySeconds progressCallback
           totalBatches)
        results
  end end.

End WithRandom.

End MessageSender.

(* ------------------------------------------------------------------ *)
(** ** src/group-creator.js *)

Module GroupCreator.

(** The [options] object of [createMultipleGroups]; an absent key is
    [None]. A numeric option is an integer. [NaN], which is falsy and so
    the same as an absent key, and [Infinity], which [parseInt] returns
    for a numeral too long for a double, are not values of this type:
    the statements on runs require safe integers
    ([Shapes.SafeCount]). *)
Record Options : Type := mkOptions {
  startingNumber : option Z;
  delaySeconds : option Z;
  padNumbers : option bool;
  batchSize : option Z;
  batchCooldownSeconds : option Z
}.

Definition no_options : Options := mkOptions None None None None None.

(** The [settings] object built from the options and their defaults. *)
Record Settings : Type := mkSettings {
  s_startingNumber : Z;
  s_delaySeconds : Z;
  s_padNumbers : bool;
  s_batchSize : Z;
  s_batchCooldownSeconds : Z
}.

Definition settingsOf (options : Options) : Settings :=
  mkSettings
    (or_default (startingNumber options) 1)
    (or_default (delaySeconds options) 0)
    (or_false (padNumbers options))
    (or_default (batchSize options) 10)
    (or_default (batchCooldownSeconds options) 120).

(** An entry of [results.groups]. *)
Record GroupRecord : Type := mkGroupRecord {
  name : jsstring;
  number : Z;
  id : option jsstring;
  success : bool;
  error : option jsstring
}.

Record Results : Type := mkResults {
  successCount : Z;
  failedCount : Z;
  groups : list GroupRecord
}.

Definition notReady : Error :=
  mkError (str "WhatsApp client is not ready. Please try again.").

Definition isDigit (c : Z) : bool := (48 <=? c) && (c <=? 57).

Fixpoint skipDigits (s : jsstring) : jsstring :=
  match s with
  | c :: s' => if isDigit c then skipDigits s' else s
  | [] => []
  end.

(** [number.match(/^\d+@c\.us$/)] finds a match. *)
Definition matchesPhone (number : jsstring) : bool :=
  match number with
  | c :: rest => isDigit c && jsstring_eqb (skipDigits rest) (str "@c.us")
  | [] => false
  end.

(** [validateParticipants(participants)]; [None] is a missing array. *)
Definition validateParticipants (participants : option (list jsstring))
  : Eff unit :=
  match participants with
  | None => throw (mkError (str "No participants provided"))
  | Some participants =>
      if len participants =? 0
      then throw (mkError (str "No participants provided"))
      else if len participants >? 256
      then throw (mkError (str
        "Too many participants. WhatsApp allows a maximum of 256 participants."))
      else
        let invalidNumbers :=
          filter (fun number => negb (matchesPhone number)) participants in
        if len invalidNumbers >? 0
        then throw (mkError (str "Invalid phone numbers detected: "
                             ++ join (str ", ") invalidNumbers))
        else ret tt
  end.

(** The stepped base delay of [getRateLimit]. *)
Definition baseDelay (count : Z) : Z :=
  let delay := 3000 in
  let delay := if count >? 10 then 5000 else delay in
  let delay := if count >? 20 then 8000 else delay in
  let delay := if count >? 30 then 12000 else delay in
  delay.

(** [Math.floor(delay * randomFactor)] with [randomFactor = 0.5 +
    Math.random()]: the sum is rounded, then the product. *)
Definition rateLimitOf (r : Q) (count : Z) : Z :=
  let randomFactor := Number.add (1 # 2) r in
  Math_floor (Number.mul (inject_Z (baseDelay count)) randomFactor).

Section WithRandom.

Variable random : nat -> Draw.

Definition getRateLimit (count : Z) : Eff Z :=
  r <- Math_random random ;;
  ret (rateLimitOf r count).

Definition formatNumber (settings : Settings) (maxDigits groupNumber : Z)
  : jsstring :=
  if s_padNumbers settings
  then padStart0 (toString groupNumber) maxDigits
  else toString groupNumber.

Definition groupNameOf (groupPrefix : jsstring) (settings : Settings)
    (maxDigits groupNumber : Z) : jsstring :=
  groupPrefix ++ str " " ++ formatNumber settings maxDigits groupNumber.

(** One pass of the inner loop of [createMultipleGroups]. The sums
    ([currentIndex], [groupNumber]) and the product of the fixed wait are
    those of [Z], which are the ones of the source when the numbers of
    the run are safe integers. *)
Definition createUnit (c : Client) (groupPrefix : jsstring) (count : Z)
    (participants : list jsstring) (settings : Settings)
    (progressCallback : option Callback) (maxDigits totalBatches : Z)
    (batchIndex batchStart currentBatchSize : Z)
    (i : Z) (results : Results) : Eff Results :=
  let currentIndex := batchStart + i in
  let groupNumber := s_startingNumber settings + currentIndex in
  let groupName := groupNameOf groupPrefix settings maxDigits groupNumber in
  results <-
    try_catch
      ((if currentIndex >? 0
        then (waitTime <-
                (if s_delaySeconds settings >? 0
                 then ret (s_delaySeconds settings * 1000)
                 else getRateLimit (currentIndex + 1)) ;;
              delay Pacing waitTime)
        else ret tt) ;;;
       group <- call_createGroup c groupName participants ;;
       ret (mkResults (successCount results + 1) (failedCount results)
              (groups results
               ++ [mkGroupRecord groupName groupNumber (Some group) true None])))
      (fun error =>
         ret (mkResults (successCount results) (failedCount results + 1)
                (groups results
                 ++ [mkGroupRecord groupName groupNumber None false
                       (Some (message error))]))) ;;
  notify progressCallback
    (GroupProgress (currentIndex + 1) count
       (successCount results) (failedCount results)
       (batchIndex + 1) totalBatches (i + 1) currentBatchSize) ;;;
  ret results.

(** One pass of the outer loop of [createMultipleGroups]. *)
Definition createBatch (c : Client) (groupPrefix : jsstring) (count : Z)
    (participants : list jsstring) (settings : Settings)
    (progressCallback : option Callback) (maxDigits totalBatches : Z)
    (batchIndex : Z) (results : Results) : Eff Results :=
  let batchStart := batchIndex * s_batchSize settings in
  let batchEnd := Z.min (batchStart + s_batchSize settings) count in
  let currentBatchSize := batchEnd - batchStart in
  log (EvGroupBatch (batchIndex + 1) totalBatches (batchStart + 1) batchEnd) ;;;
  results <-
    for_loop currentBatchSize
      (createUnit c groupPrefix count participants settings progressCallback
         maxDigits totalBatches batchIndex batchStart currentBatchSize)
      results ;;
  (if batchIndex <? totalBatches - 1
   then (let cooldownMs := s_batchCooldownSeconds settings * 1000 in
         notify progressCallback
           (CooldownProgress batchEnd count
              (successCount results) (failedCount results)
              (s_batchCooldownSeconds settings) (batchIndex + 2) totalBatches) ;;;
         delay Cooldown cooldownMs)
   else ret tt) ;;;
  ret results.

(** [Math.ceil(count / settings.batchSize)]. The quotient is taken
    exactly: rounding it to a double does not change its ceiling when the
    two numbers are safe integers (lemma [totalBatches_rounded]). *)
Definition totalBatchesOf (count : Z) (settings : Settings) : Z :=
  Math_ceil (inject_Z count / inject_Z (s_batchSize settings)).

(** [createMultipleGroups(client, groupPrefix, count, participants,
    options = {}, progressCallback)]. *)
Definition createMultipleGroups (client : option Client)
    (groupPrefix : jsstring) (count : Z)
    (participants : option (list jsstring)) (options : Options)
    (progressCallback : option Callback) : Eff Results :=
  let settings := settingsOf options in
  let results := mkResults 0 0 [] in
  match client with
  | None => throw notReady
  | Some c =>
  match info c with
  | None => throw notReady
  | Some _ =>
      validateParticipants participants ;;;
      let participants := match participants with Some l => l | None => [] end in
      let endNumber := s_startingNumber settings + count - 1 in
      let maxDigits := len (toString endNumber) in
      let totalBatches := totalBatchesOf count settings in
      for_loop totalBatches
        (createBatch c groupPrefix count participants settings
           progressCallback maxDigits totalBatches)
        results
  end end.

End WithRandom.

End GroupCreator.

(* ------------------------------------------------------------------ *)
(** ** Reading a trace *)

Module Trace.

Fixpoint collect {B} (f : Event -> option B) (tr : list Event) : list B :=
  match tr with
  | [] => []
  | e :: tr' =>
      match f e with
      | Some b => b :: collect f tr'
      | None => collect f tr'
      end
  end.

(** The collaborator calls, with their answers. *)
Definition calls : list Event -> list (Call * CallResult) :=
  collect (fun e => match e with EvCall c r => Some (c, r) | _ => None end).

(** The durations awaited before a unit. *)
Definition pacingWaits : list Event -> list Z :=
  collect (fun e => match e with EvDelay Pacing ms => Some ms | _ => None end).

(** The durations awaited between two batches. *)
Definition cooldownWaits : list Event -> list Z :=
  collect (fun e => match e with EvDelay Cooldown ms => Some ms | _ => None end).

(** The cooldown events received by the progress callback. *)
Definition cooldownEvents : list Event -> list ProgressEvent :=
  collect (fun e => match e with
                    | EvProgress (CooldownProgress a b c d s n t) =>
                        Some (CooldownProgress a b c d s n t)
                    | _ => None
                    end).

(** The per-unit events received by the progress callback. *)
Definition unitEvents : list Event -> list ProgressEvent :=
  collect (fun e => match e with
                    | EvProgress (CooldownProgress _ _ _ _ _ _ _) => None
                    | EvProgress p => Some p
                    | _ => None
                    end).

(** The batch lines of the logger. *)
Definition batchLines : list Event -> list Event :=
  collect (fun e => match e with
                    | EvGroupBatch _ _ _ _ | EvMessageBatch _ _ _ => Some e
                    | _ => None
                    end).

(** The frame of a run: all its events in their order, without the
    answers of the collaborator and the counters handed to the callback.
    An item is a batch line, a wait with its kind and its length, the
    unit of a collaborator call (a group name or a recipient) or a report
    to the callback (after a unit, or before a cooldown). *)
Inductive Item : Type :=
| BatchStart (line : Event)
| Wait (kind : DelayKind) (ms : Z)
| Unit (key : jsstring)
| Report (cooldown : bool).

Definition itemOf (e : Event) : Item :=
  match e with
  | EvGroupBatch _ _ _ _ | EvMessageBatch _ _ _ => BatchStart e
  | EvDelay kind ms => Wait kind ms
  | EvCall (CreateGroup name _) _ => Unit name
  | EvCall (SendMessage recipient _) _ => Unit recipient
  | EvProgress (CooldownProgress _ _ _ _ _ _ _) => Report true
  | EvProgress _ => Report false
  end.

Definition frame : list Event -> list Item :=
  collect (fun e => Some (itemOf e)).

(** The collaborator rejected the call. *)
Definition rejected (cr : Call * CallResult) : bool :=
  match snd cr with
  | Rejected _ => true
  | Resolved _ => false
  end.

(** The integers [from, from + 1, ..., from + n - 1]. *)
Definition range (from : Z) (n : nat) : list Z :=
  map (fun j => from + Z.of_nat j) (seq 0 n).

End Trace.

Import Trace.

(* ------------------------------------------------------------------ *)
(** ** What a run of [createMultipleGroups] has reached *)

Module GroupRun.

Import GroupCreator.

(** The arguments of one run, after the pre-loop checks. *)
Record Args : Type := mkArgs {
  random : nat -> Draw;
  client : Client;
  groupPrefix : jsstring;
  count : Z;
  participants : list jsstring;
  settings : Settings;
  progressCallback : option Callback
}.

Definition maxDigits (a : Args) : Z :=
  len (toString (s_startingNumber (settings a) + count a - 1)).

Definition totalBatches (a : Args) : Z := totalBatchesOf (count a) (settings a).

(** Number and name of the unit of index [k] (0-based). *)
Definition numberAt (a : Args) (k : Z) : Z := s_startingNumber (settings a) + k.

Definition nameAt (a : Args) (k : Z) : jsstring :=
  groupNameOf (groupPrefix a) (settings a) (maxDigits a) (numberAt a k).

(** The entry pushed for a unit, given the collaborator's answer. *)
Definition recordOf (name : jsstring) (number : Z) (r : CallResult)
  : GroupRecord :=
  match r with
  | Resolved id => mkGroupRecord name number (Some id) true None
  | Rejected e => mkGroupRecord name number None false (Some (message e))
  end.

Definition pushResult (res : Results) (name : jsstring) (number : Z)
    (r : CallResult) : Results :=
  match r with
  | Resolved _ =>
      mkResults (successCount res + 1) (failedCount res)
        (groups res ++ [recordOf name number r])
  | Rejected _ =>
      mkResults (successCount res) (failedCount res + 1)
        (groups res ++ [recordOf name number r])
  end.

(** An entry of the log agrees with a call of the trace. *)
Definition RecordOfCall (g : GroupRecord) (cr : Call * CallResult) : Prop :=
  match cr with
  | (CreateGroup name _, r) => g = recordOf name (number g) r
  | (SendMessage _ _, _) => False
  end.

(** The wait before the unit of index [k] when [rc] draws were made. *)
Definition waitTime (a : Args) (rc : nat) (k : Z) : Z :=
  if s_delaySeconds (settings a) >? 0
  then s_delaySeconds (settings a) * 1000
  else rateLimitOf (value (random a rc)) (k + 1).

(** The wait before the unit of index [k >= 1] of a run that started
    after [rc0] draws: only adaptive waits consume draws. *)
Definition pacingAt (a : Args) (rc0 : nat) (k : Z) : Z :=
  waitTime a (rc0 + Z.to_nat (k - 1)) k.

Definition drawsAfter (a : Args) (k : nat) : nat :=
  if s_delaySeconds (settings a) >? 0 then 0%nat else (k - 1)%nat.

(** Batch [b] (0-based): its line in the log, its units, its frame. *)
Definition batchStartOf (a : Args) (b : Z) : Z := b * s_batchSize (settings a).

Definition batchEndOf (a : Args) (b : Z) : Z :=
  Z.min (batchStartOf a b + s_batchSize (settings a)) (count a).

Definition lineAt (a : Args) (b : Z) : Event :=
  EvGroupBatch (b + 1) (totalBatches a) (batchStartOf a b + 1) (batchEndOf a b).

Definition unitsOf (a : Args) (b : Z) : list Z :=
  range (batchStartOf a b) (Z.to_nat (batchEndOf a b - batchStartOf a b)).

(** The report to the callback, if there is one. *)
Definition reportOf (a : Args) (cooldown : bool) : list Item :=
  match progressCallback a with
  | Some _ => [Report cooldown]
  | None => []
  end.

(** The frame of the unit of index [k]: the wait before it unless it is
    the first unit of the run, the call, the report. *)
Definition unitFrame (a : Args) (rc0 : nat) (k : Z) : list Item :=
  (if k >? 0 then [Wait Pacing (pacingAt a rc0 k)] else [])
  ++ [Unit (nameAt a k)] ++ reportOf a false.

(** The frame of the pause after batch [b], which the last batch does
    not have: the report, then the wait. *)
Definition cooldownFrame (a : Args) (b : Z) : list Item :=
  if b <? totalBatches a - 1
  then reportOf a true
       ++ [Wait Cooldown (s_batchCooldownSeconds (settings a) * 1000)]
  else [].

Definition batchFrame (a : Args) (rc0 : nat) (b : Z) : list Item :=
  BatchStart (lineAt a b)
  :: flat_map (unitFrame a rc0) (unitsOf a b) ++ cooldownFrame a b.

(** The state of a run that started after [rc0] draws with an empty
    trace, once [k] units are processed, [nb] batches are started and
    [ncd] cooldowns are over. *)
Record Reached (a : Args) (rc0 : nat) (k nb ncd : nat) (fr : list Item)
    (res : Results) (w : World) : Prop := mkReached {
  r_records : Forall2 RecordOfCall (groups res) (calls (trace w));
  r_success :
    successCount res = Z.of_nat (length (filter success (groups res)));
  r_failed :
    failedCount res
    = Z.of_nat (length (filter (fun g => negb (success g)) (groups res)));
  r_entries :
    map (fun g => (name g, number g)) (groups res)
    = map (fun j => (nameAt a j, numberAt a j)) (range 0 k);
  r_calls :
    map fst (calls (trace w))
    = map (fun j => CreateGroup (nameAt a j) (participants a)) (range 0 k);
  r_lines : batchLines (trace w) = map (lineAt a) (range 0 nb);
  r_cooldowns :
    cooldownWaits (trace w)
    = repeat (s_batchCooldownSeconds (settings a) * 1000) ncd;
  r_cooldownEvents :
    length (cooldownEvents (trace w))
    = match progressCallback a with Some _ => ncd | None => 0%nat end;
  r_unitEvents :
    length (unitEvents (trace w))
    = match progressCallback a with Some _ => k | None => 0%nat end;
  r_pacing : pacingWaits (trace w) = map (pacingAt a rc0) (range 1 (k - 1));
  r_draws : randomCalls w = (rc0 + drawsAfter a k)%nat;
  r_frame : frame (trace w) = fr
}.

(** What holds of every run, whatever its count and batch size: the log
    agrees with the calls, the counters with the log, and every entry is
    the entry of a unit of the run. *)
Record Sound (a : Args) (res : Results) (w : World) : Prop := mkSound {
  s_records : Forall2 RecordOfCall (groups res) (calls (trace w));
  s_success :
    successCount res = Z.of_nat (length (filter success (groups res)));
  s_failed :
    failedCount res
    = Z.of_nat (length (filter (fun g => negb (success g)) (groups res)));
  s_units :
    Forall (fun g => exists j, 0 <= j < count a
                     /\ number g = numberAt a j /\ name g = nameAt a j)
      (groups res)
}.

(** Every call of the trace creates a group with the participants [ps]. *)
Definition CallsWith (ps : list jsstring) (w : World) : Prop :=
  Forall (fun cr => exists name, fst cr = CreateGroup name ps) (calls (trace w)).

End GroupRun.

(* ------------------------------------------------------------------ *)
(** ** What a run of [sendBulkMessages] has reached *)

Module MessageRun.

Import MessageSender.

(** The arguments of one run, after the pre-loop check. *)
Record Args : Type := mkArgs {
  random : nat -> Draw;
  client : Client;
  message : jsstring;
  recipients : list jsstring;
  delaySeconds : Z;
  progressCallback : option Callback
}.

Definition totalBatches (a : Args) : Z := totalBatchesOf (recipients a).

(** The entry pushed for a unit, given the collaborator's answer. *)
Definition detailOf (recipient : jsstring) (r : CallResult) : Detail :=
  match r with
  | Resolved id => mkDetail recipient true (Some id) None
  | Rejected e => mkDetail recipient false None (Some (JS.message e))
  end.

Definition pushResult (res : Results) (recipient : jsstring) (r : CallResult)
  : Results :=
  match r with
  | Resolved _ =>
      mkResults (successCount res + 1) (failedCount res)
        (details res ++ [detailOf recipient r])
  | Rejected _ =>
      mkResults (successCount res) (failedCount res + 1)
        (details res ++ [detailOf recipient r])
  end.

(** An entry of the log agrees with a call of the trace. *)
Definition DetailOfCall (d : Detail) (cr : Call * CallResult) : Prop :=
  match cr with
  | (SendMessage recipient _, r) => d = detailOf recipient r
  | (CreateGroup _ _, _) => False
  end.

(** The text of a call is the message, with at most one code unit more. *)
Definition VariantSent (a : Args) (cr : Call * CallResult) : Prop :=
  match cr with
  | (SendMessage _ text, _) =>
      (length (message a) <= length text <= length (message a) + 1)%nat
  | (CreateGroup _ _, _) => False
  end.

(** The wait computed from the draw of index [idx]. *)
Definition waitOfDraw (a : Args) (idx : nat) : Z :=
  delaySeconds a * 1000 + randomOffset (value (random a idx)).

(** Batch [b] (0-based): its recipients, its line in the log, its frame. *)
Definition batchStartOf (b : Z) : Z := b * ANTI_BAN.BATCH_SIZE.

Definition batchEndOf (a : Args) (b : Z) : Z :=
  Z.min (batchStartOf b + ANTI_BAN.BATCH_SIZE) (len (recipients a)).

Definition batchOf (a : Args) (b : Z) : list jsstring :=
  slice (recipients a) (batchStartOf b) (batchEndOf a b).

Definition lineAt (a : Args) (b : Z) : Event :=
  EvMessageBatch (b + 1) (totalBatches a) (len (batchOf a b)).

Definition unitsOf (a : Args) (b : Z) : list Z :=
  range (batchStartOf b) (length (batchOf a b)).

(** The report to the callback, if there is one. *)
Definition reportOf (a : Args) (cooldown : bool) : list Item :=
  match progressCallback a with
  | Some _ => [Report cooldown]
  | None => []
  end.

(** The frame of the unit of index [k], when the waits of the run are
    made from the draws [draws], in this order: the wait before the unit
    unless it is the first of the run, the call, the report. *)
Definition unitFrame (a : Args) (draws : list nat) (k : Z) : list Item :=
  (if k >? 0
   then [Wait Pacing (waitOfDraw a (nth (Z.to_nat (k - 1)) draws 0%nat))]
   else [])
  ++ [Unit (nth (Z.to_nat k) (recipients a) [])] ++ reportOf a false.

(** The frame of the pause after batch [b], which the last batch does
    not have: the report, then the wait. *)
Definition cooldownFrame (a : Args) (b : Z) : list Item :=
  if b <? totalBatches a - 1
  then reportOf a true ++ [Wait Cooldown ANTI_BAN.BATCH_COOLDOWN]
  else [].

Definition batchFrame (a : Args) (draws : list nat) (b : Z) : list Item :=
  BatchStart (lineAt a b)
  :: flat_map (unitFrame a draws) (unitsOf a b) ++ cooldownFrame a b.

(** The state of a run that started with an empty trace, once [k] units
    are processed, [nb] batches are started and [ncd] cooldowns are over;
    [idxs] are the draws that made the waits before the units. *)
Record Reached (a : Args) (k nb ncd : nat) (idxs : list nat)
    (fr : list Item) (res : Results) (w : World) : Prop := mkReached {
  r_records : Forall2 DetailOfCall (details res) (calls (trace w));
  r_success :
    successCount res = Z.of_nat (length (filter success (details res)));
  r_failed :
    failedCount res
    = Z.of_nat (length (filter (fun d => negb (success d)) (details res)));
  r_recipients : map recipient (details res) = firstn k (recipients a);
  r_texts : Forall (VariantSent a) (calls (trace w));
  r_lines : batchLines (trace w) = map (lineAt a) (range 0 nb);
  r_cooldowns :
    cooldownWaits (trace w) = repeat ANTI_BAN.BATCH_COOLDOWN ncd;
  r_cooldownEvents :
    length (cooldownEvents (trace w))
    = match progressCallback a with Some _ => ncd | None => 0%nat end;
  r_unitEvents :
    length (unitEvents (trace w))
    = match progressCallback a with Some _ => k | None => 0%nat end;
  r_pacing : pacingWaits (trace w) = map (waitOfDraw a) idxs;
  r_pacingCount : length idxs = (k - 1)%nat;
  r_fresh : NoDup idxs;
  r_drawn : Forall (fun idx => (idx < randomCalls w)%nat) idxs;
  r_frame : frame (trace w) = fr
}.

End MessageRun.

(* ------------------------------------------------------------------ *)
(** ** Concrete clients, draws and inputs *)

Module Samples.

Definition drawZero : Draw := mkDraw 0 (conj (Qle_refl 0) eq_refl) eq_refl.

Definition drawHalf : Draw :=
  mkDraw (1 # 2) (conj (fun H : (0 ?= 1) = Gt => eq_ind Lt
                          (fun c => match c with Gt => False | _ => True end)
                          I Gt H) eq_refl) eq_refl.

(** 0.875: a draw that selects the ninth variation. *)
Definition drawHigh : Draw :=
  mkDraw (7 # 8) (conj (fun H : (0 ?= 7) = Gt => eq_ind Lt
                          (fun c => match c with Gt => False | _ => True end)
                          I Gt H) eq_refl) eq_refl.

(** The largest draw there is. *)
Definition drawMax : Draw :=
  mkDraw Number.maxDraw
    (conj (fun H : (0 ?= 9007199254740991) = Gt => eq_ind Lt
             (fun c => match c with Gt => False | _ => True end)
             I Gt H) eq_refl) eq_refl.

(** The double nearest to 0.3, which is below 0.3. *)
Definition drawThreeTenths : Draw :=
  mkDraw (5404319552844595 # 18014398509481984)
    (conj (fun H : (0 ?= 5404319552844595) = Gt => eq_ind Lt
             (fun c => match c with Gt => False | _ => True end)
             I Gt H) eq_refl) eq_refl.

(** The double nearest to 0.7, which is below 0.7. *)
Definition drawSevenTenths : Draw :=
  mkDraw (3152519739159347 # 4503599627370496)
    (conj (fun H : (0 ?= 3152519739159347) = Gt => eq_ind Lt
             (fun c => match c with Gt => False | _ => True end)
             I Gt H) eq_refl) eq_refl.

(** A ready client whose calls all succeed. *)
Definition acceptingClient : Client :=
  mkClient (Some (str "628000000000@c.us"))
    (fun _ _ _ => Resolved (str "120363000000000000@g.us"))
    (fun _ _ _ => Resolved (str "true_628123456789@c.us_3EB0")).

(** A ready client whose calls all fail. *)
Definition refusingClient : Client :=
  mkClient (Some (str "628000000000@c.us"))
    (fun _ _ _ => Rejected (mkError (str "Evaluation failed")))
    (fun _ _ _ => Rejected (mkError (str "Evaluation failed"))).

Definition oneParticipant : list jsstring := [str "628123456789@c.us"].

Definition twoRecipients : list jsstring :=
  [str "628123456789@c.us"; str "628987654321@c.us"].

Definition quietCallback : Callback := fun _ => None.

Definition start : World := mkWorld 0 [].

End Samples.

(* ------------------------------------------------------------------ *)
(** ** More of JavaScript's strings *)

Module Text.

(** WhiteSpace and LineTerminator code units of ECMAScript: what [trim]
    and [parseInt] skip. *)
Definition isWhiteSpace (c : Z) : bool :=
  (c =? 9) || (c =? 10) || (c =? 11) || (c =? 12) || (c =? 13) || (c =? 32)
  || (c =? 160) || (c =? 5760) || ((8192 <=? c) && (c <=? 8202))
  || (c =? 8232) || (c =? 8233) || (c =? 8239) || (c =? 8287)
  || (c =? 12288) || (c =? 65279).

Fixpoint trimStart (s : jsstring) : jsstring :=
  match s with
  | c :: s' => if isWhiteSpace c then trimStart s' else s
  | [] => []
  end.

Definition trimEnd (s : jsstring) : jsstring := rev (trimStart (rev s)).

(** [s.trim()]. *)
Definition trim (s : jsstring) : jsstring := trimEnd (trimStart s).

(** [s.includes(sub)]. *)
Fixpoint includes (s sub : jsstring) : bool :=
  startsWith sub s
  || match s with
     | [] => false
     | _ :: s' => includes s' sub
     end.

(** [s.split(sep)] for a separator of one code unit, as are all the
    separators of the source. *)
Fixpoint split (sep : Z) (s : jsstring) : list jsstring :=
  match s with
  | [] => [[]]
  | c :: s' =>
      if c =? sep then [] :: split sep s'
      else match split sep s' with
           | piece :: pieces => (c :: piece) :: pieces
           | [] => [[c]]
           end
  end.

Fixpoint takeDigits (s : jsstring) : jsstring :=
  match s with
  | c :: s' => if GroupCreator.isDigit c then c :: takeDigits s' else []
  | [] => []
  end.

(** The integer written by a string of decimal digits. *)
Definition digitsValue (ds : jsstring) : Z :=
  fold_left (fun acc c => acc * 10 + (c - 48)) ds 0.

(** [parseInt(s, 10)]; [None] is NaN. Leading white space is skipped, a
    sign is read, then the longest run of decimal digits. The number is
    the one written, which is the value in JavaScript while it stays
    below 2^53; beyond, JavaScript rounds it to a double, and to
    [Infinity] from 2^1024, which is not modelled. *)
Definition parseInt (s : jsstring) : option Z :=
  let S := trimStart s in
  let (sign, S) :=
    match S with
    | c :: rest =>
        if c =? 45 then (-1, rest) else if c =? 43 then (1, rest) else (1, S)
    | [] => (1, S)
    end in
  match takeDigits S with
  | [] => None
  | ds => Some (sign * digitsValue ds)
  end.

(** [s.substring(from, to)]: both ends are clamped to [0, length] and
    swapped if out of order. *)
Definition substring (s : jsstring) (from to : Z) : jsstring :=
  let a := Z.min (Z.max from 0) (len s) in
  let b := Z.min (Z.max to 0) (len s) in
  firstn (Z.to_nat (Z.max a b - Z.min a b)) (skipn (Z.to_nat (Z.min a b)) s).

(** The greatest index of [0..k] at which [search] occurs in [s], or -1. *)
Fixpoint lastIndexFrom (s search : jsstring) (k : nat) : Z :=
  if startsWith search (skipn k s) then Z.of_nat k
  else match k with
       | O => -1
       | S k' => lastIndexFrom s search k'
       end.

(** [s.lastIndexOf(search, position)]. *)
Definition lastIndexOf (s search : jsstring) (position : Z) : Z :=
  lastIndexFrom s search
    (Z.to_nat (Z.min (Z.max position 0) (len s - len search))).

Definition newline : jsstring := [10].

End Text.

(* ------------------------------------------------------------------ *)
(** ** src/group-creator.js, [createSingleGroup] *)

Module SingleGroup.

(** [createSingleGroup(client, groupName, participants)] for an array of
    participants: every error of the body is caught and thrown again
    under one heading. The value returned is the group that the
    collaborator resolved with, known by its serialized id. *)
Definition createSingleGroup (client : option Client) (groupName : jsstring)
    (participants : list jsstring) : Eff jsstring :=
  try_catch
    (GroupCreator.validateParticipants (Some participants) ;;;
     match client with
     | None => throw GroupCreator.notReady
     | Some c =>
     match info c with
     | None => throw GroupCreator.notReady
     | Some _ =>
         group <- call_createGroup c groupName participants ;;
         ret group
     end end)
    (fun error =>
       throw (mkError (str "Failed to create group: " ++ message error))).

End SingleGroup.

(* ------------------------------------------------------------------ *)
(** ** The command handler: what it does before it calls an orchestrator *)

Module Commands.

Import Text.

(** [parseParticipants(participantsString)]. *)
Definition parseParticipants (participantsString : jsstring) : list jsstring :=
  let parts :=
    if includes participantsString (str ",")
    then split 44 participantsString
    else [participantsString] in
  map (fun number =>
         let normalized := filter GroupCreator.isDigit number in
         if negb (includes normalized (str "@c.us"))
         then normalized ++ str "@c.us"
         else normalized)
    (filter (fun number => len number >? 0) (map trim parts)).

(** A handler either replies and returns, or goes on to call the
    orchestrator with the arguments it has built. *)
Inductive Decision (A : Type) : Type :=
| Replies (text : jsstring)
| Calls (arguments : A).
Arguments Replies {A} text.
Arguments Calls {A} arguments.

(** The loop that looks for the count: the index of the first part,
    from [i] on, that [parseInt] reads as a number, or -1. *)
Fixpoint findCountIndex (i : Z) (parts : list jsstring) : Z :=
  match parts with
  | [] => -1
  | part :: rest =>
      match parseInt part with
      | Some _ => i
      | None => findCountIndex (i + 1) rest
      end
  end.

Definition withStartingNumber (o : GroupCreator.Options) (v : Z) :=
  GroupCreator.mkOptions (Some v) (GroupCreator.delaySeconds o)
    (GroupCreator.padNumbers o) (GroupCreator.batchSize o)
    (GroupCreator.batchCooldownSeconds o).

Definition withDelaySeconds (o : GroupCreator.Options) (v : Z) :=
  GroupCreator.mkOptions (GroupCreator.startingNumber o) (Some v)
    (GroupCreator.padNumbers o) (GroupCreator.batchSize o)
    (GroupCreator.batchCooldownSeconds o).

Definition withPadNumbers (o : GroupCreator.Options) :=
  GroupCreator.mkOptions (GroupCreator.startingNumber o)
    (GroupCreator.delaySeconds o) (Some true) (GroupCreator.batchSize o)
    (GroupCreator.batchCooldownSeconds o).

Definition withBatchSize (o : GroupCreator.Options) (v : Z) :=
  GroupCreator.mkOptions (GroupCreator.startingNumber o)
    (GroupCreator.delaySeconds o) (GroupCreator.padNumbers o) (Some v)
    (GroupCreator.batchCooldownSeconds o).

Definition withBatchCooldownSeconds (o : GroupCreator.Options) (v : Z) :=
  GroupCreator.mkOptions (GroupCreator.startingNumber o)
    (GroupCreator.delaySeconds o) (GroupCreator.padNumbers o)
    (GroupCreator.batchSize o) (Some v).

(** [parseInt(part.split('=')[1], 10)]. *)
Definition optionValue (part : jsstring) : option Z :=
  match nth_error (split 61 part) 1 with
  | Some text => parseInt text
  | None => None
  end.

(** One pass of the loop that scans the option flags; the state is the
    [options] object and [lastOptionIndex]. *)
Definition scanOption (i : Z) (part : jsstring)
    (state : GroupCreator.Options * Z) : GroupCreator.Options * Z :=
  let (options, lastOptionIndex) := state in
  if startsWith (str "--") part then
    let options :=
      if jsstring_eqb part (str "--padding") then withPadNumbers options
      else if startsWith (str "--start=") part then
        match optionValue part with
        | Some value => if value >? 0 then withStartingNumber options value
                        else options
        | None => options
        end
      else if startsWith (str "--delay=") part then
        match optionValue part with
        | Some value => if value >=? 0 then withDelaySeconds options value
                        else options
        | None => options
        end
      else if startsWith (str "--batchsize=") part then
        match optionValue part with
        | Some value => if value >? 0 then withBatchSize options value
                        else options
        | None => options
        end
      else if startsWith (str "--batchdelay=") part then
        match optionValue part with
        | Some value => if value >? 0 then withBatchCooldownSeconds options value
                        else options
        | None => options
        end
      else options in
    (options, i)
  else if lastOptionIndex =? -1 then (options, i)
  else (options, lastOptionIndex).

Fixpoint scanOptions (i : Z) (parts : list jsstring)
    (state : GroupCreator.Options * Z) : GroupCreator.Options * Z :=
  match parts with
  | [] => state
  | part :: rest => scanOptions (i + 1) rest (scanOption i part state)
  end.

(** The loop that gathers the participants: the parts up to the first
    flag, joined by commas. *)
Fixpoint gatherParticipants (parts : list jsstring)
    (participantsString : jsstring) : jsstring :=
  match parts with
  | [] => participantsString
  | part :: rest =>
      if startsWith (str "--") part then participantsString
      else gatherParticipants rest
             (participantsString
              ++ (match participantsString with [] => [] | _ => str "," end)
              ++ part)
  end.

Definition formatHelp : jsstring :=
  str "Format perintah tidak valid. Gunakan: !createmultiplegroups <AwalaGrup> <Jumlah> <Peserta1,Peserta2,...>"
  ++ newline ++ newline
  ++ str "Opsi tambahan (opsional):" ++ newline
  ++ str "--start=N        : Mulai penomoran dari N (default: 1)" ++ newline
  ++ str "--delay=N        : Jeda N detik antara pembuatan grup (default: dinamis)"
  ++ newline
  ++ str "--padding        : Gunakan padding nol untuk nomor (mis: 01, 02, 03)"
  ++ newline
  ++ str "--batchsize=N    : Jumlah grup per batch (default: 10)" ++ newline
  ++ str "--batchdelay=N   : Jeda N detik antar batch (default: 300)".

(** The arguments of [createMultipleGroups] other than the client and
    the callback. *)
Record GroupArguments : Type := mkGroupArguments {
  groupPrefix : jsstring;
  count : Z;
  participantNumbers : list jsstring;
  options : GroupCreator.Options
}.

(** [handleCreateMultipleGroups(client, message, commandParts)] up to
    its first reply: the text it replies with before it returns, or the
    arguments with which it goes on to announce the run and call
    [createMultipleGroups]. *)
Definition handleCreateMultipleGroups (commandParts : list jsstring)
  : Decision GroupArguments :=
  let countIndex := findCountIndex 1 (skipn 1 commandParts) in
  if countIndex =? -1 then
    Replies (str "Format perintah tidak valid. Harap sertakan jumlah grup (angka antara 1 dan 100).")
  else
    let groupPrefix := join (str " ") (slice commandParts 1 countIndex) in
    match parseInt (nth (Z.to_nat countIndex) commandParts []) with
    | None => (* unreachable: this part was read as a number just above *)
        Replies []
    | Some count =>
        if (count <? 1) || (count >? 100) then
          Replies (str "Jumlah grup tidak valid. Mohon masukkan angka antara 1 dan 100.")
        else
          let (options, _) :=
            scanOptions (countIndex + 1)
              (skipn (Z.to_nat (countIndex + 1)) commandParts)
              (GroupCreator.no_options, -1) in
          if len commandParts <? countIndex + 2 then Replies formatHelp
          else
            let participantsString :=
              gatherParticipants
                (skipn (Z.to_nat (countIndex + 1)) commandParts) [] in
            let participantNumbers := parseParticipants participantsString in
            if len participantNumbers =? 0 then
              Replies (str "Tidak ada nomor peserta yang valid. Format nomor: 628xxxxxxxxxx")
            else
              Calls (mkGroupArguments groupPrefix count participantNumbers
                       options)
    end.

(** The arguments of [sendBulkMessages] other than the client and the
    callback. *)
Record BulkArguments : Type := mkBulkArguments {
  messageText : jsstring;
  recipientNumbers : list jsstring;
  delaySeconds : Z
}.

(** [handleBulkMessage(client, message, commandParts)] up to its first
    reply. *)
Definition handleBulkMessage (commandParts : list jsstring)
  : Decision BulkArguments :=
  if len commandParts <? 4 then
    Replies (str "Format tidak valid. Gunakan: !bulkmessage <JedaDetik> <Penerima1,Penerima2,...> <Pesan>")
  else
    match parseInt (nth 1 commandParts []) with
    | None =>
        Replies (str "Jeda tidak valid. Mohon masukkan angka antara 0 dan 60 detik.")
    | Some delaySeconds =>
        if (delaySeconds <? 0) || (delaySeconds >? 60) then
          Replies (str "Jeda tidak valid. Mohon masukkan angka antara 0 dan 60 detik.")
        else
          let recipientsString := nth 2 commandParts [] in
          let recipientNumbers := parseParticipants recipientsString in
          if len recipientNumbers =? 0 then
            Replies (str "Tidak ada nomor penerima yang valid")
          else
            let messageText := join (str " ") (slice_from commandParts 3) in
            if (len messageText =? 0) || (len (trim messageText) =? 0) then
              Replies (str "Teks pesan tidak boleh kosong")
            else
              Calls (mkBulkArguments messageText recipientNumbers delaySeconds)
    end.

(** The splitting of a long text into replies, in [handleCopyAllGroups]:
    each chunk with its number. [fuel] bounds the passes of the [while]
    loop. *)
Definition maxChunkSize : Z := 4000.

Fixpoint chunkLoop (fuel : nat) (allGroupsText : jsstring)
    (startIndex chunkNumber : Z) : list (jsstring * Z) :=
  match fuel with
  | O => []
  | S fuel' =>
      if startIndex <? len allGroupsText then
        let endIndex := startIndex + maxChunkSize in
        let endIndex :=
          if endIndex <? len allGroupsText then
            let newlineIndex :=
              lastIndexOf allGroupsText (newline ++ newline) endIndex in
            if newlineIndex >? startIndex then newlineIndex else endIndex
          else endIndex in
        let chunk := substring allGroupsText startIndex endIndex in
        (chunk, chunkNumber)
        :: chunkLoop fuel' allGroupsText endIndex (chunkNumber + 1)
      else []
  end.

(** The chunks of a text that does not fit in one reply; every pass of
    the loop moves [startIndex] forward, so the length of the text is
    fuel enough (lemma [chunkLoop_covers]). *)
Definition chunksOf (allGroupsText : jsstring) : list (jsstring * Z) :=
  chunkLoop (length allGroupsText) allGroupsText 0 1.

(** The texts replied for the list of groups when no reply fails: the
    text itself if it fits, else its chunks, each under its label. *)
Definition copyReplies (allGroupsText : jsstring) : list jsstring :=
  if len allGroupsText <=? maxChunkSize then [allGroupsText]
  else
    map (fun '(chunk, chunkNumber) =>
           chunk ++ newline ++ newline ++ str "(Bagian "
           ++ toString chunkNumber ++ str "/"
           ++ toString (Math_ceil (inject_Z (len allGroupsText)
                                   / inject_Z maxChunkSize))
           ++ str ")")
      (chunksOf allGroupsText).

End Commands.

(* ------------------------------------------------------------------ *)
(** ** The logger's list for the web interface *)

Module Logger.

Record LogEntry : Type := mkLogEntry {
  timestamp : jsstring;
  level : jsstring;
  message : jsstring
}.

(** [addToWebInterfaceLogs(level, message)] for a message that is a
    string; [now] is [new Date().toISOString()] and [logs] is
    [global.webInterfaceLogs], whose new value is returned. *)
Definition addToWebInterfaceLogs (now : jsstring) (level message : jsstring)
    (logs : list LogEntry) : list LogEntry :=
  let logs := mkLogEntry now level message :: logs in
  if len logs >? 50 then slice logs 0 50 else logs.

(** A sequence of calls, oldest first. *)
Fixpoint addAll (calls : list LogEntry) (logs : list LogEntry) : list LogEntry :=
  match calls with
  | [] => logs
  | e :: rest =>
      addAll rest (addToWebInterfaceLogs (timestamp e) (level e) (message e) logs)
  end.

End Logger.

(** A text of 8000 code units with blank lines at 3000 and 6000. *)
Definition manyParagraphs : jsstring :=
  repeat 97 3000 ++ repeat 10 2 ++ repeat 97 2998 ++ repeat 10 2
  ++ repeat 97 1998.

(* ------------------------------------------------------------------ *)
(** ** Predicates of the statements *)

Module Shapes.

(** What [/^\d+@c\.us$/] accepts: one decimal digit or more, then
    ["@c.us"]. *)
Definition PhoneShape (p : jsstring) : Prop :=
  exists ds, ds <> [] /\ forallb GroupCreator.isDigit ds = true
             /\ p = ds ++ str "@c.us".

(** A piece of a list of numbers that is kept: not blank. *)
Definition nonBlank (part : jsstring) : bool := len (Text.trim part) >? 0.

(** The identifier made of a piece: its digits, then ["@c.us"]. *)
Definition identifierOf (part : jsstring) : jsstring :=
  filter GroupCreator.isDigit part ++ str "@c.us".

(** The numbers of an options object are in the ranges that the
    orchestrator expects. *)
Definition OptionsWithin (o : GroupCreator.Options) : Prop :=
  (forall v, GroupCreator.startingNumber o = Some v -> 1 <= v)
  /\ (forall v, GroupCreator.delaySeconds o = Some v -> 0 <= v)
  /\ (forall v, GroupCreator.batchSize o = Some v -> 1 <= v)
  /\ (forall v, GroupCreator.batchCooldownSeconds o = Some v -> 1 <= v).

(** Reading a formatted number back: the zeros of the padding are
    dropped, then a sign and the digits are read. *)
Fixpoint dropZeros (s : jsstring) : jsstring :=
  match s with
  | c :: s' => if c =? 48 then dropZeros s' else s
  | [] => []
  end.

Definition numberOf (s : jsstring) : Z :=
  match dropZeros s with
  | c :: ds => if c =? 45 then - Text.digitsValue ds
               else Text.digitsValue (c :: ds)
  | [] => 0
  end.

(** The changes that a variation can make: the code units removed and
    the code units put in their place. *)
Definition edits : list (jsstring * jsstring) :=
  [ ([], []); ([], str " "); ([], str ".");
    (str "a", [1072]); (str "e", [1077]); (str "o", [1086]);
    ([], [8203]); ([], [8204]) ].







(** An integer that a double holds exactly, between its neighbours
    ([Number.isSafeInteger]): below 2^53 in absolute value. *)
Definition safeInteger (n : Z) : Prop := - 2 ^ 53 < n < 2 ^ 53.

(** The numbers that a run of [createMultipleGroups] counts with are
    safe integers: the count, the first group number and the one after
    the last, and the batch size. The sums and products that the loops
    make of them are then the exact ones, and the group numbers are
    written in decimal digits. *)
Definition SafeCount (count : Z) (s : GroupCreator.Settings) : Prop :=
  safeInteger count
  /\ safeInteger (GroupCreator.s_startingNumber s)
  /\ safeInteger (GroupCreator.s_startingNumber s + count)
  /\ safeInteger (GroupCreator.s_batchSize s).

(** The two waits of the settings are safe integers in milliseconds. *)
Definition SafeWaits (s : GroupCreator.Settings) : Prop :=
  safeInteger (GroupCreator.s_delaySeconds s * 1000)
  /\ safeInteger (GroupCreator.s_batchCooldownSeconds s * 1000).

Definition SafeRun (count : Z) (s : GroupCreator.Settings) : Prop :=
  SafeCount count s /\ SafeWaits s.

(** The base delay of a run of [sendBulkMessages] is a safe integer in
    milliseconds, and so is the longest wait made of it. *)
Definition SafeDelay (delaySeconds : Z) : Prop :=
  safeInteger (delaySeconds * 1000)
  /\ safeInteger (delaySeconds * 1000 + 5999).

(** Every duration awaited, pacing or cooldown. *)
Definition waits : list Event -> list Z :=
  collect (fun e => match e with EvDelay _ ms => Some ms | _ => None end).

Definition total (l : list Z) : Z := fold_right Z.add 0 l.

End Shapes.

Import Shapes.

(* ================================================================== *)
(** * Properties *)

(* ------------------------------------------------------------------ *)
(** ** Rounding to a double *)

Section Rounding.

Import Number.

Local Open Scope Q_scope.

Lemma pow2_pos e : 0 < pow2 e.
Proof. apply Qpower_0_lt. reflexivity. Qed.

Lemma pow2_add a b : pow2 (a + b) == pow2 a * pow2 b.
Proof. apply Qpower_plus. discriminate. Qed.

Lemma pow2_le a b : (a <= b)%Z -> pow2 a <= pow2 b.
Proof. intros H. apply Qpower_le_compat_l; [exact H|discriminate]. Qed.

Lemma pow2_lt a b : (a < b)%Z -> pow2 a < pow2 b.
Proof. intros H. apply Qpower_lt_compat_l; [exact H|reflexivity]. Qed.

Lemma pow2_lt_inv a b : pow2 a < pow2 b -> (a < b)%Z.
Proof. intros H. apply (Qpower_lt_compat_l_inv 2); [exact H|reflexivity]. Qed.

Lemma pow2_Z n : (0 <= n)%Z -> pow2 n == inject_Z (2 ^ n).
Proof. intros H. unfold pow2. now rewrite Zpower_Qpower. Qed.

Lemma pow2_succ e : pow2 (e + 1) == 2 * pow2 e.
Proof. rewrite pow2_add. unfold pow2 at 2. rewrite Qpower_1_r. ring. Qed.

(** Bracketing of a positive fraction between powers of two. *)
Lemma log2_bracket (p : Z) (q : positive) :
  (0 < p)%Z ->
  let d := (Z.log2 p - Z.log2 (Zpos q))%Z in
  pow2 (d - 1) < p # q /\ p # q < pow2 (d + 1).
Proof.
  intros Hp d.
  destruct (Z.log2_spec p Hp) as [Hp1 Hp2].
  destruct (Z.log2_spec (Zpos q) ltac:(lia)) as [Hq1 Hq2].
  pose proof (Z.log2_nonneg p) as Hlp. pose proof (Z.log2_nonneg (Zpos q)) as Hlq.
  assert (Ep : inject_Z p == (p # q) * inject_Z (Zpos q)).
  { unfold Qeq, Qmult, inject_Z; simpl. rewrite Pos.mul_1_r. lia. }
  assert (Hqpos : 0 < inject_Z (Zpos q)) by (unfold Qlt; simpl; lia).
  assert (Ap1 : pow2 (Z.log2 p) <= inject_Z p)
    by (rewrite pow2_Z by lia; rewrite <- Zle_Qle; lia).
  assert (Ap2 : inject_Z p < pow2 (Z.log2 p + 1)).
  { rewrite pow2_Z by lia. rewrite <- Zlt_Qlt. rewrite <- Z.add_1_r in Hp2. lia. }
  assert (Aq1 : pow2 (Z.log2 (Zpos q)) <= inject_Z (Zpos q))
    by (rewrite pow2_Z by lia; rewrite <- Zle_Qle; lia).
  assert (Aq2 : inject_Z (Zpos q) < pow2 (Z.log2 (Zpos q) + 1)).
  { rewrite pow2_Z by lia. rewrite <- Zlt_Qlt. rewrite <- Z.add_1_r in Hq2. lia. }
  split.
  - apply (Qmult_lt_r _ _ (inject_Z (Zpos q)) Hqpos). rewrite <- Ep.
    apply Qlt_le_trans with (pow2 (Z.log2 p)); [|exact Ap1].
    replace (Z.log2 p) with ((d - 1) + (Z.log2 (Zpos q) + 1))%Z by (unfold d; lia).
    rewrite pow2_add. apply Qmult_lt_l; [apply pow2_pos|exact Aq2].
  - apply (Qmult_lt_r _ _ (inject_Z (Zpos q)) Hqpos). rewrite <- Ep.
    apply Qlt_le_trans with (pow2 (Z.log2 p + 1)); [exact Ap2|].
    replace (Z.log2 p + 1)%Z with ((d + 1) + Z.log2 (Zpos q))%Z by (unfold d; lia).
    rewrite pow2_add. apply Qmult_le_l; [apply pow2_pos|exact Aq1].
Qed.

Lemma Qabs_fraction (x : Q) : Qabs x = (Z.abs (Qnum x) # Qden x).
Proof. destruct x as [p q]. reflexivity. Qed.

Lemma exponentOf_spec (x : Q) :
  ~ x == 0 -> pow2 (exponentOf x) <= Qabs x /\ Qabs x < pow2 (exponentOf x + 1).
Proof.
  intros Hx.
  assert (Hp : (0 < Z.abs (Qnum x))%Z).
  { destruct x as [p q]. unfold Qeq in Hx. simpl in *. lia. }
  pose proof (log2_bracket (Z.abs (Qnum x)) (Qden x) Hp) as [H1 H2].
  cbv zeta in H1, H2. rewrite <- Qabs_fraction in H1, H2.
  unfold exponentOf.
  set (d := (Z.log2 (Z.abs (Qnum x)) - Z.log2 (Zpos (Qden x)))%Z) in *.
  destruct (Qle_bool (pow2 d) (Qabs x)) eqn:E.
  - apply Qle_bool_iff in E. split; assumption.
  - split; [apply Qlt_le_weak; exact H1|].
    replace (d - 1 + 1)%Z with d by lia.
    apply Qnot_le_lt. intros H. apply Qle_bool_iff in H. congruence.
Qed.

Lemma exponentOf_unique (x : Q) (e : Z) :
  pow2 e <= Qabs x -> Qabs x < pow2 (e + 1) -> exponentOf x = e.
Proof.
  intros H1 H2.
  assert (Hx : ~ x == 0).
  { intros E. rewrite E in H1. pose proof (pow2_pos e). simpl in H1. lra. }
  destruct (exponentOf_spec x Hx) as [H3 H4].
  assert (exponentOf x < e + 1)%Z
    by (apply pow2_lt_inv; eapply Qle_lt_trans; eassumption).
  assert (e < exponentOf x + 1)%Z
    by (apply pow2_lt_inv; eapply Qle_lt_trans; eassumption).
  lia.
Qed.

(** *** Rounding to the nearest integer, ties to even *)

Lemma roundHalfEven_near (y : Q) :
  y - (1 # 2) <= inject_Z (roundHalfEven y)
  /\ inject_Z (roundHalfEven y) <= y + (1 # 2).
Proof.
  unfold roundHalfEven.
  pose proof (Qfloor_le y) as H1. pose proof (Qlt_floor y) as H2.
  rewrite inject_Z_plus in H2. change (inject_Z 1) with 1 in H2.
  destruct (Qcompare_spec (y - inject_Z (Qfloor y)) (1 # 2)) as [E|E|E].
  - destruct (Z.even (Qfloor y)); rewrite ?inject_Z_plus;
      change (inject_Z 1) with 1; split; lra.
  - split; lra.
  - rewrite inject_Z_plus. change (inject_Z 1) with 1. split; lra.
Qed.

Lemma roundHalfEven_Z (n : Z) : roundHalfEven (inject_Z n) = n.
Proof.
  unfold roundHalfEven. rewrite Qfloor_Z.
  destruct (Qcompare_spec (inject_Z n - inject_Z n) (1 # 2)) as [E|E|E];
    [lra|reflexivity|lra].
Qed.

Lemma roundHalfEven_mono (y z : Q) :
  y <= z -> (roundHalfEven y <= roundHalfEven z)%Z.
Proof.
  intros H. pose proof (Qfloor_resp_le _ _ H) as Hf.
  destruct (Z.eq_dec (Qfloor y) (Qfloor z)) as [E|Hne].
  - unfold roundHalfEven. rewrite <- E.
    destruct (Qcompare_spec (y - inject_Z (Qfloor y)) (1 # 2)) as [Ey|Ey|Ey];
      destruct (Qcompare_spec (z - inject_Z (Qfloor y)) (1 # 2)) as [Ez|Ez|Ez];
      try destruct (Z.even (Qfloor y)); try lia; lra.
  - assert (Hy : (roundHalfEven y <= Qfloor y + 1)%Z).
    { unfold roundHalfEven.
      destruct (Qcompare (y - inject_Z (Qfloor y)) (1 # 2));
        try destruct (Z.even (Qfloor y)); lia. }
    assert (Hz : (Qfloor z <= roundHalfEven z)%Z).
    { unfold roundHalfEven.
      destruct (Qcompare (z - inject_Z (Qfloor z)) (1 # 2));
        try destruct (Z.even (Qfloor z)); lia. }
    lia.
Qed.

Lemma roundHalfEven_comp (y z : Q) : y == z -> roundHalfEven y = roundHalfEven z.
Proof.
  intros E. apply Z.le_antisymm; apply roundHalfEven_mono; rewrite E; apply Qle_refl.
Qed.

(** *** Rounding to a double *)

Lemma round_zero (x : Q) : x == 0 -> round x == 0.
Proof.
  intros E. unfold round. set (u := pow2 (ulpExponent x)). clearbody u.
  rewrite (roundHalfEven_comp _ (inject_Z 0)).
  - rewrite roundHalfEven_Z. ring.
  - rewrite E. unfold Qdiv. ring.
Qed.

Lemma ulp_scaling (x : Q) :
  x == (x / pow2 (ulpExponent x)) * pow2 (ulpExponent x).
Proof. field. pose proof (pow2_pos (ulpExponent x)). lra. Qed.

(** The result is within half a unit in the last place of the argument. *)
Lemma round_near (x : Q) :
  x - (1 # 2) * pow2 (ulpExponent x) <= round x
  /\ round x <= x + (1 # 2) * pow2 (ulpExponent x).
Proof.
  pose proof (ulp_scaling x) as E.
  pose proof (pow2_pos (ulpExponent x)) as Hu.
  destruct (roundHalfEven_near (x / pow2 (ulpExponent x))) as [H1 H2].
  unfold round.
  set (u := pow2 (ulpExponent x)) in *. set (y := x / u) in *.
  set (m := inject_Z (roundHalfEven y)) in *.
  clearbody m y u.
  split.
  - apply Qle_trans with ((y - (1 # 2)) * u); [rewrite E at 1; lra|].
    apply Qmult_le_compat_r; lra.
  - apply Qle_trans with ((y + (1 # 2)) * u); [|rewrite E; lra].
    apply Qmult_le_compat_r; lra.
Qed.

(** A multiple of the unit in the last place that bounds the argument
    bounds the result. *)
Lemma round_le_multiple (x : Q) (m : Z) :
  x <= inject_Z m * pow2 (ulpExponent x) ->
  round x <= inject_Z m * pow2 (ulpExponent x).
Proof.
  intros H. pose proof (pow2_pos (ulpExponent x)) as Hu. unfold round.
  apply Qmult_le_compat_r; [|lra].
  rewrite <- Zle_Qle. rewrite <- (roundHalfEven_Z m).
  apply roundHalfEven_mono. apply Qle_shift_div_r; assumption.
Qed.

Lemma round_ge_multiple (x : Q) (m : Z) :
  inject_Z m * pow2 (ulpExponent x) <= x ->
  inject_Z m * pow2 (ulpExponent x) <= round x.
Proof.
  intros H. pose proof (pow2_pos (ulpExponent x)) as Hu. unfold round.
  apply Qmult_le_compat_r; [|lra].
  rewrite <- Zle_Qle. rewrite <- (roundHalfEven_Z m) at 1.
  apply roundHalfEven_mono. apply Qle_shift_div_l; assumption.
Qed.

Lemma round_nonneg (x : Q) : 0 <= x -> 0 <= round x.
Proof.
  intros H. pose proof (round_ge_multiple x 0) as H0.
  assert (E : inject_Z 0 * pow2 (ulpExponent x) == 0) by ring.
  rewrite E in H0. auto.
Qed.

Lemma exponentOf_positive (x : Q) :
  0 < x -> pow2 (exponentOf x) <= x /\ x < pow2 (exponentOf x + 1).
Proof.
  intros H. assert (Hne : ~ x == 0) by lra.
  destruct (exponentOf_spec x Hne) as [H1 H2].
  rewrite Qabs_pos in H1, H2 by lra. split; assumption.
Qed.

(** Rounding does not change the order of numbers that are not negative. *)
Lemma round_mono (x y : Q) : 0 <= x -> x <= y -> round x <= round y.
Proof.
  intros Hx Hxy.
  destruct (Qlt_le_dec 0 x) as [Hpos|Hzero].
  2:{ rewrite (round_zero x) by lra. apply round_nonneg. lra. }
  destruct (exponentOf_positive x Hpos) as [Hx1 Hx2].
  destruct (exponentOf_positive y ltac:(lra)) as [Hy1 Hy2].
  assert (He : (exponentOf x <= exponentOf y)%Z).
  { assert (exponentOf x < exponentOf y + 1)%Z; [|lia].
    apply pow2_lt_inv. lra. }
  destruct (Z.eq_dec (ulpExponent x) (ulpExponent y)) as [E|Hne].
  - unfold round. rewrite <- E.
    pose proof (pow2_pos (ulpExponent x)) as Hu.
    apply Qmult_le_compat_r; [|lra].
    rewrite <- Zle_Qle. apply roundHalfEven_mono.
    apply Qmult_le_compat_r; [exact Hxy|].
    apply Qlt_le_weak, Qinv_lt_0_compat, Hu.
  - assert (Hlt : (exponentOf x < exponentOf y)%Z)
      by (unfold ulpExponent in Hne; lia).
    assert (Ey : ulpExponent y = (exponentOf y - 52)%Z)
      by (unfold ulpExponent in *; lia).
    assert (Hgap : (0 <= exponentOf y - ulpExponent x)%Z)
      by (unfold ulpExponent in *; lia).
    apply Qle_trans with (pow2 (exponentOf y)).
    + assert (E : pow2 (exponentOf y)
                  == inject_Z (2 ^ (exponentOf y - ulpExponent x))
                     * pow2 (ulpExponent x)).
      { rewrite <- pow2_Z by exact Hgap. rewrite <- pow2_add.
        replace (exponentOf y - ulpExponent x + ulpExponent x)%Z
          with (exponentOf y) by lia.
        reflexivity. }
      rewrite E. apply round_le_multiple. rewrite <- E.
      apply Qle_trans with (pow2 (exponentOf x + 1)); [lra|].
      apply pow2_le. lia.
    + assert (E : pow2 (exponentOf y)
                  == inject_Z (2 ^ 52) * pow2 (ulpExponent y)).
      { rewrite <- pow2_Z by lia. rewrite <- pow2_add, Ey.
        replace (52 + (exponentOf y - 52))%Z with (exponentOf y) by lia.
        reflexivity. }
      rewrite E. apply round_ge_multiple. rewrite <- E. exact Hy1.
Qed.

(** A double of [0,1) is at most [maxDraw]. *)
Lemma below_one (x : Q) : round x == x -> 0 <= x -> x < 1 -> x <= maxDraw.
Proof.
  intros Hd H0 H1.
  assert (Ec : pow2 (-53) == 1 # 9007199254740992) by reflexivity.
  unfold maxDraw. rewrite Ec.
  destruct (Qlt_le_dec x (1 # 2)) as [Hlow|Hhigh]; [lra|].
  assert (Ee : exponentOf x = (-1)%Z).
  { apply exponentOf_unique; rewrite Qabs_pos by lra.
    - assert (E : pow2 (-1) == 1 # 2) by reflexivity. rewrite E. exact Hhigh.
    - assert (E : pow2 (-1 + 1) == 1) by reflexivity. rewrite E. exact H1. }
  unfold round, ulpExponent in Hd. rewrite Ee in Hd.
  change (Z.max (-1 - 52) (-1074)) with (-53)%Z in Hd.
  set (m := roundHalfEven (x / pow2 (-53))) in Hd.
  rewrite Ec in Hd.
  assert (Hm : (m < 2 ^ 53)%Z).
  { rewrite Zlt_Qlt. change (inject_Z (2 ^ 53)) with 9007199254740992.
    clearbody m. lra. }
  assert (Hm' : inject_Z m <= 9007199254740991).
  { change 9007199254740991 with (inject_Z (2 ^ 53 - 1)). rewrite <- Zle_Qle. lia. }
  clearbody m. lra.
Qed.

(** The product of a draw and an integer from 1, rounded, stays below
    the integer, and within the integer times 2^-53 of the exact
    product. *)
Lemma mul_near (r : Q) (n : Z) :
  0 <= r -> r <= maxDraw -> (1 <= n)%Z ->
  r * inject_Z n - inject_Z n * pow2 (-53) < mul r (inject_Z n)
  /\ mul r (inject_Z n) < r * inject_Z n + inject_Z n * pow2 (-53)
  /\ 0 <= mul r (inject_Z n)
  /\ mul r (inject_Z n) < inject_Z n.
Proof.
  intros H0 H1 Hn. unfold mul. unfold maxDraw in H1.
  assert (Ec : pow2 (-53) == 1 # 9007199254740992) by reflexivity.
  assert (Hc : 0 < pow2 (-53)) by apply pow2_pos.
  assert (Hn' : 1 <= inject_Z n) by (change 1 with (inject_Z 1); now rewrite <- Zle_Qle).
  set (x := r * inject_Z n).
  assert (Hx0 : 0 <= x) by (unfold x; nra).
  assert (Hx1 : x <= inject_Z n - inject_Z n * pow2 (-53)) by (unfold x; nra).
  assert (Hhalf : 0 < x -> (1 # 2) * pow2 (ulpExponent x) < inject_Z n * pow2 (-53)).
  { intros Hpos. destruct (exponentOf_positive x Hpos) as [He _].
    unfold ulpExponent.
    destruct (Z.max_spec (exponentOf x - 52) (-1074)) as [[_ ->]|[_ ->]].
    - assert (E : (1 # 2) * pow2 (-1074) == pow2 (-1022) * pow2 (-53))
        by reflexivity.
      rewrite E.
      assert (pow2 (-1022) < 1) by reflexivity.
      nra.
    - assert (E : (1 # 2) * pow2 (exponentOf x - 52)
                  == pow2 (exponentOf x) * pow2 (-53)).
      { replace (exponentOf x - 52)%Z with (exponentOf x + (-52))%Z by lia.
        rewrite pow2_add.
        assert (E52 : pow2 (-52) == 2 * pow2 (-53)) by reflexivity.
        rewrite E52. ring. }
      rewrite E. nra. }
  destruct (Qlt_le_dec 0 x) as [Hpos|Hzero].
  - destruct (round_near x) as [Hlo Hhi]. specialize (Hhalf Hpos).
    pose proof (round_nonneg x Hx0).
    repeat split; lra.
  - pose proof (round_zero x ltac:(lra)) as E0. rewrite E0.
    repeat split; nra.
Qed.

(** The error of one rounding of a number below 2^k. *)
Lemma round_near_below (x : Q) (k : Z) :
  Qabs x < pow2 k -> (-1021 <= k)%Z ->
  x - pow2 (k - 54) <= round x /\ round x <= x + pow2 (k - 54).
Proof.
  intros Hx Hk. pose proof (pow2_pos (k - 54)) as Hpos.
  destruct (Qeq_dec x 0) as [E0|Hne].
  - rewrite (round_zero x E0). rewrite E0. split; lra.
  - destruct (exponentOf_spec x Hne) as [He _].
    assert (Hlt : (exponentOf x < k)%Z) by (apply pow2_lt_inv; lra).
    assert (Hj : (ulpExponent x <= k - 53)%Z) by (unfold ulpExponent; lia).
    apply pow2_le in Hj.
    assert (E : pow2 (k - 53) == 2 * pow2 (k - 54)).
    { replace (k - 53)%Z with (k - 54 + 1)%Z by lia. apply pow2_succ. }
    destruct (round_near x) as [Hlo Hhi]. split; lra.
Qed.

(** An integer below 2^53 in absolute value is a double. *)
Lemma round_integer (m : Z) :
  (Z.abs m < 2 ^ 53)%Z -> round (inject_Z m) == inject_Z m.
Proof.
  intros Hm.
  destruct (Z.eq_dec m 0) as [->|Hne]; [apply round_zero; reflexivity|].
  assert (Hx : ~ inject_Z m == 0).
  { intros E. apply Hne. apply (proj1 (inject_Z_injective m 0)). exact E. }
  assert (Habs : Qabs (inject_Z m) == inject_Z (Z.abs m)).
  { unfold inject_Z, Qabs. reflexivity. }
  destruct (exponentOf_spec (inject_Z m) Hx) as [He _].
  assert (Hlt : (exponentOf (inject_Z m) < 53)%Z).
  { apply pow2_lt_inv. eapply Qle_lt_trans; [exact He|].
    rewrite Habs, pow2_Z by lia. rewrite <- Zlt_Qlt. exact Hm. }
  set (j := ulpExponent (inject_Z m)).
  assert (Hj : (j <= 0)%Z) by (unfold j, ulpExponent; lia).
  assert (E : inject_Z m == inject_Z (m * 2 ^ (- j)) * pow2 j).
  { rewrite inject_Z_mult, <- pow2_Z by lia.
    rewrite <- Qmult_assoc, <- pow2_add.
    replace (- j + j)%Z with 0%Z by lia.
    change (pow2 0) with 1. ring. }
  apply Qle_antisym.
  - rewrite E at 2. apply round_le_multiple. fold j. rewrite <- E. apply Qle_refl.
  - rewrite E at 1. apply round_ge_multiple. fold j. rewrite <- E. apply Qle_refl.
Qed.

Lemma ceil_unique (x : Q) (c : Z) :
  inject_Z c - 1 < x -> x <= inject_Z c -> Qceiling x = c.
Proof.
  intros H1 H2.
  pose proof (Qle_ceiling x) as Hle. pose proof (Qceiling_lt x) as Hlt.
  assert (Hlo : (c - 1 < Qceiling x)%Z).
  { rewrite Zlt_Qlt. unfold Z.sub. rewrite inject_Z_plus.
    change (inject_Z (- (1))) with (- (1)). lra. }
  assert (Hhi : (Qceiling x - 1 < c)%Z).
  { rewrite Zlt_Qlt. unfold Z.sub in *. rewrite inject_Z_plus in *.
    change (inject_Z (- (1))) with (- (1)) in *. lra. }
  lia.
Qed.

(** The quotient of two integers below 2^53 is a double that has the
    ceiling of the exact quotient: [Math.ceil(count / batchSize)] is the
    ceiling of the fraction. *)
Lemma ceil_rounded_quotient (n b : Z) :
  (0 <= n < 2 ^ 53)%Z -> (1 <= b < 2 ^ 53)%Z ->
  Qceiling (round (inject_Z n / inject_Z b)) = Qceiling (inject_Z n / inject_Z b).
Proof.
  intros Hn Hb.
  assert (Hb' : 1 <= inject_Z b)
    by (change 1 with (inject_Z 1); rewrite <- Zle_Qle; lia).
  set (x := inject_Z n / inject_Z b).
  assert (Ex : x * inject_Z b == inject_Z n) by (unfold x; field; lra).
  destruct (Z.eq_dec n 0) as [->|Hne].
  { assert (E0 : x == 0) by (unfold x; field; lra).
    rewrite (round_zero x E0), E0. reflexivity. }
  assert (Hn1 : 1 <= inject_Z n)
    by (change 1 with (inject_Z 1); rewrite <- Zle_Qle; lia).
  assert (Hn2 : inject_Z n < 9007199254740992).
  { change 9007199254740992 with (inject_Z (2 ^ 53)). rewrite <- Zlt_Qlt. lia. }
  assert (Hxpos : 0 < x).
  { apply Qlt_shift_div_l; lra. }
  set (c := Qceiling x).
  pose proof (Qle_ceiling x) as Hc1. pose proof (Qceiling_lt x) as Hc2.
  fold c in Hc1, Hc2.
  unfold Z.sub in Hc2. rewrite inject_Z_plus in Hc2.
  change (inject_Z (- (1))) with (- (1)) in Hc2.
  assert (Hcpos : (1 <= c)%Z).
  { assert (0 < c)%Z; [|lia]. rewrite Zlt_Qlt. change (inject_Z 0) with 0. lra. }
  (* the exact quotient is at least 1/b above c - 1 *)
  assert (Hgap : ((c - 1) * b + 1 <= n)%Z).
  { assert ((c - 1) * b < n)%Z; [|lia].
    rewrite Zlt_Qlt, inject_Z_mult. unfold Z.sub. rewrite inject_Z_plus.
    change (inject_Z (- (1))) with (- (1)). rewrite <- Ex. nra. }
  assert (Hgap' : (inject_Z c - 1) * inject_Z b + 1 <= x * inject_Z b).
  { rewrite Ex. rewrite Zle_Qle in Hgap.
    rewrite inject_Z_plus, inject_Z_mult in Hgap. unfold Z.sub in Hgap.
    rewrite inject_Z_plus in Hgap.
    change (inject_Z (- (1))) with (- (1)) in Hgap.
    change (inject_Z 1) with 1 in Hgap. exact Hgap. }
  assert (Hcn : (c <= n)%Z).
  { assert (c - 1 < n)%Z; [|lia]. nia. }
  apply ceil_unique.
  - (* rounding takes less than 1/b away *)
    destruct (exponentOf_positive x Hxpos) as [He _].
    assert (Ec : pow2 (-53) == 1 # 9007199254740992) by reflexivity.
    assert (Hxlow : pow2 (-53) <= x).
    { rewrite Ec. apply Qle_shift_div_l; [lra|].
      assert (inject_Z b < 9007199254740992).
      { change 9007199254740992 with (inject_Z (2 ^ 53)). rewrite <- Zlt_Qlt. lia. }
      lra. }
    assert (Hexp : (-54 < exponentOf x)%Z).
    { assert (-53 < exponentOf x + 1)%Z; [|lia].
      apply pow2_lt_inv. destruct (exponentOf_positive x Hxpos) as [_ Hup]. lra. }
    assert (Ej : ulpExponent x = (exponentOf x - 52)%Z)
      by (unfold ulpExponent; lia).
    destruct (round_near x) as [Hlo _]. rewrite Ej in Hlo.
    assert (Ehalf : (1 # 2) * pow2 (exponentOf x - 52)
                    == pow2 (exponentOf x) * pow2 (-53)).
    { replace (exponentOf x - 52)%Z with (exponentOf x + (-52))%Z by lia.
      rewrite pow2_add.
      assert (E52 : pow2 (-52) == 2 * pow2 (-53)) by reflexivity.
      rewrite E52. ring. }
    rewrite Ehalf in Hlo.
    assert (Hsmall : pow2 (exponentOf x) * pow2 (-53) * inject_Z b < 1).
    { rewrite Ec.
      assert (pow2 (exponentOf x) * inject_Z b <= inject_Z n)
        by (rewrite <- Ex; apply Qmult_le_compat_r; lra).
      lra. }
    apply (Qmult_lt_r _ _ (inject_Z b)); [lra|]. nra.
  - rewrite <- (round_integer c) by lia. apply round_mono; lra.
Qed.

(** Rounding depends on the number, not on the fraction that stands for
    it. *)
Lemma round_comp (x y : Q) : x == y -> round x == round y.
Proof.
  intros E. destruct (Qeq_dec x 0) as [E0|Hne].
  - rewrite (round_zero x E0), (round_zero y); [reflexivity|].
    rewrite <- E. exact E0.
  - assert (Hy : ~ y == 0) by (rewrite <- E; exact Hne).
    destruct (exponentOf_spec y Hy) as [H1 H2].
    assert (He : exponentOf x = exponentOf y)
      by (apply exponentOf_unique; rewrite E; assumption).
    unfold round, ulpExponent. rewrite He.
    set (u := pow2 _). clearbody u.
    rewrite (roundHalfEven_comp (x / u) (y / u)) by (rewrite E; reflexivity).
    reflexivity.
Qed.

(** The sum and the product of two integers, as the source computes
    them, are the exact ones when the result is below 2^53 in absolute
    value. *)
Lemma add_integers (a b : Z) :
  (Z.abs (a + b) < 2 ^ 53)%Z ->
  add (inject_Z a) (inject_Z b) == inject_Z (a + b).
Proof.
  intros H. unfold add.
  rewrite (round_comp _ (inject_Z (a + b))) by (rewrite inject_Z_plus; reflexivity).
  apply round_integer. exact H.
Qed.

Lemma mul_integers (a b : Z) :
  (Z.abs (a * b) < 2 ^ 53)%Z ->
  mul (inject_Z a) (inject_Z b) == inject_Z (a * b).
Proof.
  intros H. unfold mul.
  rewrite (round_comp _ (inject_Z (a * b))) by (rewrite inject_Z_mult; reflexivity).
  apply round_integer. exact H.
Qed.

End Rounding.

(* ------------------------------------------------------------------ *)
(** ** Arithmetic of draws, floors and ceilings *)

(** A draw is at most the largest double below 1. *)
Lemma draw_range (d : Draw) : (0 <= value d)%Q /\ (value d <= Number.maxDraw)%Q.
Proof.
  destruct (value_range d) as [H0 H1]. split; [exact H0|].
  apply below_one; [apply value_double|exact H0|exact H1].
Qed.

Lemma floor_between (x lo hi : Q) :
  (lo <= x)%Q -> (x <= hi)%Q -> Math_floor lo <= Math_floor x <= Math_floor hi.
Proof. intros H1 H2. split; apply Qfloor_resp_le; assumption. Qed.

Lemma floor_bounds (x : Q) :
  (inject_Z (Math_floor x) <= x)%Q /\ (x < inject_Z (Math_floor x) + 1)%Q.
Proof.
  split; [apply Qfloor_le|].
  pose proof (Qlt_floor x) as H. rewrite inject_Z_plus in H. exact H.
Qed.

Lemma floor_unique (x : Q) (j : Z) :
  (inject_Z j <= x)%Q -> (x < inject_Z j + 1)%Q -> Math_floor x = j.
Proof.
  intros H1 H2. unfold Math_floor.
  pose proof (Qfloor_resp_le _ _ H1) as Hlo. rewrite Qfloor_Z in Hlo.
  assert (Hhi : Qfloor x < j + 1).
  { rewrite Zlt_Qlt, inject_Z_plus. eapply Qle_lt_trans; [apply Qfloor_le|].
    exact H2. }
  lia.
Qed.

Lemma floor_below (x : Q) (n : Z) :
  (0 <= x)%Q -> (x < inject_Z n)%Q -> 0 <= Math_floor x < n.
Proof.
  intros H0 H1. unfold Math_floor. split.
  - change 0 with (Qfloor 0). apply Qfloor_resp_le. exact H0.
  - rewrite Zlt_Qlt. eapply Qle_lt_trans; [apply Qfloor_le|exact H1].
Qed.

Lemma ceil_quotient (a b : Z) :
  Math_ceil (inject_Z a / inject_Z b) = - ((- a) / b).
Proof.
  unfold Math_ceil, Qceiling. f_equal.
  rewrite Zdiv_Qdiv. apply Qfloor_comp.
  rewrite inject_Z_opp. unfold Qdiv. ring.
Qed.

Lemma ceil_quotient_pos (a b : Z) :
  0 < b ->
  (Math_ceil (inject_Z a / inject_Z b) - 1) * b < a
  /\ a <= Math_ceil (inject_Z a / inject_Z b) * b.
Proof.
  intros Hb. rewrite ceil_quotient.
  pose proof (Z.div_mod (- a) b ltac:(lia)).
  pose proof (Z.mod_pos_bound (- a) b Hb).
  nia.
Qed.

(** [Math.ceil(count / settings.batchSize)], whose quotient is a double,
    is the ceiling of the exact quotient, which [totalBatchesOf] takes. *)
Lemma totalBatches_rounded (count : Z) (settings : GroupCreator.Settings) :
  0 <= count < 2 ^ 53 ->
  1 <= GroupCreator.s_batchSize settings < 2 ^ 53 ->
  Math_ceil (Number.div (inject_Z count)
               (inject_Z (GroupCreator.s_batchSize settings)))
  = GroupCreator.totalBatchesOf count settings.
Proof. intros Hn Hb. apply ceil_rounded_quotient; assumption. Qed.

Lemma message_totalBatches_rounded (recipients : list jsstring) :
  len recipients < 2 ^ 53 ->
  Math_ceil (Number.div (inject_Z (len recipients))
               (inject_Z MessageSender.ANTI_BAN.BATCH_SIZE))
  = MessageSender.totalBatchesOf recipients.
Proof.
  intros H. apply ceil_rounded_quotient; [unfold len in *; lia|].
  unfold MessageSender.ANTI_BAN.BATCH_SIZE. lia.
Qed.

(** A safe integer is a double. *)
Lemma safeInteger_double (n : Z) :
  safeInteger n -> (Number.round (inject_Z n) == inject_Z n)%Q.
Proof. intros H. apply round_integer. unfold safeInteger in H. lia. Qed.

Lemma range_length from n : length (range from n) = n.
Proof. unfold range. now rewrite length_map, length_seq. Qed.

Lemma range_snoc from n :
  range from (S n) = range from n ++ [from + Z.of_nat n].
Proof. unfold range. rewrite seq_S, map_app. reflexivity. Qed.



Lemma collect_app {B} (f : Event -> option B) a b :
  collect f (a ++ b) = collect f a ++ collect f b.
Proof.
  induction a as [|e a IH]; simpl; [reflexivity|].
  destruct (f e); simpl; now rewrite IH.
Qed.

(* ------------------------------------------------------------------ *)
(** ** Strings *)

Lemma startsWith_length p s : startsWith p s = true -> (length p <= length s)%nat.
Proof.
  revert s; induction p as [|x p IH]; intros [|y s]; simpl; try lia; try discriminate.
  intros H. apply andb_prop in H as [_ H]. apply IH in H. lia.
Qed.

Lemma replace_length pat rep s :
  length pat = length rep -> length (replace pat rep s) = length s.
Proof.
  intros Hlen. induction s as [|c s IH].
  - simpl. destruct (startsWith pat []) eqn:E; [|reflexivity].
    apply startsWith_length in E. simpl in E.
    rewrite length_app, length_skipn. simpl. lia.
  - cbn [replace]. destruct (startsWith pat (c :: s)) eqn:E.
    + apply startsWith_length in E.
      rewrite length_app, length_skipn. lia.
    + simpl. now rewrite IH.
Qed.

Lemma slice_index_zero {A} (s : list A) : slice_index s 0 = 0%nat.
Proof. unfold slice_index. simpl. lia. Qed.

Lemma slice_index_inside {A} (s : list A) (i : Z) :
  0 <= i <= len s -> slice_index s i = Z.to_nat i.
Proof.
  intros H. unfold slice_index, len in *.
  destruct (Z.ltb_spec i 0); [lia|]. f_equal. lia.
Qed.

Lemma slice_prefix {A} (s : list A) (position : Z) :
  slice s 0 position = firstn (slice_index s position) s.
Proof.
  unfold slice. rewrite slice_index_zero. simpl. now rewrite Nat.sub_0_r.
Qed.

(** The three-part concatenation of [addMessageVariation] is an insertion. *)
Lemma insertion_shape (s mark : jsstring) (position : Z) :
  slice s 0 position ++ mark ++ slice_from s position
  = firstn (slice_index s position) s ++ mark ++ skipn (slice_index s position) s.
Proof.
  unfold slice, slice_from. rewrite slice_index_zero. simpl.
  now rewrite Nat.sub_0_r.
Qed.

Lemma insertion_length (s mark : jsstring) (position : Z) :
  length (slice s 0 position ++ mark ++ slice_from s position)
  = (length s + length mark)%nat.
Proof.
  rewrite insertion_shape, !length_app.
  pose proof (firstn_skipn (slice_index s position) s) as E.
  apply (f_equal (@length Z)) in E. rewrite length_app in E. lia.
Qed.

Lemma slice_parts_length (s : jsstring) (position : Z) :
  (length (slice s 0 position) + length (slice_from s position))%nat = length s.
Proof.
  pose proof (insertion_length s [] position) as H.
  rewrite !length_app in H. simpl in H. lia.
Qed.

Lemma nonempty_length {A} (l : list A) : l <> [] <-> (0 < length l)%nat.
Proof. destruct l; simpl; split; intros; try lia; congruence. Qed.

(** *** Decimal rendering *)

Lemma digits_length_lower fuel n acc :
  (length acc < length (digits (S fuel) n acc))%nat.
Proof.
  revert n acc. induction fuel as [|fuel IH]; intros n acc.
  - simpl. destruct (n <? 10); simpl; lia.
  - cbn [digits]. destruct (n <? 10); [simpl; lia|].
    specialize (IH (n / 10) ((48 + n mod 10) :: acc)). cbn [digits] in IH.
    simpl length in IH at 1. lia.
Qed.

Lemma digits_length_mono fuel1 : forall fuel2 n m acc1 acc2,
  0 <= n <= m ->
  n < 2 ^ Z.of_nat fuel1 -> m < 2 ^ Z.of_nat fuel2 ->
  (1 <= fuel1)%nat -> (1 <= fuel2)%nat ->
  (length acc1 <= length acc2)%nat ->
  (length (digits fuel1 n acc1) <= length (digits fuel2 m acc2))%nat.
Proof.
  induction fuel1 as [|fuel1 IH]; intros fuel2 n m acc1 acc2 Hnm Hn Hm H1 H2 Hacc;
    [lia|].
  destruct fuel2 as [|fuel2]; [lia|].
  cbn [digits].
  destruct (Z.ltb_spec n 10) as [Hn10|Hn10].
  - destruct (Z.ltb_spec m 10) as [Hm10|Hm10]; [simpl; lia|].
    destruct fuel2 as [|fuel2].
    + simpl in Hm. lia.
    + pose proof (digits_length_lower fuel2 (m / 10) ((48 + m mod 10) :: acc2)).
      simpl length in *. lia.
  - destruct (Z.ltb_spec m 10) as [Hm10|Hm10]; [lia|].
    assert (Hf1 : (1 <= fuel1)%nat).
    { destruct fuel1; [simpl in Hn; lia | lia]. }
    assert (Hf2 : (1 <= fuel2)%nat).
    { destruct fuel2; [simpl in Hm; lia | lia]. }
    apply IH; try assumption.
    + split; [apply Z.div_pos; lia | apply Z.div_le_mono; lia].
    + rewrite Nat2Z.inj_succ, Z.pow_succ_r in Hn by lia.
      apply Z.div_lt_upper_bound; lia.
    + rewrite Nat2Z.inj_succ, Z.pow_succ_r in Hm by lia.
      apply Z.div_lt_upper_bound; lia.
    + simpl. lia.
Qed.

Lemma toString_fuel n : 0 <= n -> n < 2 ^ Z.of_nat (S (Z.to_nat (Z.log2 n))).
Proof.
  intros Hn. rewrite Nat2Z.inj_succ, Z2Nat.id by apply Z.log2_nonneg.
  destruct (Z.eq_dec n 0) as [->|Hne]; [reflexivity|].
  apply Z.log2_spec. lia.
Qed.

(** The number of digits does not decrease with the number. *)
Lemma toString_length_mono n m :
  0 <= n <= m -> (length (toString n) <= length (toString m))%nat.
Proof.
  intros H. unfold toString.
  destruct (Z.ltb_spec n 0); [lia|]. destruct (Z.ltb_spec m 0); [lia|].
  apply digits_length_mono; try lia; apply toString_fuel; lia.
Qed.

Lemma padStart0_length s width :
  len s <= width -> len (padStart0 s width) = width.
Proof.
  intros H. unfold padStart0, len in *. rewrite length_app, repeat_length. lia.
Qed.


(* ------------------------------------------------------------------ *)
(** ** The pure parts of pacing and variation *)

Lemma variationIndex_bound (d : Draw) :
  0 <= MessageSender.variationIndex (value d) < 10.
Proof.
  destruct (draw_range d) as [H0 H1].
  destruct (mul_near (value d) 10 H0 H1 ltac:(lia)) as (_ & _ & Hlo & Hhi).
  apply floor_below; assumption.
Qed.

Lemma invisiblePosition_bound (d : Draw) (s : jsstring) :
  s <> [] -> 0 <= MessageSender.invisiblePosition (value d) s < len s.
Proof.
  intros H. apply nonempty_length in H.
  destruct (draw_range d) as [H0 H1].
  destruct (mul_near (value d) (len s) H0 H1 ltac:(unfold len; lia))
    as (_ & _ & Hlo & Hhi).
  apply floor_below; assumption.
Qed.

(** The two roundings of [randomOffset] move the exact result by less
    than 2^-40. *)
Lemma randomOffset_near (d : Draw) :
  (inject_Z (MessageSender.randomOffset (value d))
   <= value d * 5000 + 1000 + Number.pow2 (-40))%Q
  /\ (value d * 5000 + 1000 - Number.pow2 (-40)
      < inject_Z (MessageSender.randomOffset (value d)) + 1)%Q.
Proof.
  destruct (draw_range d) as [H0 H1]. destruct (value_range d) as [_ H1'].
  unfold MessageSender.randomOffset.
  change (inject_Z (MessageSender.ANTI_BAN.MAX_RANDOM_DELAY
                    - MessageSender.ANTI_BAN.MIN_RANDOM_DELAY)) with 5000%Q.
  change (inject_Z MessageSender.ANTI_BAN.MIN_RANDOM_DELAY) with 1000%Q.
  destruct (mul_near (value d) 5000 H0 H1 ltac:(lia)) as (_ & _ & Hlo & Hhi).
  change (inject_Z 5000) with 5000%Q in *.
  assert (E41 : (Number.pow2 (13 - 54) == 1 # 2199023255552)%Q) by reflexivity.
  assert (E40 : (Number.pow2 (-40) == 1 # 1099511627776)%Q) by reflexivity.
  assert (E13 : (Number.pow2 13 == 8192)%Q) by reflexivity.
  destruct (round_near_below (value d * 5000) 13) as [A1 A2];
    [rewrite Qabs_pos, E13 by lra; lra|lia|].
  fold (Number.mul (value d) 5000) in A1, A2.
  set (y := Number.mul (value d) 5000) in *. clearbody y.
  destruct (round_near_below (y + 1000) 13) as [B1 B2];
    [rewrite Qabs_pos, E13 by lra; lra|lia|].
  fold (Number.add y 1000) in B1, B2.
  destruct (floor_bounds (Number.add y 1000)) as [F1 F2].
  rewrite E41 in *. rewrite E40. split; lra.
Qed.

Lemma randomOffset_range (d : Draw) :
  1000 <= MessageSender.randomOffset (value d) <= 5999.
Proof.
  destruct (draw_range d) as [H0 H1].
  unfold MessageSender.randomOffset.
  change (inject_Z (MessageSender.ANTI_BAN.MAX_RANDOM_DELAY
                    - MessageSender.ANTI_BAN.MIN_RANDOM_DELAY)) with 5000%Q.
  change (inject_Z MessageSender.ANTI_BAN.MIN_RANDOM_DELAY) with 1000%Q.
  assert (Hlo : (0 <= Number.mul (value d) 5000)%Q)
    by (apply round_nonneg; lra).
  assert (Hhi : (Number.mul (value d) 5000 <= Number.mul Number.maxDraw 5000)%Q)
    by (apply round_mono; lra).
  change 1000 with (Math_floor (Number.add 0 1000)) at 1.
  change 5999
    with (Math_floor (Number.add (Number.mul Number.maxDraw 5000) 1000)).
  apply floor_between; apply round_mono; lra.
Qed.

(** The products are those of the doubles. The draw 0.3 selects the
    variation of index 3 and gives the offset 2500, though the exact
    products of this double have the floors 2 and 2499; the draw 0.7
    puts the marker at the offset 7 of a message of ten units, though
    the exact product has the floor 6. *)
Lemma products_are_rounded :
  MessageSender.variationIndex (value Samples.drawThreeTenths) = 3
  /\ Qfloor (value Samples.drawThreeTenths * 10) = 2
  /\ MessageSender.randomOffset (value Samples.drawThreeTenths) = 2500
  /\ Qfloor (value Samples.drawThreeTenths * 5000 + 1000) = 2499
  /\ MessageSender.invisiblePosition (value Samples.drawSevenTenths)
       (str "0123456789") = 7
  /\ Qfloor (value Samples.drawSevenTenths * 10) = 6.
Proof. repeat split; vm_compute; reflexivity. Qed.

Lemma baseDelay_steps (count : Z) :
  (count <= 10 -> GroupCreator.baseDelay count = 3000)
  /\ (10 < count <= 20 -> GroupCreator.baseDelay count = 5000)
  /\ (20 < count <= 30 -> GroupCreator.baseDelay count = 8000)
  /\ (30 < count -> GroupCreator.baseDelay count = 12000).
Proof.
  unfold GroupCreator.baseDelay.
  destruct (Z.gtb_spec count 10), (Z.gtb_spec count 20), (Z.gtb_spec count 30);
    repeat split; intros; lia.
Qed.

Lemma baseDelay_mono (c1 c2 : Z) :
  c1 <= c2 -> GroupCreator.baseDelay c1 <= GroupCreator.baseDelay c2.
Proof.
  intros H. unfold GroupCreator.baseDelay.
  destruct (Z.gtb_spec c1 10), (Z.gtb_spec c1 20), (Z.gtb_spec c1 30),
    (Z.gtb_spec c2 10), (Z.gtb_spec c2 20), (Z.gtb_spec c2 30); lia.
Qed.

Lemma baseDelay_positive (count : Z) : 3000 <= GroupCreator.baseDelay count.
Proof.
  unfold GroupCreator.baseDelay.
  destruct (Z.gtb_spec count 10), (Z.gtb_spec count 20), (Z.gtb_spec count 30); lia.
Qed.

Lemma baseDelay_cases (count : Z) :
  GroupCreator.baseDelay count = 3000 \/ GroupCreator.baseDelay count = 5000
  \/ GroupCreator.baseDelay count = 8000 \/ GroupCreator.baseDelay count = 12000.
Proof.
  unfold GroupCreator.baseDelay.
  destruct (count >? 10), (count >? 20), (count >? 30); auto.
Qed.

(** The factor of [getRateLimit] is in [0.5, 1.5], both ends included. *)
Lemma randomFactor_range (d : Draw) :
  (1 # 2 <= Number.add (1 # 2) (value d))%Q
  /\ (Number.add (1 # 2) (value d) <= 3 # 2)%Q.
Proof.
  destruct (draw_range d) as [H0 H1]. split.
  - assert (E : (Number.add (1 # 2) 0 == 1 # 2)%Q) by reflexivity.
    rewrite <- E at 1. apply round_mono; lra.
  - assert (E : (Number.add (1 # 2) Number.maxDraw == 3 # 2)%Q) by reflexivity.
    rewrite <- E. apply round_mono; lra.
Qed.

Lemma rateLimitOf_range (d : Draw) (count : Z) :
  GroupCreator.baseDelay count <= 2 * GroupCreator.rateLimitOf (value d) count
  /\ 2 * GroupCreator.rateLimitOf (value d) count
     <= 3 * GroupCreator.baseDelay count.
Proof.
  destruct (randomFactor_range d) as [Hlo Hhi].
  unfold GroupCreator.rateLimitOf. cbv zeta.
  set (f := Number.add (1 # 2) (value d)) in *. clearbody f.
  assert (H : forall b : Z,
            (0 < b)%Z ->
            Math_floor (Number.mul (inject_Z b) (1 # 2))
            <= Math_floor (Number.mul (inject_Z b) f)
            <= Math_floor (Number.mul (inject_Z b) (3 # 2))).
  { intros b Hb.
    assert (Hb' : (0 < inject_Z b)%Q)
      by (change 0%Q with (inject_Z 0); now rewrite <- Zlt_Qlt).
    apply floor_between; apply round_mono; nra. }
  destruct (baseDelay_cases count) as [E|[E|[E|E]]]; rewrite E;
    match goal with
    | |- ?b <= _ /\ _ =>
        let lo := eval vm_compute in
                    (Math_floor (Number.mul (inject_Z b) (1 # 2))) in
        let hi := eval vm_compute in
                    (Math_floor (Number.mul (inject_Z b) (3 # 2))) in
        assert (Elo : Math_floor (Number.mul (inject_Z b) (1 # 2)) = lo)
          by (vm_compute; reflexivity);
        assert (Ehi : Math_floor (Number.mul (inject_Z b) (3 # 2)) = hi)
          by (vm_compute; reflexivity);
        specialize (H b eq_refl); rewrite Elo, Ehi in H
    end;
    set (wait := Math_floor _) in *; clearbody wait; lia.
Qed.

Lemma rateLimitOf_mono (d : Draw) (c1 c2 : Z) :
  c1 <= c2 ->
  GroupCreator.rateLimitOf (value d) c1 <= GroupCreator.rateLimitOf (value d) c2.
Proof.
  intros H. destruct (randomFactor_range d) as [Hlo _].
  pose proof (baseDelay_mono c1 c2 H) as Hb.
  pose proof (baseDelay_positive c1) as Hpos.
  unfold GroupCreator.rateLimitOf. cbv zeta.
  set (f := Number.add (1 # 2) (value d)) in *. clearbody f.
  apply Qfloor_resp_le. apply round_mono.
  - assert ((0 < inject_Z (GroupCreator.baseDelay c1))%Q)
      by (change 0%Q with (inject_Z 0); rewrite <- Zlt_Qlt; lia).
    nra.
  - apply Qmult_le_compat_r; [rewrite <- Zle_Qle; exact Hb|lra].
Qed.

(** The rule selected by a draw is one of the ten entries. *)
Lemma selected_variation (d : Draw) :
  In (nth (Z.to_nat (MessageSender.variationIndex (value d)))
          MessageSender.ANTI_BAN.MESSAGE_VARIATIONS
          MessageSender.undefined_variation)
     MessageSender.ANTI_BAN.MESSAGE_VARIATIONS.
Proof.
  apply nth_In. pose proof (variationIndex_bound d). simpl. lia.
Qed.

Ltac each_variation d :=
  let H := fresh "Hsel" in
  pose proof (selected_variation d) as H;
  let v := fresh "v" in
  set (v := nth _ MessageSender.ANTI_BAN.MESSAGE_VARIATIONS _) in *;
  clearbody v;
  unfold MessageSender.ANTI_BAN.MESSAGE_VARIATIONS in H;
  repeat (destruct H as [H|H]; [subst v|]); [..|destruct H].

Lemma addMessageVariation_length random msg w :
  exists out w',
    MessageSender.addMessageVariation random msg w = (Normal out, w')
    /\ (length msg <= length out <= length msg + 1)%nat.
Proof.
  unfold MessageSender.addMessageVariation, bind, Math_random.
  each_variation (random (randomCalls w)); cbn;
    eexists; eexists; (split; [reflexivity|]);
    rewrite ?length_app, ?replace_length by reflexivity;
    simpl;
    try match goal with
        | |- context [slice msg 0 ?p] => pose proof (slice_parts_length msg p)
        end;
    lia.
Qed.

(** Rule 0 appends the empty string. *)
Lemma addMessageVariation_noop random msg w :
  MessageSender.variationIndex (value (random (randomCalls w))) = 0 ->
  MessageSender.addMessageVariation random msg w
  = (Normal msg, mkWorld (S (randomCalls w)) (trace w)).
Proof.
  intros H. unfold MessageSender.addMessageVariation, bind, Math_random.
  rewrite H. cbn. now rewrite app_nil_r.
Qed.

(* ------------------------------------------------------------------ *)
(** ** Loops *)

(** A loop whose passes all complete keeps an invariant indexed by the
    number of passes made. *)
Lemma for_upto_invariant {A} (P : nat -> A -> World -> Prop)
    (body : Z -> A -> Eff A) (n : nat) (from : Z) :
  (forall j a w, (j < n)%nat -> P j a w ->
     exists a' w', body (from + Z.of_nat j) a w = (Normal a', w') /\ P (S j) a' w') ->
  forall a w, P 0%nat a w ->
  exists a' w', for_upto n from body a w = (Normal a', w') /\ P n a' w'.
Proof.
  revert P from. induction n as [|n IH]; intros P from Hstep a w H0.
  - exists a, w. split; [reflexivity | assumption].
  - destruct (Hstep 0%nat a w ltac:(lia) H0) as (a1 & w1 & E1 & H1).
    rewrite Z.add_0_r in E1.
    destruct (IH (fun j => P (S j)) (from + 1)) with (a := a1) (w := w1)
      as (a' & w' & E' & H'); [|assumption|].
    + intros j b v Hj Hp.
      destruct (Hstep (S j) b v ltac:(lia) Hp) as (b' & v' & E & Hq).
      exists b', v'. split; [|assumption].
      rewrite <- E. f_equal. lia.
    + exists a', w'. split; [|assumption].
      cbn [for_upto]. unfold bind. rewrite E1. exact E'.
Qed.

(** A loop of no pass. *)
Lemma for_loop_nonpositive {A} (bound : Z) (body : Z -> A -> Eff A) a w :
  bound <= 0 -> for_loop bound body a w = (Normal a, w).
Proof.
  intros H. unfold for_loop. replace (Z.to_nat bound) with 0%nat by lia.
  reflexivity.
Qed.

(** A property of the world that every pass keeps, however the pass
    completes, holds when the loop is left. *)
Lemma for_upto_world {A} (Q : World -> Prop) (body : Z -> A -> Eff A) (n : nat) :
  (forall i a w, Q w -> Q (snd (body i a w))) ->
  forall from a w, Q w -> Q (snd (for_upto n from body a w)).
Proof.
  intros Hbody. induction n as [|n IH]; intros from a w Hw; [exact Hw|].
  cbn [for_upto]. unfold bind.
  pose proof (Hbody from a w Hw) as H1.
  destruct (body from a w) as [[a1|e] w1]; cbn [snd] in *.
  - apply IH. exact H1.
  - exact H1.
Qed.

(* ------------------------------------------------------------------ *)
(** ** Runs of [createMultipleGroups] *)

Lemma validateParticipants_world ps w :
  snd (GroupCreator.validateParticipants ps w) = w.
Proof.
  unfold GroupCreator.validateParticipants, throw, ret.
  destruct ps as [l|]; [|reflexivity].
  destruct (len l =? 0); [reflexivity|].
  destruct (len l >? 256); [reflexivity|].
  destruct (len (filter _ l) >? 0); reflexivity.
Qed.

Section GroupRuns.

Import GroupCreator GroupRun.

Variable a : Args.
Variable rc0 : nat.

Let B := s_batchSize (settings a).
Let N := count a.

(** What one pass of the inner loop does, as an equation. *)
Lemma createUnit_equation batchIndex batchStart currentBatchSize i res w :
  let k := batchStart + i in
  let pre := if k >? 0 then [EvDelay Pacing (waitTime a (randomCalls w) k)]
             else [] in
  let rc' := if (k >? 0) && negb (s_delaySeconds (settings a) >? 0)
             then S (randomCalls w) else randomCalls w in
  let call := CreateGroup (nameAt a k) (participants a) in
  let r := createGroup (client a) (trace w ++ pre) (nameAt a k) (participants a) in
  let res' := pushResult res (nameAt a k) (numberAt a k) r in
  let ev := GroupProgress (k + 1) (count a) (successCount res') (failedCount res')
              (batchIndex + 1) (totalBatches a) (i + 1) currentBatchSize in
  createUnit (random a) (client a) (groupPrefix a) (count a) (participants a)
    (settings a) (progressCallback a) (maxDigits a) (totalBatches a)
    batchIndex batchStart currentBatchSize i res w
  = match progressCallback a with
    | None => (Normal res', mkWorld rc' (trace w ++ pre ++ [EvCall call r]))
    | Some f =>
        (match f ev with None => Normal res' | Some e => Throw e end,
         mkWorld rc' (trace w ++ pre ++ [EvCall call r] ++ [EvProgress ev]))
    end.
Proof.
  cbv zeta.
  unfold createUnit, try_catch, bind, call_createGroup, getRateLimit,
    Math_random, delay, notify, ret, emit, waitTime, nameAt, numberAt, pushResult,
    recordOf.
  destruct w as [rc tr]. cbn [randomCalls trace].
  destruct (batchStart + i >? 0); cbn [andb negb];
    [destruct (s_delaySeconds (settings a) >? 0); cbn [andb negb]|];
    cbn -[groupNameOf Z.add Z.mul rateLimitOf]; rewrite ?app_nil_r;
    match goal with
    | |- context [createGroup ?c ?t ?n ?p] => destruct (createGroup c t n p)
    end;
    cbn -[groupNameOf Z.add Z.mul rateLimitOf];
    (destruct (progressCallback a) as [f|];
     [ match goal with
       | |- context [f ?e] => destruct (f e)
       end |]);
    cbn -[groupNameOf Z.add Z.mul rateLimitOf];
    rewrite <- ?app_assoc; reflexivity.
Qed.

Lemma recordOf_agrees nm num r ps :
  RecordOfCall (recordOf nm num r) (CreateGroup nm ps, r).
Proof. destruct r; reflexivity. Qed.

Lemma pushResult_groups res nm num r :
  groups (pushResult res nm num r) = groups res ++ [recordOf nm num r].
Proof. destruct r; reflexivity. Qed.

Lemma pushResult_counts res nm num r :
  successCount res = Z.of_nat (length (filter success (groups res))) ->
  failedCount res
  = Z.of_nat (length (filter (fun g => negb (success g)) (groups res))) ->
  successCount (pushResult res nm num r)
  = Z.of_nat (length (filter success (groups (pushResult res nm num r))))
  /\ failedCount (pushResult res nm num r)
     = Z.of_nat (length (filter (fun g => negb (success g))
                           (groups (pushResult res nm num r)))).
Proof.
  intros Hs Hf. destruct r; cbn [pushResult successCount failedCount groups];
    rewrite !filter_app, !length_app; cbn; lia.
Qed.

(** One unit more. *)
Lemma createUnit_reached batchIndex batchStart currentBatchSize i
    k nb ncd fr res w :
  quiet (progressCallback a) ->
  batchStart + i = Z.of_nat k ->
  Reached a rc0 k nb ncd fr res w ->
  exists res' w',
    createUnit (random a) (client a) (groupPrefix a) (count a) (participants a)
      (settings a) (progressCallback a) (maxDigits a) (totalBatches a)
      batchIndex batchStart currentBatchSize i res w = (Normal res', w')
    /\ Reached a rc0 (S k) nb ncd (fr ++ unitFrame a rc0 (Z.of_nat k)) res' w'.
Proof.
  intros Hq Hk [Hrec Hsuc Hfail Hnum Hcalls Hlines Hcd Hcde Hue Hpace Hdraws Hfr].
  rewrite createUnit_equation. rewrite Hk.
  set (pre := if Z.of_nat k >? 0 then _ else _).
  set (r := createGroup _ _ _ _).
  set (res' := pushResult _ _ _ _).
  assert (Hpre : pre = if Z.of_nat k >? 0
                       then [EvDelay Pacing (pacingAt a rc0 (Z.of_nat k))] else []).
  { subst pre. destruct (Z.gtb_spec (Z.of_nat k) 0); [|reflexivity].
    do 2 f_equal. unfold pacingAt, waitTime. rewrite Hdraws. unfold drawsAfter.
    destruct (s_delaySeconds (settings a) >? 0); [reflexivity|].
    do 3 f_equal. lia. }
  assert (Hw : exists post w',
    (match progressCallback a with
     | None => (Normal res', mkWorld
         (if (Z.of_nat k >? 0) && negb (s_delaySeconds (settings a) >? 0)
          then S (randomCalls w) else randomCalls w)
         (trace w ++ pre ++ [EvCall (CreateGroup (nameAt a (Z.of_nat k))
                                       (participants a)) r]))
     | Some f =>
        (match f (GroupProgress (Z.of_nat k + 1) (count a) (successCount res')
                    (failedCount res') (batchIndex + 1) (totalBatches a)
                    (i + 1) currentBatchSize) with
         | None => Normal res' | Some e => Throw e end,
         mkWorld
           (if (Z.of_nat k >? 0) && negb (s_delaySeconds (settings a) >? 0)
            then S (randomCalls w) else randomCalls w)
           (trace w ++ pre
            ++ [EvCall (CreateGroup (nameAt a (Z.of_nat k)) (participants a)) r]
            ++ [EvProgress (GroupProgress (Z.of_nat k + 1) (count a)
                  (successCount res') (failedCount res') (batchIndex + 1)
                  (totalBatches a) (i + 1) currentBatchSize)]))
     end) = (Normal res', w')
    /\ trace w' = trace w ++ pre
         ++ [EvCall (CreateGroup (nameAt a (Z.of_nat k)) (participants a)) r]
         ++ post
    /\ randomCalls w'
       = (if (Z.of_nat k >? 0) && negb (s_delaySeconds (settings a) >? 0)
          then S (randomCalls w) else randomCalls w)
    /\ post = match progressCallback a with
              | Some _ => [EvProgress (GroupProgress (Z.of_nat k + 1) (count a)
                  (successCount res') (failedCount res') (batchIndex + 1)
                  (totalBatches a) (i + 1) currentBatchSize)]
              | None => []
              end).
  { destruct (progressCallback a) as [f|] eqn:Ecb.
    - rewrite (Hq f eq_refl). eexists; eexists; repeat split; reflexivity.
    - eexists; eexists; repeat split; rewrite ?app_nil_r; reflexivity. }
  destruct Hw as (post & w' & E & Htr & Hrc & Hpost).
  exists res', w'. split; [exact E|].
  destruct (pushResult_counts res (nameAt a (Z.of_nat k)) (numberAt a (Z.of_nat k)) r
              Hsuc Hfail) as [Hs' Hf'].
  assert (Hcalls' : calls (trace w')
                    = calls (trace w)
                      ++ [(CreateGroup (nameAt a (Z.of_nat k)) (participants a), r)]).
  { rewrite Htr, Hpre, Hpost. unfold calls. rewrite !collect_app.
    destruct (Z.of_nat k >? 0), (progressCallback a); reflexivity. }
  constructor.
  - rewrite Hcalls'. subst res'. rewrite pushResult_groups.
    apply Forall2_app; [assumption|]. constructor; [|constructor].
    apply recordOf_agrees.
  - exact Hs'.
  - exact Hf'.
  - subst res'. rewrite pushResult_groups, map_app, range_snoc, map_app, Hnum.
    f_equal. rewrite Z.add_0_l. destruct r; reflexivity.
  - rewrite Hcalls', map_app, range_snoc, map_app, Hcalls. reflexivity.
  - rewrite <- Hlines, Htr, Hpre, Hpost. unfold batchLines. rewrite !collect_app.
    destruct (Z.of_nat k >? 0), (progressCallback a); cbn; now rewrite app_nil_r.
  - rewrite <- Hcd, Htr, Hpre, Hpost. unfold cooldownWaits. rewrite !collect_app.
    destruct (Z.of_nat k >? 0), (progressCallback a); cbn; now rewrite app_nil_r.
  - rewrite <- Hcde, Htr, Hpre, Hpost. unfold cooldownEvents. rewrite !collect_app.
    destruct (Z.of_nat k >? 0), (progressCallback a); cbn; now rewrite app_nil_r.
  - rewrite Htr, Hpre, Hpost. unfold unitEvents in *. rewrite !collect_app, !length_app.
    destruct (Z.of_nat k >? 0), (progressCallback a); cbn; lia.
  - rewrite Htr, Hpre, Hpost. unfold pacingWaits in *. rewrite !collect_app, Hpace.
    destruct (Z.gtb_spec (Z.of_nat k) 0).
    + replace (S k - 1)%nat with (S (k - 1)) by lia.
      rewrite range_snoc, map_app.
      replace (1 + Z.of_nat (k - 1)) with (Z.of_nat k) by lia.
      destruct (progressCallback a); cbn; now rewrite ?app_nil_r.
    + replace k with 0%nat by lia.
      destruct (progressCallback a); cbn; reflexivity.
  - rewrite Hrc, Hdraws. unfold drawsAfter.
    destruct (Z.gtb_spec (Z.of_nat k) 0), (s_delaySeconds (settings a) >? 0);
      cbn [andb negb]; lia.
  - rewrite Htr, Hpre, Hpost. unfold frame in *. rewrite !collect_app, Hfr.
    unfold unitFrame, reportOf.
    destruct (Z.of_nat k >? 0), (progressCallback a); cbn; now rewrite ?app_nil_r.
Qed.

(** The line of the logger at the start of a batch. *)
Lemma log_reached b k nb ncd fr res w :
  Z.of_nat nb = b ->
  Reached a rc0 k nb ncd fr res w ->
  Reached a rc0 k (S nb) ncd (fr ++ [BatchStart (lineAt a b)]) res
    (emit (lineAt a b) w).
Proof.
  intros Hb [Hrec Hsuc Hfail Hnum Hcalls Hlines Hcd Hcde Hue Hpace Hdraws Hfr].
  constructor; cbn [emit trace randomCalls]; try assumption;
    unfold calls, batchLines, cooldownWaits, cooldownEvents, unitEvents,
      pacingWaits, frame in *;
    rewrite ?collect_app; cbn [collect lineAt itemOf]; rewrite ?app_nil_r;
    try assumption.
  - rewrite Hlines, range_snoc, map_app. cbn [map]. rewrite Hb. reflexivity.
  - now rewrite Hfr.
Qed.

(** The pause between two batches. *)
Lemma cooldown_reached b k nb ncd fr res w :
  quiet (progressCallback a) ->
  Reached a rc0 k nb ncd fr res w ->
  exists w',
    ((notify (progressCallback a)
        (CooldownProgress (batchEndOf a b) (count a) (successCount res)
           (failedCount res) (s_batchCooldownSeconds (settings a)) (b + 2)
           (totalBatches a)) ;;;
      delay Cooldown (s_batchCooldownSeconds (settings a) * 1000)) w
     = (Normal tt, w'))
    /\ Reached a rc0 k nb (S ncd)
         (fr ++ reportOf a true
          ++ [Wait Cooldown (s_batchCooldownSeconds (settings a) * 1000)])
         res w'.
Proof.
  intros Hq [Hrec Hsuc Hfail Hnum Hcalls Hlines Hcd Hcde Hue Hpace Hdraws Hfr].
  unfold bind, notify, delay, ret, reportOf.
  destruct (progressCallback a) as [f|] eqn:Ecb.
  - rewrite (Hq f eq_refl). eexists. split; [reflexivity|].
    constructor; cbn [emit trace randomCalls]; try assumption;
      unfold calls, batchLines, cooldownWaits, cooldownEvents, unitEvents,
        pacingWaits, frame in *;
      rewrite ?collect_app, ?length_app; cbn [collect length itemOf];
      rewrite ?app_nil_r; try assumption.
    + rewrite Hcd. now rewrite <- repeat_cons.
    + rewrite Ecb, Hcde. lia.
    + rewrite Ecb, Hue. lia.
    + rewrite Hfr, <- app_assoc. reflexivity.
  - eexists. split; [reflexivity|].
    constructor; cbn [emit trace randomCalls]; try assumption;
      unfold calls, batchLines, cooldownWaits, cooldownEvents, unitEvents,
        pacingWaits, frame in *;
      rewrite ?collect_app, ?length_app; cbn [collect length itemOf];
      rewrite ?app_nil_r; try assumption.
    + rewrite Hcd. now rewrite <- repeat_cons.
    + rewrite Ecb, Hcde. lia.
    + rewrite Ecb, Hue. lia.
    + rewrite Hfr. reflexivity.
Qed.

(** One batch more. *)
Lemma createBatch_reached b k nb ncd fr res w :
  quiet (progressCallback a) ->
  Z.of_nat nb = b ->
  Z.of_nat k = batchStartOf a b ->
  Reached a rc0 k nb ncd fr res w ->
  exists res' w',
    createBatch (random a) (client a) (groupPrefix a) (count a) (participants a)
      (settings a) (progressCallback a) (maxDigits a) (totalBatches a)
      b res w = (Normal res', w')
    /\ Reached a rc0
         (k + Z.to_nat (batchEndOf a b - batchStartOf a b))
         (S nb)
         (ncd + (if b <? totalBatches a - 1 then 1 else 0))
         (fr ++ batchFrame a rc0 b) res' w'.
Proof.
  intros Hq Hb Hk Hreach.
  unfold createBatch, bind at 1, log.
  fold (batchStartOf a b). fold (batchEndOf a b). fold (lineAt a b).
  apply (log_reached b) in Hreach; [|assumption].
  set (n := Z.to_nat (batchEndOf a b - batchStartOf a b)).
  destruct (for_upto_invariant
              (fun j res' w' =>
                 Reached a rc0 (k + j) (S nb) ncd
                   ((fr ++ [BatchStart (lineAt a b)])
                    ++ flat_map (unitFrame a rc0) (range (batchStartOf a b) j))
                   res' w')
              (createUnit (random a) (client a) (groupPrefix a) (count a)
                 (participants a) (settings a) (progressCallback a) (maxDigits a)
                 (totalBatches a) b (batchStartOf a b)
                 (batchEndOf a b - batchStartOf a b))
              n 0)
    with (a := res) (w := emit (lineAt a b) w) as (res1 & w1 & E1 & H1).
  - intros j r v Hj Hr.
    destruct (createUnit_reached b (batchStartOf a b)
                (batchEndOf a b - batchStartOf a b) (0 + Z.of_nat j)
                (k + j) (S nb) ncd _ r v Hq ltac:(lia) Hr)
      as (r' & v' & E & Hr').
    exists r', v'. split; [exact E|].
    rewrite Nat.add_succ_r, range_snoc, flat_map_app. cbn [flat_map].
    rewrite app_nil_r, app_assoc.
    replace (batchStartOf a b + Z.of_nat j) with (Z.of_nat (k + j)) by lia.
    exact Hr'.
  - rewrite Nat.add_0_r. unfold range. cbn [seq map flat_map].
    rewrite app_nil_r. exact Hreach.
  - unfold for_loop, bind. fold n. rewrite E1.
    assert (Efr : forall tail,
              ((fr ++ [BatchStart (lineAt a b)])
               ++ flat_map (unitFrame a rc0) (range (batchStartOf a b) n))
              ++ tail
              = fr ++ BatchStart (lineAt a b)
                      :: flat_map (unitFrame a rc0) (unitsOf a b) ++ tail).
    { intros tail. unfold unitsOf. fold n. rewrite <- !app_assoc. reflexivity. }
    unfold batchFrame, cooldownFrame.
    destruct (b <? totalBatches a - 1) eqn:Elast.
    + destruct (cooldown_reached b _ _ _ _ _ _ Hq H1) as (w2 & E2 & H2).
      unfold bind in E2.
      exists res1, w2. split.
      * unfold bind. rewrite E2. reflexivity.
      * replace (ncd + 1)%nat with (S ncd) by lia.
        rewrite Efr in H2. exact H2.
    + exists res1, w1. split; [reflexivity|].
      rewrite Nat.add_0_r. rewrite <- (app_nil_r (_ ++ _)) in H1.
      rewrite Efr in H1. exact H1.
Qed.

(** Nothing has happened yet. *)
Lemma start_reached : Reached a rc0 0 0 0 [] (mkResults 0 0 []) (mkWorld rc0 []).
Proof.
  constructor; cbn; try reflexivity.
  - constructor.
  - now destruct (progressCallback a).
  - now destruct (progressCallback a).
  - unfold drawsAfter. destruct (s_delaySeconds (settings a) >? 0); lia.
Qed.

Lemma totalBatches_bounds :
  1 <= B -> 0 <= N ->
  (totalBatches a - 1) * B < N /\ N <= totalBatches a * B /\ 0 <= totalBatches a.
Proof.
  intros HB HN. unfold totalBatches, totalBatchesOf. fold B N.
  destruct (ceil_quotient_pos N B ltac:(lia)) as [H1 H2].
  repeat split; try assumption. nia.
Qed.

(** All the batches. *)
Lemma batches_reached :
  1 <= B -> 0 <= N ->
  quiet (progressCallback a) ->
  exists res w',
    for_loop (totalBatches a)
      (createBatch (random a) (client a) (groupPrefix a) (count a)
         (participants a) (settings a) (progressCallback a) (maxDigits a)
         (totalBatches a))
      (mkResults 0 0 []) (mkWorld rc0 []) = (Normal res, w')
    /\ Reached a rc0 (Z.to_nat N)
         (Z.to_nat (totalBatches a)) (Z.to_nat (totalBatches a) - 1)
         (flat_map (batchFrame a rc0) (range 0 (Z.to_nat (totalBatches a))))
         res w'.
Proof.
  intros HB HN Hq.
  destruct (totalBatches_bounds HB HN) as (Hlo & Hhi & Htb).
  set (tbn := Z.to_nat (totalBatches a)).
  destruct (for_upto_invariant
              (fun b res w =>
                 Reached a rc0 (Z.to_nat (Z.min (Z.of_nat b * B) N)) b
                   (Nat.min b (tbn - 1))
                   (flat_map (batchFrame a rc0) (range 0 b)) res w)
              (createBatch (random a) (client a) (groupPrefix a) (count a)
                 (participants a) (settings a) (progressCallback a) (maxDigits a)
                 (totalBatches a))
              tbn 0)
    with (a := mkResults 0 0 []) (w := mkWorld rc0 [])
    as (res & w' & E & H).
  - intros b r v Hb Hr.
    assert (Hin : Z.of_nat b * B < N) by (subst tbn; nia).
    assert (Hpos : 0 <= Z.of_nat b * B) by nia.
    assert (Hsucc : Z.of_nat (S b) * B = Z.of_nat b * B + B) by lia.
    rewrite Z.add_0_l.
    assert (Hstart : Z.of_nat (Z.to_nat (Z.min (Z.of_nat b * B) N))
                     = batchStartOf a (Z.of_nat b))
      by (unfold batchStartOf; fold B; lia).
    destruct (createBatch_reached (Z.of_nat b) _ b _ _ r v Hq eq_refl Hstart Hr)
      as (r' & v' & E & Hr').
    exists r', v'. split; [exact E|].
    rewrite range_snoc, flat_map_app. cbn [flat_map]. rewrite app_nil_r.
    replace (Z.to_nat (Z.min (Z.of_nat (S b) * B) N))
      with (Z.to_nat (Z.min (Z.of_nat b * B) N)
            + Z.to_nat (batchEndOf a (Z.of_nat b)
                        - batchStartOf a (Z.of_nat b)))%nat
      by (unfold batchEndOf, batchStartOf; fold B N; rewrite Hsucc; lia).
    replace (Nat.min (S b) (tbn - 1))
      with (Nat.min b (tbn - 1)
            + (if (Z.of_nat b <? totalBatches a - 1)%Z then 1 else 0))%nat
      by (destruct (Z.ltb_spec (Z.of_nat b) (totalBatches a - 1));
          subst tbn; lia).
    exact Hr'.
  - replace (Z.to_nat (Z.min (Z.of_nat 0 * B) N)) with 0%nat by lia.
    apply start_reached.
  - exists res, w'. split; [exact E|].
    replace (Z.to_nat (Z.min (Z.of_nat tbn * B) N)) with (Z.to_nat N) in H
      by (subst tbn; nia).
    replace (Nat.min tbn (tbn - 1)) with (tbn - 1)%nat in H by lia.
    exact H.
Qed.

(** *** What holds of every run *)

Lemma createUnit_sound batchIndex batchStart currentBatchSize i res w :
  quiet (progressCallback a) ->
  0 <= batchStart + i < count a ->
  Sound a res w ->
  exists res' w',
    createUnit (random a) (client a) (groupPrefix a) (count a) (participants a)
      (settings a) (progressCallback a) (maxDigits a) (totalBatches a)
      batchIndex batchStart currentBatchSize i res w = (Normal res', w')
    /\ Sound a res' w'.
Proof.
  intros Hq Hk [Hrec Hsuc Hfail Hunits].
  rewrite createUnit_equation.
  set (k := batchStart + i) in *.
  set (pre := if k >? 0 then _ else _).
  set (r := createGroup _ _ _ _).
  set (res' := pushResult _ _ _ _).
  destruct (pushResult_counts res (nameAt a k) (numberAt a k) r Hsuc Hfail)
    as [Hs' Hf'].
  assert (Hpre : calls pre = []) by (subst pre; destruct (k >? 0); reflexivity).
  assert (Hsound : forall post w',
            calls post = [] ->
            trace w' = trace w ++ pre
                       ++ [EvCall (CreateGroup (nameAt a k) (participants a)) r]
                       ++ post ->
            Sound a res' w').
  { intros post w' Hpost Htr.
    assert (Hcalls' : calls (trace w')
                      = calls (trace w)
                        ++ [(CreateGroup (nameAt a k) (participants a), r)]).
    { rewrite Htr. unfold calls in *. rewrite !collect_app, Hpre, Hpost.
      reflexivity. }
    constructor.
    - rewrite Hcalls'. subst res'. rewrite pushResult_groups.
      apply Forall2_app; [assumption|]. constructor; [|constructor].
      apply recordOf_agrees.
    - exact Hs'.
    - exact Hf'.
    - subst res'. rewrite pushResult_groups. apply Forall_app.
      split; [assumption|]. constructor; [|constructor].
      exists k. destruct r; cbn; repeat split; lia. }
  destruct (progressCallback a) as [f|] eqn:Ecb.
  - rewrite (Hq f eq_refl). eexists; eexists. split; [reflexivity|].
    eapply Hsound; [|reflexivity]. reflexivity.
  - eexists; eexists. split; [reflexivity|].
    apply (Hsound []); [reflexivity|]. cbn [trace]. now rewrite app_nil_r.
Qed.

Lemma sound_same_calls res w w' :
  calls (trace w') = calls (trace w) -> Sound a res w -> Sound a res w'.
Proof. intros E [H1 H2 H3 H4]. constructor; try assumption. now rewrite E. Qed.

Lemma createBatch_sound b res w :
  quiet (progressCallback a) ->
  0 <= b ->
  Sound a res w ->
  exists res' w',
    createBatch (random a) (client a) (groupPrefix a) (count a) (participants a)
      (settings a) (progressCallback a) (maxDigits a) (totalBatches a)
      b res w = (Normal res', w')
    /\ Sound a res' w'.
Proof.
  intros Hq Hb Hsound.
  unfold createBatch, bind at 1, log.
  fold (batchStartOf a b). fold (batchEndOf a b). fold (lineAt a b).
  set (n := Z.to_nat (batchEndOf a b - batchStartOf a b)).
  destruct (for_upto_invariant (fun _ => Sound a)
              (createUnit (random a) (client a) (groupPrefix a) (count a)
                 (participants a) (settings a) (progressCallback a) (maxDigits a)
                 (totalBatches a) b (batchStartOf a b)
                 (batchEndOf a b - batchStartOf a b))
              n 0)
    with (a := res) (w := emit (lineAt a b) w) as (res1 & w1 & E1 & H1).
  - intros j r v Hj Hr. apply createUnit_sound; [assumption| |assumption].
    subst n. unfold batchEndOf, batchStartOf in *. nia.
  - apply (sound_same_calls res w); [|assumption].
    cbn [emit trace]. unfold calls. rewrite collect_app. cbn.
    now rewrite app_nil_r.
  - unfold for_loop, bind. fold n. rewrite E1.
    destruct (b <? totalBatches a - 1).
    + unfold notify, delay, ret.
      destruct (progressCallback a) as [f|] eqn:Ecb.
      * rewrite (Hq f eq_refl). eexists; eexists. split; [reflexivity|].
        apply (sound_same_calls res1 w1); [|assumption].
        cbn [emit trace]. unfold calls. rewrite !collect_app. cbn.
        now rewrite !app_nil_r.
      * eexists; eexists. split; [reflexivity|].
        apply (sound_same_calls res1 w1); [|assumption].
        cbn [emit trace]. unfold calls. rewrite !collect_app. cbn.
        now rewrite !app_nil_r.
    + exists res1, w1. split; [reflexivity|assumption].
Qed.

Lemma batches_sound w :
  quiet (progressCallback a) ->
  calls (trace w) = [] ->
  exists res w',
    for_loop (totalBatches a)
      (createBatch (random a) (client a) (groupPrefix a) (count a)
         (participants a) (settings a) (progressCallback a) (maxDigits a)
         (totalBatches a))
      (mkResults 0 0 []) w = (Normal res, w')
    /\ Sound a res w'.
Proof.
  intros Hq Hw.
  apply (for_upto_invariant (fun _ => Sound a)).
  - intros j r v Hj Hr. apply createBatch_sound; [assumption|lia|assumption].
  - constructor; cbn; try reflexivity; try rewrite Hw; constructor.
Qed.

(** *** What holds of every run, even one that the callback aborts *)

Lemma createUnit_calls batchIndex batchStart currentBatchSize i res w :
  CallsWith (participants a) w ->
  CallsWith (participants a)
    (snd (createUnit (random a) (client a) (groupPrefix a) (count a)
            (participants a) (settings a) (progressCallback a) (maxDigits a)
            (totalBatches a) batchIndex batchStart currentBatchSize i res w)).
Proof.
  intros H. rewrite createUnit_equation.
  set (k := batchStart + i) in *.
  set (pre := if k >? 0 then _ else _).
  assert (Hpre : calls pre = []) by (subst pre; destruct (k >? 0); reflexivity).
  unfold CallsWith in *.
  destruct (progressCallback a) as [f|]; cbn [snd trace];
    unfold calls in *; rewrite !collect_app, Hpre; cbn;
    (apply Forall_app; split; [assumption|]);
    (constructor; [|constructor]); eexists; reflexivity.
Qed.

Lemma createBatch_calls b res w :
  CallsWith (participants a) w ->
  CallsWith (participants a)
    (snd (createBatch (random a) (client a) (groupPrefix a) (count a)
            (participants a) (settings a) (progressCallback a) (maxDigits a)
            (totalBatches a) b res w)).
Proof.
  intros H. unfold createBatch, bind at 1, log.
  assert (H0 : CallsWith (participants a)
                 (emit (EvGroupBatch (b + 1) (totalBatches a)
                          (b * s_batchSize (settings a) + 1)
                          (Z.min (b * s_batchSize (settings a)
                                  + s_batchSize (settings a)) (count a))) w)).
  { unfold CallsWith, calls in *. cbn [emit trace]. rewrite collect_app. cbn.
    now rewrite app_nil_r. }
  pose proof (for_upto_world (CallsWith (participants a))
                (createUnit (random a) (client a) (groupPrefix a) (count a)
                   (participants a) (settings a) (progressCallback a)
                   (maxDigits a) (totalBatches a) b
                   (b * s_batchSize (settings a))
                   (Z.min (b * s_batchSize (settings a)
                           + s_batchSize (settings a)) (count a)
                    - b * s_batchSize (settings a)))
                (Z.to_nat (Z.min (b * s_batchSize (settings a)
                                  + s_batchSize (settings a)) (count a)
                           - b * s_batchSize (settings a)))
                (fun i r v => createUnit_calls b _ _ i r v) 0 res _ H0) as H1.
  unfold for_loop, bind.
  destruct (for_upto _ _ _ _ _) as [[res1|e] w1]; cbn [snd] in *; [|exact H1].
  destruct (b <? totalBatches a - 1); [|exact H1].
  unfold notify, delay, ret, CallsWith, calls in *.
  destruct (progressCallback a) as [f|].
  - destruct (f _); cbn [snd emit trace]; rewrite !collect_app; cbn;
      now rewrite !app_nil_r.
  - cbn [snd emit trace]. rewrite collect_app. cbn. now rewrite app_nil_r.
Qed.

End GroupRuns.

(** Every run of [createMultipleGroups], however it ends, has called the
    collaborator with the participants it was given only. *)
Lemma createMultipleGroups_calls random client groupPrefix count participants
    options cb rc0 :
  let out := GroupCreator.createMultipleGroups random client groupPrefix count
               participants options cb (mkWorld rc0 []) in
  calls (trace (snd out)) = []
  \/ exists ps,
       participants = Some ps
       /\ fst (GroupCreator.validateParticipants participants (mkWorld rc0 []))
          = Normal tt
       /\ GroupRun.CallsWith ps (snd out).
Proof.
  cbv zeta. unfold GroupCreator.createMultipleGroups.
  destruct client as [c|]; [|left; reflexivity].
  destruct (info c); [|left; reflexivity].
  destruct participants as [ps|]; [|left; reflexivity].
  unfold bind.
  pose proof (validateParticipants_world (Some ps) (mkWorld rc0 [])) as Hw.
  destruct (GroupCreator.validateParticipants (Some ps) (mkWorld rc0 []))
    as [[[]|e] w1]; cbn [snd] in Hw; subst w1; [|left; reflexivity].
  right. exists ps. repeat split.
  apply (for_upto_world (GroupRun.CallsWith ps)).
  - intros i r v Hv.
    apply (createBatch_calls
             (GroupRun.mkArgs random c groupPrefix count ps
                (GroupCreator.settingsOf options) cb)). exact Hv.
  - constructor.
Qed.

(** A run that passes the checks made before the loops, with a callback
    that does not throw, completes. *)
Lemma createMultipleGroups_sound random c who groupPrefix count ps options cb rc0 :
  info c = Some who ->
  fst (GroupCreator.validateParticipants (Some ps) (mkWorld rc0 [])) = Normal tt ->
  quiet cb ->
  let a := GroupRun.mkArgs random c groupPrefix count ps
             (GroupCreator.settingsOf options) cb in
  exists res w',
    GroupCreator.createMultipleGroups random (Some c) groupPrefix count (Some ps)
      options cb (mkWorld rc0 []) = (Normal res, w')
    /\ GroupRun.Sound a res w'.
Proof.
  intros Hinfo Hvalid Hq a.
  destruct (batches_sound a (mkWorld rc0 []) Hq eq_refl) as (res & w' & E & H).
  exists res, w'. split; [|exact H].
  unfold GroupCreator.createMultipleGroups. rewrite Hinfo.
  unfold bind at 1.
  pose proof (validateParticipants_world (Some ps) (mkWorld rc0 [])) as Hw.
  destruct (GroupCreator.validateParticipants (Some ps) (mkWorld rc0 []))
    as [cpl w1].
  cbn [fst snd] in *. subst cpl w1. exact E.
Qed.


(** A run that passes the checks made before the loops, with a callback
    that does not throw, a count that is not negative and a batch size
    that ends up positive. *)
Lemma createMultipleGroups_reached random c who groupPrefix count ps options cb rc0 :
  info c = Some who ->
  fst (GroupCreator.validateParticipants (Some ps) (mkWorld rc0 [])) = Normal tt ->
  quiet cb ->
  0 <= count ->
  1 <= GroupCreator.s_batchSize (GroupCreator.settingsOf options) ->
  let a := GroupRun.mkArgs random c groupPrefix count ps
             (GroupCreator.settingsOf options) cb in
  exists res w',
    GroupCreator.createMultipleGroups random (Some c) groupPrefix count (Some ps)
      options cb (mkWorld rc0 []) = (Normal res, w')
    /\ GroupRun.Reached a rc0 (Z.to_nat count)
         (Z.to_nat (GroupRun.totalBatches a))
         (Z.to_nat (GroupRun.totalBatches a) - 1)
         (flat_map (GroupRun.batchFrame a rc0)
            (range 0 (Z.to_nat (GroupRun.totalBatches a))))
         res w'.
Proof.
  intros Hinfo Hvalid Hq Hcount HB a.
  destruct (batches_reached a rc0 HB Hcount Hq) as (res & w' & E & H).
  exists res, w'. split; [|exact H].
  unfold GroupCreator.createMultipleGroups. rewrite Hinfo.
  unfold bind at 1.
  pose proof (validateParticipants_world (Some ps) (mkWorld rc0 [])) as Hw.
  destruct (GroupCreator.validateParticipants (Some ps) (mkWorld rc0 []))
    as [cpl w1].
  cbn [fst snd] in *. subst cpl w1. exact E.
Qed.

(* ------------------------------------------------------------------ *)
(** ** Runs of [sendBulkMessages] *)

(** A variation only draws: the trace is untouched and at least one draw
    is consumed. *)
Lemma addMessageVariation_world random msg w :
  exists text w',
    MessageSender.addMessageVariation random msg w = (Normal text, w')
    /\ (length msg <= length text <= length msg + 1)%nat
    /\ trace w' = trace w
    /\ (randomCalls w < randomCalls w')%nat.
Proof.
  destruct (addMessageVariation_length random msg w) as (text & w' & E & Hlen).
  exists text, w'. split; [exact E|]. split; [exact Hlen|].
  revert E. unfold MessageSender.addMessageVariation, bind, Math_random, ret.
  each_variation (random (randomCalls w)); cbn;
    intros E; injection E as _ <-; cbn; split; (reflexivity || lia).
Qed.

Lemma firstn_snoc_nth {A} (l : list A) (k : nat) (d : A) :
  (k < length l)%nat -> firstn (S k) l = firstn k l ++ [nth k l d].
Proof.
  revert k. induction l as [|x l IH]; intros k Hk; simpl in Hk; [lia|].
  destruct k as [|k]; [reflexivity|].
  cbn [firstn nth app]. f_equal. apply IH. lia.
Qed.

Section MessageRuns.

Import MessageSender MessageRun.

Variable a : Args.

(** What one pass of the inner loop does, as an equation. *)
Lemma sendUnit_equation batchIndex batchStart
    (batchRecipients : list jsstring) i res w :
  let k := batchStart + i in
  let recipient : jsstring := @nth jsstring (Z.to_nat i) batchRecipients [] in
  let pre := if k >? 0 then [EvDelay Pacing (waitOfDraw a (randomCalls w))]
             else [] in
  exists text rc',
    let call := SendMessage recipient text in
    let r := sendMessage (client a) (trace w ++ pre) recipient text in
    let res' := pushResult res recipient r in
    let ev := MessageProgress (k + 1) (len (recipients a)) (successCount res') (failedCount res')
                recipient (batchIndex + 1) (totalBatches a) in
    sendUnit (random a) (client a) (message a) (len (recipients a))
      (delaySeconds a)
      (progressCallback a) batchIndex (totalBatches a) batchStart
      batchRecipients i res w
    = match progressCallback a with
      | None => (Normal res', mkWorld rc' (trace w ++ pre ++ [EvCall call r]))
      | Some f =>
          (match f ev with None => Normal res' | Some e => Throw e end,
           mkWorld rc' (trace w ++ pre ++ [EvCall call r] ++ [EvProgress ev]))
      end
    /\ (length (message a) <= length text <= length (message a) + 1)%nat
    /\ (randomCalls w + (if k >? 0 then 1 else 0) < rc')%nat.
Proof.
  cbv zeta.
  unfold sendUnit, try_catch. unfold bind at 1 2 3.
  destruct w as [rc tr].
  destruct (batchStart + i >? 0).
  - unfold getRandomizedDelay, delay, bind at 2 3, Math_random, ret, emit.
    cbn [randomCalls trace].
    destruct (addMessageVariation_world (random a) (message a)
                (mkWorld (S rc) (tr ++ [EvDelay Pacing
                   (delaySeconds a * 1000
                    + randomOffset (value (random a rc)))])))
      as (text & [rc2 tr2] & E & Hlen & Htr & Hrc).
    cbn [randomCalls trace] in Htr, Hrc. subst tr2.
    exists text, rc2. unfold bind. cbn [randomCalls trace]. rewrite E.
    unfold call_sendMessage, notify, emit, waitOfDraw, pushResult, detailOf.
    cbn [randomCalls trace].
    split; [|split; [exact Hlen | lia]].
    destruct (sendMessage (client a) _ _ text);
      cbn -[Z.add Z.mul randomOffset];
      (destruct (progressCallback a) as [f|];
       [ match goal with |- context [f ?e] => destruct (f e) end |]);
      cbn -[Z.add Z.mul randomOffset]; rewrite <- ?app_assoc; reflexivity.
  - unfold ret at 1.
    destruct (addMessageVariation_world (random a) (message a) (mkWorld rc tr))
      as (text & [rc2 tr2] & E & Hlen & Htr & Hrc).
    cbn [randomCalls trace] in Htr, Hrc. subst tr2.
    exists text, rc2. unfold bind. cbn [randomCalls trace]. rewrite E.
    unfold call_sendMessage, notify, emit, waitOfDraw, pushResult, detailOf, ret.
    cbn [randomCalls trace app]. rewrite ?app_nil_r.
    split; [|split; [exact Hlen | lia]].
    destruct (sendMessage (client a) _ _ text);
      cbn -[Z.add Z.mul randomOffset];
      (destruct (progressCallback a) as [f|];
       [ match goal with |- context [f ?e] => destruct (f e) end |]);
      cbn -[Z.add Z.mul randomOffset]; rewrite <- ?app_assoc; reflexivity.
Qed.

Lemma detailOf_agrees rcp text r :
  DetailOfCall (detailOf rcp r) (SendMessage rcp text, r).
Proof. destruct r; reflexivity. Qed.

Lemma pushDetail_details res rcp r :
  details (pushResult res rcp r) = details res ++ [detailOf rcp r].
Proof. destruct r; reflexivity. Qed.

Lemma pushDetail_counts res rcp r :
  successCount res = Z.of_nat (length (filter success (details res))) ->
  failedCount res
  = Z.of_nat (length (filter (fun d => negb (success d)) (details res))) ->
  successCount (pushResult res rcp r)
  = Z.of_nat (length (filter success (details (pushResult res rcp r))))
  /\ failedCount (pushResult res rcp r)
     = Z.of_nat (length (filter (fun d => negb (success d))
                           (details (pushResult res rcp r)))).
Proof.
  intros Hs Hf. destruct r; cbn [pushResult successCount failedCount details];
    rewrite !filter_app, !length_app; cbn; lia.
Qed.

Lemma NoDup_snoc_fresh (l : list nat) (x : nat) :
  NoDup l -> Forall (fun y => (y < x)%nat) l -> NoDup (l ++ [x]).
Proof.
  intros Hnd Hlt. induction Hnd as [|y l Hy Hnd IH]; cbn.
  - constructor; [intros []|constructor].
  - inversion Hlt as [|? ? Hyx Hl]; subst.
    constructor; [|apply IH; assumption].
    rewrite in_app_iff. intros [H|[H|[]]]; [contradiction|lia].
Qed.

(** One unit more. *)
Lemma sendUnit_reached batchIndex batchStart (batchRecipients : list jsstring) i
    k nb ncd idxs fr res w :
  quiet (progressCallback a) ->
  batchStart + i = Z.of_nat k ->
  @nth jsstring (Z.to_nat i) batchRecipients [] = nth k (recipients a) [] ->
  (k < length (recipients a))%nat ->
  Reached a k nb ncd idxs fr res w ->
  exists res' w',
    sendUnit (random a) (client a) (message a) (len (recipients a))
      (delaySeconds a) (progressCallback a) batchIndex (totalBatches a)
      batchStart batchRecipients i res w = (Normal res', w')
    /\ Reached a (S k) nb ncd
         (idxs ++ (if Z.of_nat k >? 0 then [randomCalls w] else []))
         (fr ++ unitFrame a
                  (idxs ++ (if Z.of_nat k >? 0 then [randomCalls w] else []))
                  (Z.of_nat k))
         res' w'.
Proof.
  intros Hq Hk Hnth Hlt
    [Hrec Hsuc Hfail Hrcp Htexts Hlines Hcd Hcde Hue Hpace Hpc Hnd Hdr Hfr].
  destruct (sendUnit_equation batchIndex batchStart batchRecipients i res w)
    as (text & rc' & E & Hlen & Hrc).
  cbv zeta in E. rewrite Hk, Hnth in *.
  set (rcp := nth k (recipients a) []) in *.
  set (pre := if Z.of_nat k >? 0 then _ else _) in *.
  set (r := sendMessage _ _ _ _) in *.
  set (res' := pushResult _ _ _) in *.
  set (ev := MessageProgress _ _ _ _ _ _ _) in *.
  assert (Hw : exists post w',
    sendUnit (random a) (client a) (message a) (len (recipients a))
      (delaySeconds a) (progressCallback a) batchIndex (totalBatches a)
      batchStart batchRecipients i res w = (Normal res', w')
    /\ trace w' = trace w ++ pre ++ [EvCall (SendMessage rcp text) r] ++ post
    /\ randomCalls w' = rc'
    /\ post = match progressCallback a with
              | Some _ => [EvProgress ev]
              | None => []
              end).
  { rewrite E. destruct (progressCallback a) as [f|] eqn:Ecb.
    - rewrite (Hq f eq_refl). eexists; eexists; repeat split; reflexivity.
    - eexists; eexists; repeat split; rewrite ?app_nil_r; reflexivity. }
  clear E. destruct Hw as (post & w' & E & Htr & Hrc' & Hpost).
  exists res', w'. split; [exact E|].
  destruct (pushDetail_counts res rcp r Hsuc Hfail) as [Hs' Hf'].
  assert (Hcalls' : calls (trace w')
                    = calls (trace w) ++ [(SendMessage rcp text, r)]).
  { rewrite Htr, Hpost. subst pre. unfold calls. rewrite !collect_app.
    destruct (Z.of_nat k >? 0), (progressCallback a); reflexivity. }
  constructor.
  - rewrite Hcalls'. subst res'. rewrite pushDetail_details.
    apply Forall2_app; [assumption|]. constructor; [|constructor].
    apply detailOf_agrees.
  - exact Hs'.
  - exact Hf'.
  - subst res'. rewrite pushDetail_details, map_app, Hrcp.
    rewrite (@firstn_snoc_nth jsstring (recipients a) k [] Hlt).
    f_equal. destruct r; reflexivity.
  - rewrite Hcalls'. apply Forall_app. split; [assumption|].
    constructor; [exact Hlen|constructor].
  - rewrite <- Hlines, Htr, Hpost. subst pre ev. unfold batchLines.
    rewrite !collect_app.
    destruct (Z.of_nat k >? 0), (progressCallback a); cbn; now rewrite app_nil_r.
  - rewrite <- Hcd, Htr, Hpost. subst pre ev. unfold cooldownWaits.
    rewrite !collect_app.
    destruct (Z.of_nat k >? 0), (progressCallback a); cbn; now rewrite app_nil_r.
  - rewrite <- Hcde, Htr, Hpost. subst pre ev. unfold cooldownEvents.
    rewrite !collect_app.
    destruct (Z.of_nat k >? 0), (progressCallback a); cbn; now rewrite app_nil_r.
  - rewrite Htr, Hpost. subst pre ev. unfold unitEvents in *.
    rewrite !collect_app, !length_app.
    destruct (Z.of_nat k >? 0), (progressCallback a); cbn; lia.
  - rewrite Htr, Hpost. subst pre ev. unfold pacingWaits in *.
    rewrite !collect_app, Hpace, map_app.
    destruct (Z.of_nat k >? 0), (progressCallback a); cbn; now rewrite ?app_nil_r.
  - rewrite length_app, Hpc.
    destruct (Z.gtb_spec (Z.of_nat k) 0); cbn; lia.
  - destruct (Z.of_nat k >? 0); [|now rewrite app_nil_r].
    apply NoDup_snoc_fresh; assumption.
  - rewrite Hrc'. apply Forall_app. split.
    + eapply Forall_impl; [|exact Hdr]. cbn. intros; lia.
    + destruct (Z.of_nat k >? 0); constructor; [lia|constructor].
  - rewrite Htr, Hpost. subst pre ev. unfold frame in *.
    rewrite !collect_app, Hfr. unfold unitFrame, reportOf.
    rewrite Nat2Z.id. fold rcp.
    destruct (Z.gtb_spec (Z.of_nat k) 0).
    + rewrite app_nth2 by lia.
      replace (Z.to_nat (Z.of_nat k - 1) - length idxs)%nat with 0%nat by lia.
      destruct (progressCallback a); cbn; reflexivity.
    + destruct (progressCallback a); cbn; reflexivity.
Qed.

(** The frame of a unit depends on the draws made up to its wait only. *)
Lemma unitFrame_stable draws more k :
  (Z.to_nat k <= length draws)%nat ->
  unitFrame a (draws ++ more) k = unitFrame a draws k.
Proof.
  intros H. unfold unitFrame. destruct (Z.gtb_spec k 0); [|reflexivity].
  rewrite app_nth1 by lia. reflexivity.
Qed.

Lemma unitFrames_stable draws more from n :
  0 <= from ->
  (Z.to_nat from + n <= S (length draws))%nat ->
  flat_map (unitFrame a (draws ++ more)) (range from n)
  = flat_map (unitFrame a draws) (range from n).
Proof.
  intros H0 H. induction n as [|n IH]; [reflexivity|].
  rewrite range_snoc, !flat_map_app, IH by lia. cbn [flat_map].
  rewrite unitFrame_stable by lia. reflexivity.
Qed.

(** A batch that starts inside the list is a window of the list. *)
Lemma batchOf_window b k :
  Z.of_nat k = batchStartOf b ->
  (k <= length (recipients a))%nat ->
  Z.of_nat (length (batchOf a b)) = batchEndOf a b - batchStartOf b
  /\ (k + length (batchOf a b) <= length (recipients a))%nat
  /\ (forall j, (j < length (batchOf a b))%nat ->
       nth j (batchOf a b) [] = nth (k + j) (recipients a) [])
  /\ batchOf a b = firstn (length (batchOf a b)) (skipn k (recipients a)).
Proof.
  intros Hk Hle.
  assert (Hend : 0 <= batchEndOf a b <= len (recipients a)).
  { unfold batchEndOf, ANTI_BAN.BATCH_SIZE, len in *. lia. }
  assert (Hend' : batchStartOf b <= batchEndOf a b).
  { unfold batchEndOf, ANTI_BAN.BATCH_SIZE, len in *. lia. }
  assert (Hshape : batchOf a b
                   = firstn (Z.to_nat (batchEndOf a b) - k)
                       (skipn k (recipients a))).
  { unfold batchOf, slice.
    rewrite (slice_index_inside (recipients a) (batchStartOf b))
      by (unfold len; lia).
    rewrite (slice_index_inside (recipients a) (batchEndOf a b)) by assumption.
    rewrite <- Hk, Nat2Z.id. reflexivity. }
  assert (Hlen : length (batchOf a b) = (Z.to_nat (batchEndOf a b) - k)%nat).
  { rewrite Hshape, length_firstn, length_skipn. unfold len in *. lia. }
  repeat split.
  - lia.
  - unfold len in *. lia.
  - intros j Hj. rewrite Hshape, nth_firstn, nth_skipn.
    destruct (Nat.ltb_spec j (Z.to_nat (batchEndOf a b) - k)); [reflexivity|lia].
  - rewrite Hlen. exact Hshape.
Qed.

(** The line of the logger at the start of a batch. *)
Lemma log_message_reached b k nb ncd idxs fr res w :
  Z.of_nat nb = b ->
  Reached a k nb ncd idxs fr res w ->
  Reached a k (S nb) ncd idxs (fr ++ [BatchStart (lineAt a b)]) res
    (emit (lineAt a b) w).
Proof.
  intros Hb
    [Hrec Hsuc Hfail Hrcp Htexts Hlines Hcd Hcde Hue Hpace Hpc Hnd Hdr Hfr].
  constructor; cbn [emit trace randomCalls]; try assumption;
    unfold calls, batchLines, cooldownWaits, cooldownEvents, unitEvents,
      pacingWaits, frame in *;
    rewrite ?collect_app; cbn [collect lineAt itemOf]; rewrite ?app_nil_r;
    try assumption.
  - rewrite Hlines, range_snoc, map_app. cbn [map]. rewrite Hb. reflexivity.
  - now rewrite Hfr.
Qed.

(** The pause between two batches. *)
Lemma cooldown_message_reached b k nb ncd idxs fr res w :
  quiet (progressCallback a) ->
  Reached a k nb ncd idxs fr res w ->
  exists w',
    ((notify (progressCallback a)
        (CooldownProgress (batchEndOf a b) (len (recipients a))
           (successCount res) (failedCount res)
           (ANTI_BAN.BATCH_COOLDOWN / 1000) (b + 2) (totalBatches a)) ;;;
      delay Cooldown ANTI_BAN.BATCH_COOLDOWN) w
     = (Normal tt, w'))
    /\ Reached a k nb (S ncd) idxs
         (fr ++ reportOf a true ++ [Wait Cooldown ANTI_BAN.BATCH_COOLDOWN])
         res w'.
Proof.
  intros Hq
    [Hrec Hsuc Hfail Hrcp Htexts Hlines Hcd Hcde Hue Hpace Hpc Hnd Hdr Hfr].
  unfold bind, notify, delay, ret, reportOf.
  destruct (progressCallback a) as [f|] eqn:Ecb.
  - rewrite (Hq f eq_refl). eexists. split; [reflexivity|].
    constructor; cbn [emit trace randomCalls]; try assumption;
      unfold calls, batchLines, cooldownWaits, cooldownEvents, unitEvents,
        pacingWaits, frame in *;
      rewrite ?collect_app, ?length_app; cbn [collect length itemOf];
      rewrite ?app_nil_r; try assumption.
    + rewrite Hcd. now rewrite <- repeat_cons.
    + rewrite Ecb, Hcde. lia.
    + rewrite Ecb, Hue. lia.
    + rewrite Hfr, <- app_assoc. reflexivity.
  - eexists. split; [reflexivity|].
    constructor; cbn [emit trace randomCalls]; try assumption;
      unfold calls, batchLines, cooldownWaits, cooldownEvents, unitEvents,
        pacingWaits, frame in *;
      rewrite ?collect_app, ?length_app; cbn [collect length itemOf];
      rewrite ?app_nil_r; try assumption.
    + rewrite Hcd. now rewrite <- repeat_cons.
    + rewrite Ecb, Hcde. lia.
    + rewrite Ecb, Hue. lia.
    + rewrite Hfr. reflexivity.
Qed.

(** One batch more. *)
Lemma sendBatch_reached b k nb ncd idxs fr res w :
  quiet (progressCallback a) ->
  Z.of_nat nb = b ->
  Z.of_nat k = batchStartOf b ->
  (k <= length (recipients a))%nat ->
  Reached a k nb ncd idxs fr res w ->
  exists res' w' more,
    sendBatch (random a) (client a) (message a) (recipients a) (delaySeconds a)
      (progressCallback a) (totalBatches a) b res w = (Normal res', w')
    /\ Reached a (k + length (batchOf a b)) (S nb)
         (ncd + (if b <? totalBatches a - 1 then 1 else 0)) (idxs ++ more)
         (fr ++ batchFrame a (idxs ++ more) b) res' w'.
Proof.
  intros Hq Hb Hk Hle Hreach.
  destruct (batchOf_window b k Hk Hle) as (Hlen & Hfit & Hnth & _).
  unfold sendBatch, bind at 1, log.
  fold (batchStartOf b). fold (batchEndOf a b). fold (batchOf a b).
  fold (lineAt a b).
  apply (log_message_reached b) in Hreach; [|assumption].
  destruct (for_upto_invariant
              (fun j res' w' =>
                 exists more,
                   Reached a (k + j) (S nb) ncd (idxs ++ more)
                     ((fr ++ [BatchStart (lineAt a b)])
                      ++ flat_map (unitFrame a (idxs ++ more))
                           (range (batchStartOf b) j))
                     res' w')
              (sendUnit (random a) (client a) (message a) (len (recipients a))
                 (delaySeconds a) (progressCallback a) b (totalBatches a)
                 (batchStartOf b) (batchOf a b))
              (length (batchOf a b)) 0)
    with (a := res) (w := emit (lineAt a b) w) as (res1 & w1 & E1 & more1 & H1).
  - intros j r v Hj (more & Hr).
    destruct (sendUnit_reached b (batchStartOf b) (batchOf a b) (0 + Z.of_nat j)
                (k + j) (S nb) ncd (idxs ++ more)
                ((fr ++ [BatchStart (lineAt a b)])
                 ++ flat_map (unitFrame a (idxs ++ more))
                      (range (batchStartOf b) j))
                r v Hq ltac:(lia)) as (r' & v' & E & Hr').
    + rewrite Z.add_0_l, Nat2Z.id. apply Hnth. exact Hj.
    + lia.
    + exact Hr.
    + exists r', v'. split; [exact E|].
      exists (more ++ (if Z.of_nat (k + j) >? 0 then [randomCalls v] else [])).
      pose proof (r_pacingCount _ _ _ _ _ _ _ _ Hr) as Hcount.
      rewrite (app_assoc idxs).
      rewrite Nat.add_succ_r, range_snoc, flat_map_app. cbn [flat_map].
      rewrite app_nil_r, unitFrames_stable, app_assoc by lia.
      replace (batchStartOf b + Z.of_nat j) with (Z.of_nat (k + j)) by lia.
      exact Hr'.
  - exists []. rewrite app_nil_r, Nat.add_0_r. unfold range.
    cbn [seq map flat_map]. rewrite app_nil_r. exact Hreach.
  - unfold for_loop, bind. unfold len at 1. rewrite Nat2Z.id, E1.
    assert (Efr : forall tail,
              ((fr ++ [BatchStart (lineAt a b)])
               ++ flat_map (unitFrame a (idxs ++ more1))
                    (range (batchStartOf b) (length (batchOf a b))))
              ++ tail
              = fr ++ BatchStart (lineAt a b)
                      :: flat_map (unitFrame a (idxs ++ more1)) (unitsOf a b)
                         ++ tail).
    { intros tail. unfold unitsOf. rewrite <- !app_assoc. reflexivity. }
    unfold batchFrame, cooldownFrame.
    destruct (b <? totalBatches a - 1) eqn:Elast.
    + destruct (cooldown_message_reached b _ _ _ _ _ _ _ Hq H1) as (w2 & E2 & H2).
      unfold bind in E2.
      exists res1, w2, more1. split.
      * unfold bind. rewrite E2. reflexivity.
      * replace (ncd + 1)%nat with (S ncd) by lia.
        rewrite Efr in H2. exact H2.
    + exists res1, w1, more1. split; [reflexivity|].
      rewrite Nat.add_0_r, <- (Efr []).
      rewrite (app_nil_r (_ ++ flat_map _ _)). exact H1.
Qed.

(** The frames of the batches that are over depend on the draws made so
    far only. *)
Lemma batchFrames_stable draws more (b : nat) :
  Z.of_nat b * 26 <= len (recipients a) ->
  (Z.to_nat (Z.of_nat b * 26) <= S (length draws))%nat ->
  flat_map (batchFrame a (draws ++ more)) (range 0 b)
  = flat_map (batchFrame a draws) (range 0 b).
Proof.
  induction b as [|b IH]; intros Hfull Hdrawn; [reflexivity|].
  rewrite range_snoc, !flat_map_app, IH by lia. cbn [flat_map].
  rewrite Z.add_0_l. unfold batchFrame, unitsOf.
  assert (Hstart : Z.of_nat (Z.to_nat (Z.of_nat b * 26)) = batchStartOf (Z.of_nat b))
    by (unfold batchStartOf, ANTI_BAN.BATCH_SIZE; lia).
  destruct (batchOf_window (Z.of_nat b) _ Hstart
              ltac:(unfold len in *; lia)) as (Hlen & _ & _ & _).
  unfold batchEndOf, batchStartOf, ANTI_BAN.BATCH_SIZE in Hlen.
  rewrite unitFrames_stable; [reflexivity| |].
  - unfold batchStartOf, ANTI_BAN.BATCH_SIZE. lia.
  - unfold batchStartOf, ANTI_BAN.BATCH_SIZE. unfold len in *. lia.
Qed.

(** Nothing has happened yet. *)
Lemma start_message_reached rc0 :
  Reached a 0 0 0 [] [] (mkResults 0 0 []) (mkWorld rc0 []).
Proof.
  constructor; cbn; try reflexivity; try constructor.
  - now destruct (progressCallback a).
  - now destruct (progressCallback a).
Qed.

Lemma totalBatches_message_bounds :
  (totalBatches a - 1) * 26 < len (recipients a)
  /\ len (recipients a) <= totalBatches a * 26
  /\ 0 <= totalBatches a.
Proof.
  unfold totalBatches, totalBatchesOf.
  change ANTI_BAN.BATCH_SIZE with 26.
  destruct (ceil_quotient_pos (len (recipients a)) 26 ltac:(lia)) as [H1 H2].
  repeat split; try assumption. unfold len in *. lia.
Qed.

(** All the batches. *)
Lemma message_batches_reached rc0 :
  quiet (progressCallback a) ->
  exists res w' idxs,
    for_loop (totalBatches a)
      (sendBatch (random a) (client a) (message a) (recipients a)
         (delaySeconds a) (progressCallback a) (totalBatches a))
      (mkResults 0 0 []) (mkWorld rc0 []) = (Normal res, w')
    /\ Reached a (length (recipients a))
         (Z.to_nat (totalBatches a)) (Z.to_nat (totalBatches a) - 1) idxs
         (flat_map (batchFrame a idxs) (range 0 (Z.to_nat (totalBatches a))))
         res w'.
Proof.
  intros Hq.
  destruct totalBatches_message_bounds as (Hlo & Hhi & Htb).
  set (tbn := Z.to_nat (totalBatches a)).
  set (N := len (recipients a)) in *.
  destruct (for_upto_invariant
              (fun b res w =>
                 exists idxs,
                   Reached a (Z.to_nat (Z.min (Z.of_nat b * 26) N)) b
                     (Nat.min b (tbn - 1)) idxs
                     (flat_map (batchFrame a idxs) (range 0 b)) res w)
              (sendBatch (random a) (client a) (message a) (recipients a)
                 (delaySeconds a) (progressCallback a) (totalBatches a))
              tbn 0)
    with (a := mkResults 0 0 []) (w := mkWorld rc0 [])
    as (res & w' & E & idxs & H).
  - intros b r v Hb (idxs & Hr).
    assert (Hin : Z.of_nat b * 26 < N) by (subst tbn; lia).
    rewrite Z.add_0_l.
    assert (Hstart : Z.of_nat (Z.to_nat (Z.min (Z.of_nat b * 26) N))
                     = batchStartOf (Z.of_nat b))
      by (unfold batchStartOf, ANTI_BAN.BATCH_SIZE; lia).
    destruct (sendBatch_reached (Z.of_nat b) _ b _ idxs _ r v Hq eq_refl Hstart
                ltac:(subst N; unfold len in *; lia) Hr)
      as (r' & v' & more & E & Hr').
    exists r', v'. split; [exact E|]. exists (idxs ++ more).
    pose proof (r_pacingCount _ _ _ _ _ _ _ _ Hr) as Hcount.
    rewrite range_snoc, flat_map_app. cbn [flat_map]. rewrite app_nil_r.
    rewrite batchFrames_stable
      by (subst N; unfold len in *; lia).
    destruct (batchOf_window (Z.of_nat b) _ Hstart
                ltac:(subst N; unfold len in *; lia)) as (Hlen & _ & _ & _).
    replace (Z.to_nat (Z.min (Z.of_nat (S b) * 26) N))
      with (Z.to_nat (Z.min (Z.of_nat b * 26) N)
            + length (batchOf a (Z.of_nat b)))%nat
      by (unfold batchEndOf, batchStartOf, ANTI_BAN.BATCH_SIZE in Hlen;
          fold N in Hlen; lia).
    replace (Nat.min (S b) (tbn - 1))
      with (Nat.min b (tbn - 1)
            + (if (Z.of_nat b <? totalBatches a - 1)%Z then 1 else 0))%nat
      by (destruct (Z.ltb_spec (Z.of_nat b) (totalBatches a - 1));
          subst tbn; lia).
    exact Hr'.
  - exists []. replace (Z.to_nat (Z.min (Z.of_nat 0 * 26) N)) with 0%nat by lia.
    apply start_message_reached.
  - exists res, w', idxs. split; [exact E|].
    replace (Z.to_nat (Z.min (Z.of_nat tbn * 26) N))
      with (length (recipients a)) in H
      by (subst tbn N; unfold len in *; lia).
    replace (Nat.min tbn (tbn - 1)) with (tbn - 1)%nat in H by lia.
    exact H.
Qed.

End MessageRuns.

(** A run that passes the check made before the loops, with a callback
    that does not throw. *)
Lemma sendBulkMessages_reached random c who message recipients delaySeconds cb rc0 :
  info c = Some who ->
  quiet cb ->
  let a := MessageRun.mkArgs random c message recipients
             (match delaySeconds with Some d => d | None => 3 end) cb in
  exists res w' idxs,
    MessageSender.sendBulkMessages random (Some c) message recipients
      delaySeconds cb (mkWorld rc0 []) = (Normal res, w')
    /\ MessageRun.Reached a (length recipients)
         (Z.to_nat (MessageRun.totalBatches a))
         (Z.to_nat (MessageRun.totalBatches a) - 1) idxs
         (flat_map (MessageRun.batchFrame a idxs)
            (range 0 (Z.to_nat (MessageRun.totalBatches a))))
         res w'.
Proof.
  intros Hinfo Hq a.
  destruct (message_batches_reached a rc0 Hq) as (res & w' & idxs & E & H).
  exists res, w', idxs. split; [|exact H].
  unfold MessageSender.sendBulkMessages. rewrite Hinfo. exact E.
Qed.

(* ================================================================== *)
(** * The claims *)

Import Samples.

(* ------------------------------------------------------------------ *)
(** ** Content variation *)

(** C7. For every non-empty message, whatever the draws, the output of
    [addMessageVariation] has a length between the length of the input
    and that length plus 2, and is not empty; and some draw (one that
    selects the rule that appends the empty string) gives back the input
    unchanged. *)
Theorem variation_length_and_identity random (msg : jsstring) (w : World) :
  msg <> [] ->
  (exists out w',
      MessageSender.addMessageVariation random msg w = (Normal out, w')
      /\ (length msg <= length out <= length msg + 2)%nat
      /\ out <> [])
  /\ (exists random' w',
        MessageSender.addMessageVariation random' msg w = (Normal msg, w')).
Proof.
  intros Hne. split.
  - destruct (addMessageVariation_length random msg w) as (out & w' & E & Hlen).
    exists out, w'. split; [exact E|]. split; [lia|].
    apply nonempty_length. apply nonempty_length in Hne. lia.
  - exists (fun _ => drawZero). eexists.
    apply addMessageVariation_noop. reflexivity.
Qed.

Lemma variation_length_and_identity_witness :
  str "Halo" <> []
  /\ (exists out w',
        MessageSender.addMessageVariation (fun _ => drawHigh) (str "Halo") start
        = (Normal out, w')
        /\ (length (str "Halo") <= length out <= length (str "Halo") + 2)%nat
        /\ out <> [])
  /\ (exists random' w',
        MessageSender.addMessageVariation random' (str "Halo") start
        = (Normal (str "Halo"), w')).
Proof.
  assert (H : str "Halo" <> []) by discriminate.
  split; [exact H|].
  exact (variation_length_and_identity (fun _ => drawHigh) (str "Halo") start H).
Defined.

(** C9, as stated, fails: on the two-unit message "ab" no sequence of
    draws makes [addMessageVariation] put the zero-width space after the
    last unit, at offset 2. *)
Lemma invisible_marker_never_last :
  ~ exists random w w',
      MessageSender.addMessageVariation random (str "ab") w
      = (Normal (str "ab" ++ [8203]), w').
Proof.
  intros (random & w & w' & E). revert E.
  change (str "ab") with [97; 98].
  unfold MessageSender.addMessageVariation, bind, Math_random, ret.
  each_variation (random (randomCalls w)); cbn -[MessageSender.invisiblePosition];
    try discriminate.
  all: pose proof (invisiblePosition_bound (random (S (randomCalls w))) [97; 98]
                     ltac:(discriminate)) as Hpos;
    change (len [97; 98]) with 2 in Hpos;
    rewrite slice_prefix; unfold slice_from;
    rewrite (slice_index_inside [97; 98]) by (change (len [97; 98]) with 2; lia);
    assert (Hcase : MessageSender.invisiblePosition
                      (value (random (S (randomCalls w)))) [97; 98] = 0
                    \/ MessageSender.invisiblePosition
                         (value (random (S (randomCalls w)))) [97; 98] = 1)
      by lia;
    destruct Hcase as [-> | ->]; cbn; discriminate.
Qed.

(** C9, amended. When an invisible-marker rule is selected for a message
    of length n >= 1, the marker is inserted at the offset
    [Math.floor(Math.random() * n)], which lies in 0..n-1: the text is
    the first [offset] units, the marker, then the rest, and the marker
    is never after the last unit. The product is a double, within
    n * 2^-53 of the exact product r * n: the offset is at most
    r * n + n * 2^-53 and more than r * n - n * 2^-53 - 1. The draw 0
    gives the offset 0, and the largest draw the offset n - 1 when n is
    at most 2^52. *)
Theorem invisible_marker_offset random (msg : jsstring) (w : World) :
  msg <> [] ->
  let r1 := value (random (randomCalls w)) in
  let r2 := value (random (S (randomCalls w))) in
  let position := MessageSender.invisiblePosition r2 msg in
  let n := inject_Z (len msg) in
  0 <= position <= len msg - 1
  /\ (inject_Z position < r2 * n + n * Number.pow2 (-53))%Q
  /\ (r2 * n - n * Number.pow2 (-53) < inject_Z position + 1)%Q
  /\ MessageSender.invisiblePosition 0 msg = 0
  /\ (len msg <= 2 ^ 52 ->
      MessageSender.invisiblePosition Number.maxDraw msg = len msg - 1)
  /\ (MessageSender.variationIndex r1 = 8 ->
      MessageSender.addMessageVariation random msg w
      = (Normal (firstn (Z.to_nat position) msg ++ [8203]
                 ++ skipn (Z.to_nat position) msg),
         mkWorld (S (S (randomCalls w))) (trace w)))
  /\ (MessageSender.variationIndex r1 = 9 ->
      MessageSender.addMessageVariation random msg w
      = (Normal (firstn (Z.to_nat position) msg ++ [8204]
                 ++ skipn (Z.to_nat position) msg),
         mkWorld (S (S (randomCalls w))) (trace w))).
Proof.
  intros Hne r1 r2 position n.
  pose proof (invisiblePosition_bound (random (S (randomCalls w))) msg Hne) as Hpos.
  fold r2 in Hpos. fold position in Hpos.
  assert (Hlen : 1 <= len msg) by (apply nonempty_length in Hne; unfold len; lia).
  split; [lia|].
  destruct (draw_range (random (S (randomCalls w)))) as [H0 H1].
  fold r2 in H0, H1.
  destruct (mul_near r2 (len msg) H0 H1 Hlen) as (N1 & N2 & _ & _).
  destruct (floor_bounds (Number.mul r2 (inject_Z (len msg)))) as [F1 F2].
  change (Math_floor (Number.mul r2 (inject_Z (len msg)))) with position in F1, F2.
  fold n in N1, N2, F1, F2.
  split; [lra|]. split; [lra|].
  split.
  { unfold MessageSender.invisiblePosition, Number.mul, Math_floor.
    rewrite round_zero by ring. reflexivity. }
  split.
  { intros Hmax. unfold MessageSender.invisiblePosition.
    assert (Em : (Number.maxDraw == 9007199254740991 # 9007199254740992)%Q)
      by reflexivity.
    assert (Ec : (Number.pow2 (-53) == 1 # 9007199254740992)%Q) by reflexivity.
    destruct (mul_near Number.maxDraw (len msg)) as (M1 & _ & _ & M2);
      [rewrite Em; lra|apply Qle_refl|exact Hlen|].
    assert (Hn : (inject_Z (len msg) <= 4503599627370496)%Q).
    { change 4503599627370496%Q with (inject_Z (2 ^ 52)). now rewrite <- Zle_Qle. }
    assert (E1 : (Number.maxDraw * inject_Z (len msg)
                  - inject_Z (len msg) * Number.pow2 (-53)
                  == inject_Z (len msg)
                     * (4503599627370495 # 4503599627370496))%Q)
      by (rewrite Em, Ec; ring).
    rewrite E1 in M1.
    apply floor_unique.
    - unfold Z.sub. rewrite inject_Z_plus.
      change (inject_Z (- (1))) with (- (1))%Q. lra.
    - unfold Z.sub. rewrite inject_Z_plus.
      change (inject_Z (- (1))) with (- (1))%Q. lra. }
  split; intros Hidx;
    unfold MessageSender.addMessageVariation, bind, Math_random, ret;
    fold r1; rewrite Hidx;
    change (Z.to_nat 8) with 8%nat; change (Z.to_nat 9) with 9%nat;
    cbn -[MessageSender.invisiblePosition];
    fold r2; fold position;
    rewrite slice_prefix; unfold slice_from;
    rewrite (slice_index_inside msg) by lia; reflexivity.
Qed.

Lemma invisible_marker_offset_witness :
  str "ab" <> []
  /\ 0 <= MessageSender.invisiblePosition (value drawHigh) (str "ab")
       <= len (str "ab") - 1.
Proof.
  assert (H : str "ab" <> []) by discriminate.
  split; [exact H|].
  exact (proj1 (invisible_marker_offset (fun _ => drawHigh) (str "ab") start H)).
Defined.

(* ------------------------------------------------------------------ *)
(** ** Pacing *)

Lemma map_constant {A B} (f : A -> B) (c : B) (l : list A) :
  (forall x, f x = c) -> map f l = repeat c (length l).
Proof.
  intros H. induction l as [|x l IH]; cbn; [reflexivity|].
  now rewrite H, IH.
Qed.

Lemma sum_mono {A} (f g : A -> Z) (l : list A) :
  (forall x, f x <= g x) ->
  fold_right Z.add 0 (map f l) <= fold_right Z.add 0 (map g l).
Proof.
  intros H. induction l as [|x l IH]; cbn; [lia|].
  specialize (H x). lia.
Qed.

(** C6, as stated, fails: with a base delay of -10 seconds and the draw
    0.5 the wait computed before the second message is -6500 ms. *)
Lemma negative_base_delay_negative_wait :
  MessageSender.getRandomizedDelay (fun _ => drawHalf) (-10) start
  = (Normal (-6500), mkWorld 1 [])
  /\ pacingWaits
       (trace (snd (MessageSender.sendBulkMessages (fun _ => drawHalf)
                      (Some acceptingClient) (str "Halo") twoRecipients
                      (Some (-10)) None start)))
     = [-6500]
  /\ -6500 < 0.
Proof. repeat split. Qed.

(** C6, amended. [getRandomizedDelay] returns the base delay in
    milliseconds plus an offset of 1000..5999, and so never a negative
    wait when the base delay is not negative. [getRateLimit] never
    returns a negative wait: its result is the floor of a base, which
    steps up from 3000 to 5000, 8000 and 12000 as the count passes 10, 20
    and 30, times a factor of [0.5, 1.5], both ends included (the largest
    draw gives 1.5, and 18000 ms above 30), so that twice the wait lies
    between the base and three times the base; for the same draw the
    wait does not decrease when the count grows, so neither does its sum
    over any sample of draws, nor its mean. The wait of the group path,
    in either mode, is never negative. *)
Theorem pacing_never_negative random (w : World) (d : Draw)
    (baseDelaySeconds count c1 c2 : Z) (sample : list Draw) :
  0 <= baseDelaySeconds ->
  SafeDelay baseDelaySeconds ->
  c1 <= c2 ->
  (exists wait w',
      MessageSender.getRandomizedDelay random baseDelaySeconds w
      = (Normal wait, w')
      /\ baseDelaySeconds * 1000 + 1000 <= wait <= baseDelaySeconds * 1000 + 5999
      /\ 0 <= wait)
  /\ (exists wait w',
        GroupCreator.getRateLimit random count w = (Normal wait, w')
        /\ GroupCreator.baseDelay count <= 2 * wait
           <= 3 * GroupCreator.baseDelay count
        /\ 0 <= wait)
  /\ (exists factor,
        (1 # 2 <= factor)%Q /\ (factor <= 3 # 2)%Q
        /\ GroupCreator.rateLimitOf (value d) count
           = Math_floor
               (Number.mul (inject_Z (GroupCreator.baseDelay count)) factor))
  /\ GroupCreator.rateLimitOf (value drawZero) 31 = 6000
  /\ GroupCreator.rateLimitOf (value drawMax) 31 = 18000
  /\ (count <= 10 -> GroupCreator.baseDelay count = 3000)
  /\ (10 < count <= 20 -> GroupCreator.baseDelay count = 5000)
  /\ (20 < count <= 30 -> GroupCreator.baseDelay count = 8000)
  /\ (30 < count -> GroupCreator.baseDelay count = 12000)
  /\ GroupCreator.rateLimitOf (value d) c1 <= GroupCreator.rateLimitOf (value d) c2
  /\ fold_right Z.add 0
       (map (fun r => GroupCreator.rateLimitOf (value r) c1) sample)
     <= fold_right Z.add 0
          (map (fun r => GroupCreator.rateLimitOf (value r) c2) sample)
  /\ (forall a rc k, 0 <= GroupRun.waitTime a rc k).
Proof.
  intros HD _ Hc.
  assert (Hrate : forall r c, 1500 <= GroupCreator.rateLimitOf (value r) c).
  { intros r c. pose proof (rateLimitOf_range r c).
    pose proof (baseDelay_positive c). lia. }
  split.
  { eexists; eexists. split; [reflexivity|].
    pose proof (randomOffset_range (random (randomCalls w))). lia. }
  split.
  { eexists; eexists. split; [reflexivity|].
    pose proof (rateLimitOf_range (random (randomCalls w)) count).
    specialize (Hrate (random (randomCalls w)) count). lia. }
  split.
  { exists (Number.add (1 # 2) (value d)).
    destruct (randomFactor_range d) as [Hlo Hhi].
    split; [exact Hlo|]. split; [exact Hhi|reflexivity]. }
  split; [vm_compute; reflexivity|]. split; [vm_compute; reflexivity|].
  destruct (baseDelay_steps count) as (S1 & S2 & S3 & S4).
  repeat (split; [assumption|]).
  split; [apply rateLimitOf_mono; assumption|].
  split; [apply sum_mono; intros r; apply rateLimitOf_mono; assumption|].
  intros a rc k. unfold GroupRun.waitTime.
  destruct (Z.gtb_spec (GroupCreator.s_delaySeconds (GroupRun.settings a)) 0).
  - lia.
  - specialize (Hrate (GroupRun.random a rc) (k + 1)). lia.
Qed.

Lemma pacing_never_negative_witness :
  0 <= 3 /\ SafeDelay 3 /\ 11 <= 21
  /\ exists wait w',
       MessageSender.getRandomizedDelay (fun _ => drawHalf) 3 start
       = (Normal wait, w')
       /\ 0 <= wait.
Proof.
  assert (H1 : 0 <= 3) by lia.
  assert (H2 : SafeDelay 3) by (unfold SafeDelay, safeInteger; lia).
  assert (H3 : 11 <= 21) by lia.
  split; [exact H1|]. split; [exact H2|]. split; [exact H3|].
  destruct (pacing_never_negative (fun _ => drawHalf) start drawHalf 3 5 11 21
              [drawZero; drawHalf] H1 H2 H3) as [(wait & w' & E & _ & Hw) _].
  exists wait, w'. split; assumption.
Defined.

(** C4, as stated, fails on the group path: with a fixed delay of 5
    seconds the wait before the second group is exactly 5000 ms, which is
    not 5000 plus a jitter of 1000 to 6000 ms. *)
Lemma group_fixed_delay_has_no_jitter :
  let out := GroupCreator.createMultipleGroups (fun _ => drawHalf)
               (Some acceptingClient) (str "Kelas") 2 (Some oneParticipant)
               (GroupCreator.mkOptions None (Some 5) None None None)
               None start in
  pacingWaits (trace (snd out)) = [5000]
  /\ ~ exists jitter,
         1000 <= jitter <= 6000
         /\ In (5 * 1000 + jitter) (pacingWaits (trace (snd out))).
Proof.
  cbv zeta.
  assert (E : pacingWaits
                (trace (snd (GroupCreator.createMultipleGroups (fun _ => drawHalf)
                   (Some acceptingClient) (str "Kelas") 2 (Some oneParticipant)
                   (GroupCreator.mkOptions None (Some 5) None None None)
                   None start))) = [5000]) by (vm_compute; reflexivity).
  rewrite E. split; [reflexivity|].
  intros (jitter & Hj & [H|[]]). lia.
Qed.

(** C4, amended. On the message path the wait before every unit after
    the first is D*1000 ms plus the offset
    [Math.floor(Math.random() * 5000 + 1000)] of a draw made for this
    unit alone: in the frame of the run the wait comes just before the
    call of its unit. The offset is an integer of 1000..5999; the
    product and the sum are doubles, their floor is at most
    r * 5000 + 1000 + 2^-40 and more than r * 5000 + 1000 - 2^-40 - 1,
    1000 for the draw 0 and 5999 for the largest draw. On the group path,
    in fixed mode, the wait before every unit after the first is D*1000
    ms exactly and no draw is made. *)
Theorem fixed_delay_waits random c who groupPrefix count ps options cb rc0
    message recipients delaySeconds :
  info c = Some who ->
  fst (GroupCreator.validateParticipants (Some ps) (mkWorld rc0 [])) = Normal tt ->
  quiet cb ->
  0 <= count ->
  1 <= GroupCreator.s_batchSize (GroupCreator.settingsOf options) ->
  0 < GroupCreator.s_delaySeconds (GroupCreator.settingsOf options) ->
  SafeRun count (GroupCreator.settingsOf options) ->
  SafeDelay (match delaySeconds with Some d => d | None => 3 end) ->
  let D := match delaySeconds with Some d => d | None => 3 end in
  let a := GroupRun.mkArgs random c groupPrefix count ps
             (GroupCreator.settingsOf options) cb in
  let m := MessageRun.mkArgs random c message recipients D cb in
  (exists res w' draws,
      MessageSender.sendBulkMessages random (Some c) message recipients
        delaySeconds cb (mkWorld rc0 []) = (Normal res, w')
      /\ frame (trace w')
         = flat_map (MessageRun.batchFrame m draws)
             (range 0 (Z.to_nat (MessageRun.totalBatches m)))
      /\ pacingWaits (trace w')
         = map (fun idx => D * 1000
                           + MessageSender.randomOffset (value (random idx)))
             draws
      /\ NoDup draws
      /\ length draws = (length recipients - 1)%nat
      /\ Forall (fun ms => D * 1000 + 1000 <= ms <= D * 1000 + 5999)
           (pacingWaits (trace w')))
  /\ (forall d : Draw,
        1000 <= MessageSender.randomOffset (value d) <= 5999
        /\ (inject_Z (MessageSender.randomOffset (value d))
            <= value d * 5000 + 1000 + Number.pow2 (-40))%Q
        /\ (value d * 5000 + 1000 - Number.pow2 (-40)
            < inject_Z (MessageSender.randomOffset (value d)) + 1)%Q)
  /\ MessageSender.randomOffset (value drawZero) = 1000
  /\ MessageSender.randomOffset (value drawMax) = 5999
  /\ (exists res w',
        GroupCreator.createMultipleGroups random (Some c) groupPrefix count
          (Some ps) options cb (mkWorld rc0 []) = (Normal res, w')
        /\ frame (trace w')
           = flat_map (GroupRun.batchFrame a rc0)
               (range 0 (Z.to_nat (GroupRun.totalBatches a)))
        /\ (forall k,
              GroupRun.pacingAt a rc0 k
              = GroupCreator.s_delaySeconds (GroupCreator.settingsOf options)
                * 1000)
        /\ pacingWaits (trace w')
           = repeat (GroupCreator.s_delaySeconds (GroupCreator.settingsOf options)
                     * 1000) (Z.to_nat count - 1)
        /\ randomCalls w' = rc0).
Proof.
  intros Hinfo Hvalid Hq Hcount HB HD _ _ D a m.
  split; [|split; [|split; [|split]]].
  - destruct (sendBulkMessages_reached random c who message recipients
                delaySeconds cb rc0 Hinfo Hq) as (res & w' & idxs & E & H).
    exists res, w', idxs. split; [exact E|].
    destruct H as [_ _ _ _ _ _ _ _ _ Hpace Hpc Hnd _ Hfr].
    split; [exact Hfr|].
    split; [exact Hpace|]. split; [exact Hnd|]. split; [exact Hpc|].
    rewrite Hpace. apply Forall_forall. intros ms Hin.
    apply in_map_iff in Hin as (idx & <- & _).
    unfold MessageRun.waitOfDraw. cbn [MessageRun.delaySeconds MessageRun.random].
    pose proof (randomOffset_range (random idx)). fold D. lia.
  - intros d. split; [apply randomOffset_range|apply randomOffset_near].
  - vm_compute. reflexivity.
  - vm_compute. reflexivity.
  - destruct (createMultipleGroups_reached random c who groupPrefix count ps
                options cb rc0 Hinfo Hvalid Hq Hcount HB)
      as (res & w' & E & H).
    exists res, w'. split; [exact E|].
    destruct H as [_ _ _ _ _ _ _ _ _ Hpace Hdraws Hfr].
    assert (Hfixed : (GroupCreator.s_delaySeconds (GroupCreator.settingsOf options)
                      >? 0) = true) by (apply Z.gtb_lt; lia).
    assert (Hwait : forall k,
              GroupRun.pacingAt a rc0 k
              = GroupCreator.s_delaySeconds (GroupCreator.settingsOf options)
                * 1000).
    { intros k. unfold GroupRun.pacingAt, GroupRun.waitTime, a.
      cbn [GroupRun.settings]. now rewrite Hfixed. }
    split; [exact Hfr|]. split; [exact Hwait|].
    split.
    + rewrite Hpace.
      rewrite (map_constant _
                 (GroupCreator.s_delaySeconds (GroupCreator.settingsOf options)
                  * 1000)).
      * now rewrite range_length.
      * exact Hwait.
    + rewrite Hdraws. unfold GroupRun.drawsAfter. cbn [GroupRun.settings].
      rewrite Hfixed. lia.
Qed.

Lemma fixed_delay_waits_witness :
  exists res w',
    GroupCreator.createMultipleGroups (fun _ => drawHalf) (Some acceptingClient)
      (str "Kelas") 3 (Some oneParticipant)
      (GroupCreator.mkOptions None (Some 5) None None None)
      (Some quietCallback) start = (Normal res, w')
    /\ pacingWaits (trace w') = repeat (5 * 1000) (Z.to_nat 3 - 1)
    /\ randomCalls w' = 0%nat.
Proof.
  destruct (fixed_delay_waits (fun _ => drawHalf) acceptingClient
              (str "628000000000@c.us") (str "Kelas") 3 oneParticipant
              (GroupCreator.mkOptions None (Some 5) None None None)
              (Some quietCallback) 0%nat (str "Halo") twoRecipients (Some 2)
              eq_refl eq_refl)
    as (_ & _ & _ & _ & res & w' & E & _ & _ & Hwaits & Hdraws).
  - intros f Hf ev. injection Hf as <-. reflexivity.
  - lia.
  - cbn. lia.
  - cbn. lia.
  - unfold SafeRun, SafeCount, SafeWaits, safeInteger. cbn. lia.
  - unfold SafeDelay, safeInteger. lia.
  - exists res, w'. repeat split; assumption.
Defined.

(* ------------------------------------------------------------------ *)
(** ** Aggregation *)

Lemma filter_split_length {A} (f : A -> bool) (l : list A) :
  (length (filter f l) + length (filter (fun x => negb (f x)) l))%nat = length l.
Proof.
  induction l as [|x l IH]; cbn; [reflexivity|].
  destruct (f x); cbn; lia.
Qed.

Lemma or_default_positive (o : option Z) (d : Z) :
  1 <= d -> (forall b, o = Some b -> 0 <= b) -> 1 <= or_default o d.
Proof.
  intros Hd Ho. destruct o as [b|]; cbn; [|assumption].
  specialize (Ho b eq_refl). destruct (Z.eqb_spec b 0); lia.
Qed.

(** C1, as stated, fails: a run for 3 groups with the batch size -5
    passes the checks made before the loops, makes no pass of the batch
    loop and returns an empty result. *)
Lemma negative_batch_size_empty_result :
  let options := GroupCreator.mkOptions None None None (Some (-5)) None in
  fst (GroupCreator.validateParticipants (Some oneParticipant) start) = Normal tt
  /\ exists res w',
       GroupCreator.createMultipleGroups (fun _ => drawHalf)
         (Some acceptingClient) (str "Kelas") 3 (Some oneParticipant)
         options None start = (Normal res, w')
       /\ GroupCreator.successCount res + GroupCreator.failedCount res <> 3
       /\ len (GroupCreator.groups res) <> 3.
Proof.
  cbv zeta. split; [reflexivity|].
  exists (GroupCreator.mkResults 0 0 []), start.
  split; [reflexivity|]. split; discriminate.
Qed.

(** C1, amended. Every run of [createMultipleGroups] for a count that is
    not negative, with a batch size option that is not negative, the
    numbers of the run being safe integers (so the batch size is finite
    and the group numbers are exact), and every run of
    [sendBulkMessages], that passes the checks made before the loops and
    whose callback does not throw, returns a result whose two counters
    add up to the number of units, with one entry per unit in the log,
    in the order of submission, each entry agreeing with the
    collaborator call made for its unit. *)
Theorem every_unit_accounted_for random c who groupPrefix count ps options cb rc0
    message recipients delaySeconds :
  info c = Some who ->
  fst (GroupCreator.validateParticipants (Some ps) (mkWorld rc0 [])) = Normal tt ->
  quiet cb ->
  0 <= count ->
  (forall b, GroupCreator.batchSize options = Some b -> 0 <= b) ->
  SafeCount count (GroupCreator.settingsOf options) ->
  let a := GroupRun.mkArgs random c groupPrefix count ps
             (GroupCreator.settingsOf options) cb in
  (exists res w',
      GroupCreator.createMultipleGroups random (Some c) groupPrefix count
        (Some ps) options cb (mkWorld rc0 []) = (Normal res, w')
      /\ GroupCreator.successCount res + GroupCreator.failedCount res = count
      /\ len (GroupCreator.groups res) = count
      /\ map (fun g => (GroupCreator.name g, GroupCreator.number g))
           (GroupCreator.groups res)
         = map (fun j => (GroupRun.nameAt a j, GroupRun.numberAt a j))
             (range 0 (Z.to_nat count))
      /\ Forall2 GroupRun.RecordOfCall (GroupCreator.groups res)
           (calls (trace w')))
  /\ (exists res w',
        MessageSender.sendBulkMessages random (Some c) message recipients
          delaySeconds cb (mkWorld rc0 []) = (Normal res, w')
        /\ MessageSender.successCount res + MessageSender.failedCount res
           = len recipients
        /\ len (MessageSender.details res) = len recipients
        /\ map MessageSender.recipient (MessageSender.details res) = recipients
        /\ Forall2 MessageRun.DetailOfCall (MessageSender.details res)
             (calls (trace w'))).
Proof.
  intros Hinfo Hvalid Hq Hcount Hbatch _ a. split.
  - assert (HB : 1 <= GroupCreator.s_batchSize (GroupCreator.settingsOf options))
      by (apply or_default_positive; [lia|assumption]).
    destruct (createMultipleGroups_reached random c who groupPrefix count ps
                options cb rc0 Hinfo Hvalid Hq Hcount HB)
      as (res & w' & E & H).
    exists res, w'. split; [exact E|].
    destruct H as [Hrec Hsuc Hfail Hent _ _ _ _ _ _ _ _].
    assert (Hlen : length (GroupCreator.groups res) = Z.to_nat count).
    { apply (f_equal (@length _)) in Hent.
      now rewrite !length_map, range_length in Hent. }
    pose proof (filter_split_length GroupCreator.success (GroupCreator.groups res)).
    repeat split; try assumption; unfold len; lia.
  - destruct (sendBulkMessages_reached random c who message recipients
                delaySeconds cb rc0 Hinfo Hq) as (res & w' & idxs & E & H).
    exists res, w'. split; [exact E|].
    destruct H as [Hrec Hsuc Hfail Hrcp _ _ _ _ _ _ _ _ _ _].
    rewrite firstn_all in Hrcp.
    assert (Hlen : length (MessageSender.details res) = length recipients).
    { apply (f_equal (@length _)) in Hrcp. now rewrite length_map in Hrcp. }
    pose proof (filter_split_length MessageSender.success
                  (MessageSender.details res)).
    repeat split; try assumption; unfold len; lia.
Qed.

Lemma every_unit_accounted_for_witness :
  exists res w',
    GroupCreator.createMultipleGroups (fun _ => drawHalf) (Some refusingClient)
      (str "Kelas") 25 (Some oneParticipant)
      (GroupCreator.mkOptions None None None (Some 10) None)
      (Some quietCallback) start = (Normal res, w')
    /\ GroupCreator.successCount res + GroupCreator.failedCount res = 25
    /\ len (GroupCreator.groups res) = 25.
Proof.
  destruct (every_unit_accounted_for (fun _ => drawHalf) refusingClient
              (str "628000000000@c.us") (str "Kelas") 25 oneParticipant
              (GroupCreator.mkOptions None None None (Some 10) None)
              (Some quietCallback) 0%nat (str "Halo") twoRecipients (Some 2)
              eq_refl eq_refl)
    as [(res & w' & E & Hsum & Hlen & _) _].
  - intros f Hf ev. injection Hf as <-. reflexivity.
  - lia.
  - intros b Hb. injection Hb as <-. lia.
  - unfold SafeCount, safeInteger. cbn. lia.
  - exists res, w'. repeat split; assumption.
Defined.

(* ------------------------------------------------------------------ *)
(** ** Batches *)




Lemma length_zero_nil {A} (l : list A) : length l = 0%nat -> l = [].
Proof. destruct l; [reflexivity|discriminate]. Qed.



(* ------------------------------------------------------------------ *)
(** ** Failures of single units *)

Lemma rejected_groups gs cs :
  Forall2 GroupRun.RecordOfCall gs cs ->
  Forall2 (fun g cr =>
             match snd cr with
             | Rejected e =>
                 GroupCreator.success g = false
                 /\ GroupCreator.error g = Some (JS.message e)
             | Resolved i =>
                 GroupCreator.success g = true /\ GroupCreator.id g = Some i
             end) gs cs
  /\ length (filter (fun g => negb (GroupCreator.success g)) gs)
     = length (filter rejected cs).
Proof.
  induction 1 as [|g [[nm ps|rcp text] r] gs cs Hg _ [IH1 IH2]].
  - split; [constructor|reflexivity].
  - cbn in Hg. split.
    + constructor; [|exact IH1]. rewrite Hg. destruct r; cbn; split; reflexivity.
    + cbn [filter]. unfold rejected at 1. cbn [snd]. rewrite Hg.
      destruct r; cbn; rewrite ?IH2; reflexivity.
  - destruct Hg.
Qed.

Lemma rejected_details ds cs :
  Forall2 MessageRun.DetailOfCall ds cs ->
  Forall2 (fun d cr =>
             match snd cr with
             | Rejected e =>
                 MessageSender.success d = false
                 /\ MessageSender.error d = Some (JS.message e)
             | Resolved i =>
                 MessageSender.success d = true
                 /\ MessageSender.messageId d = Some i
             end) ds cs
  /\ length (filter (fun d => negb (MessageSender.success d)) ds)
     = length (filter rejected cs).
Proof.
  induction 1 as [|d [[nm ps|rcp text] r] ds cs Hd _ [IH1 IH2]].
  - split; [constructor|reflexivity].
  - destruct Hd.
  - cbn in Hd. split.
    + constructor; [|exact IH1]. rewrite Hd. destruct r; cbn; split; reflexivity.
    + cbn [filter]. unfold rejected at 1. cbn [snd]. rewrite Hd.
      destruct r; cbn; rewrite ?IH2; reflexivity.
Qed.

Lemma recipients_of_calls ds cs :
  Forall2 MessageRun.DetailOfCall ds cs ->
  map (fun cr => match fst cr with
                 | SendMessage recipient _ => recipient
                 | CreateGroup name _ => name
                 end) cs
  = map MessageSender.recipient ds.
Proof.
  induction 1 as [|d [[nm ps|rcp text] r] ds cs Hd _ IH]; cbn.
  - reflexivity.
  - destruct Hd.
  - cbn in Hd. rewrite IH, Hd. destruct r; reflexivity.
Qed.

(** C3. In a run that passes the checks made before the loops and whose
    callback does not throw, a collaborator call that fails aborts
    nothing: the pass of that unit completes, with the failed counter one
    higher and an entry with [success = false] and the message of the
    error pushed on the log; the run returns its result, whose log
    agrees, entry by entry, with the answers of the collaborator, and
    whose failed counter is the number of rejected calls. The iteration
    goes on after a failure: whatever the answers, every recipient is
    called, in the order of the list, and on the group path (count not
    negative, batch size option not negative, safe integers) the calls
    are those of the units 0..N-1 in their order, one entry each. *)
Theorem unit_failure_is_recorded random c who groupPrefix count ps options cb rc0
    message recipients delaySeconds :
  info c = Some who ->
  fst (GroupCreator.validateParticipants (Some ps) (mkWorld rc0 [])) = Normal tt ->
  quiet cb ->
  let a := GroupRun.mkArgs random c groupPrefix count ps
             (GroupCreator.settingsOf options) cb in
  let D := match delaySeconds with Some d => d | None => 3 end in
  (exists res w',
      GroupCreator.createMultipleGroups random (Some c) groupPrefix count
        (Some ps) options cb (mkWorld rc0 []) = (Normal res, w')
      /\ Forall2 (fun g cr =>
                    match snd cr with
                    | Rejected e =>
                        GroupCreator.success g = false
                        /\ GroupCreator.error g = Some (JS.message e)
                    | Resolved i =>
                        GroupCreator.success g = true
                        /\ GroupCreator.id g = Some i
                    end) (GroupCreator.groups res) (calls (trace w'))
      /\ GroupCreator.failedCount res
         = Z.of_nat (length (filter rejected (calls (trace w'))))
      /\ (0 <= count ->
          (forall b, GroupCreator.batchSize options = Some b -> 0 <= b) ->
          SafeCount count (GroupCreator.settingsOf options) ->
          map fst (calls (trace w'))
          = map (fun j => CreateGroup (GroupRun.nameAt a j) ps)
              (range 0 (Z.to_nat count))
          /\ len (GroupCreator.groups res) = count))
  /\ (exists res w',
        MessageSender.sendBulkMessages random (Some c) message recipients
          delaySeconds cb (mkWorld rc0 []) = (Normal res, w')
        /\ Forall2 (fun d cr =>
                      match snd cr with
                      | Rejected e =>
                          MessageSender.success d = false
                          /\ MessageSender.error d = Some (JS.message e)
                      | Resolved i =>
                          MessageSender.success d = true
                          /\ MessageSender.messageId d = Some i
                      end) (MessageSender.details res) (calls (trace w'))
        /\ MessageSender.failedCount res
           = Z.of_nat (length (filter rejected (calls (trace w'))))
        /\ length (calls (trace w')) = length recipients
        /\ map (fun cr => match fst cr with
                          | SendMessage recipient _ => recipient
                          | CreateGroup name _ => name
                          end) (calls (trace w'))
           = recipients)
  /\ (forall batchIndex batchStart currentBatchSize i res w e,
        (forall tr, createGroup c tr (GroupRun.nameAt a (batchStart + i)) ps
                    = Rejected e) ->
        exists w',
          GroupCreator.createUnit random c groupPrefix count ps
            (GroupCreator.settingsOf options) cb (GroupRun.maxDigits a)
            (GroupRun.totalBatches a) batchIndex batchStart currentBatchSize
            i res w
          = (Normal (GroupCreator.mkResults (GroupCreator.successCount res)
                       (GroupCreator.failedCount res + 1)
                       (GroupCreator.groups res
                        ++ [GroupCreator.mkGroupRecord
                              (GroupRun.nameAt a (batchStart + i))
                              (GroupRun.numberAt a (batchStart + i))
                              None false (Some (JS.message e))])), w'))
  /\ (forall batchIndex totalBatches batchStart batchRecipients i res w e,
        (forall tr text,
            sendMessage c tr (nth (Z.to_nat i) batchRecipients []) text
            = Rejected e) ->
        exists w',
          MessageSender.sendUnit random c message (len recipients) D cb
            batchIndex totalBatches batchStart batchRecipients i res w
          = (Normal (MessageSender.mkResults (MessageSender.successCount res)
                       (MessageSender.failedCount res + 1)
                       (MessageSender.details res
                        ++ [MessageSender.mkDetail
                              (nth (Z.to_nat i) batchRecipients [])
                              false None (Some (JS.message e))])), w')).
Proof.
  intros Hinfo Hvalid Hq a D.
  split; [|split; [|split]].
  - destruct (createMultipleGroups_sound random c who groupPrefix count ps
                options cb rc0 Hinfo Hvalid Hq) as (res & w' & E & [H1 _ H3 _]).
    destruct (rejected_groups _ _ H1) as [Hagree Hcount].
    exists res, w'. split; [exact E|]. split; [exact Hagree|].
    split; [now rewrite H3, Hcount|].
    intros Hn Hbatch _.
    assert (HB : 1 <= GroupCreator.s_batchSize (GroupCreator.settingsOf options))
      by (apply or_default_positive; [lia|assumption]).
    destruct (createMultipleGroups_reached random c who groupPrefix count ps
                options cb rc0 Hinfo Hvalid Hq Hn HB)
      as (res2 & w2 & E2 & H).
    rewrite E in E2. injection E2 as <- <-.
    destruct H as [_ _ _ Hent Hcalls _ _ _ _ _ _ _].
    split; [exact Hcalls|].
    apply (f_equal (@length _)) in Hent.
    rewrite !length_map, range_length in Hent. unfold len. lia.
  - destruct (sendBulkMessages_reached random c who message recipients
                delaySeconds cb rc0 Hinfo Hq) as (res & w' & idxs & E & H).
    destruct H as [H1 _ H3 Hrcp _ _ _ _ _ _ _ _ _ _].
    destruct (rejected_details _ _ H1) as [Hagree Hcount].
    exists res, w'. split; [exact E|]. split; [exact Hagree|].
    split; [now rewrite H3, Hcount|].
    split.
    + rewrite <- (Forall2_length H1).
      apply (f_equal (@length _)) in Hrcp.
      now rewrite length_map, firstn_all in Hrcp.
    + rewrite (recipients_of_calls _ _ H1), Hrcp. apply firstn_all.
  - intros batchIndex batchStart currentBatchSize i res w e Hrej.
    pose proof (createUnit_equation a batchIndex batchStart currentBatchSize
                  i res w) as E.
    subst a. cbv zeta in E. cbn [GroupRun.random GroupRun.client GroupRun.groupPrefix
      GroupRun.count GroupRun.participants GroupRun.settings
      GroupRun.progressCallback] in E.
    rewrite E, Hrej. cbn [GroupRun.pushResult GroupRun.recordOf].
    destruct cb as [f|].
    + rewrite (Hq f eq_refl). eexists; reflexivity.
    + eexists; reflexivity.
  - intros batchIndex totalBatches batchStart batchRecipients i res w e Hrej.
    unfold MessageSender.sendUnit, try_catch. unfold bind at 1 2 3.
    destruct w as [rc tr].
    destruct (batchStart + i >? 0).
    + unfold MessageSender.getRandomizedDelay, delay, bind at 2 3, Math_random,
        ret, emit. cbn [randomCalls trace].
      destruct (addMessageVariation_world random message
                  (mkWorld (S rc) (tr ++ [EvDelay Pacing
                     (D * 1000
                      + MessageSender.randomOffset (value (random rc)))])))
        as (text & w2 & E & _).
      unfold bind. cbn [randomCalls trace]. rewrite E.
      unfold call_sendMessage. rewrite Hrej. unfold notify.
      destruct cb as [f|].
      * rewrite (Hq f eq_refl). eexists; reflexivity.
      * eexists; reflexivity.
    + unfold ret at 1.
      destruct (addMessageVariation_world random message (mkWorld rc tr))
        as (text & w2 & E & _).
      unfold bind. rewrite E.
      unfold call_sendMessage. rewrite Hrej. unfold notify, ret.
      destruct cb as [f|].
      * rewrite (Hq f eq_refl). eexists; reflexivity.
      * eexists; reflexivity.
Qed.

Lemma unit_failure_is_recorded_witness :
  exists res w',
    GroupCreator.createMultipleGroups (fun _ => drawHalf) (Some refusingClient)
      (str "Kelas") 5 (Some oneParticipant) GroupCreator.no_options
      (Some quietCallback) start = (Normal res, w')
    /\ GroupCreator.failedCount res
       = Z.of_nat (length (filter rejected (calls (trace w')))).
Proof.
  destruct (unit_failure_is_recorded (fun _ => drawHalf) refusingClient
              (str "628000000000@c.us") (str "Kelas") 5 oneParticipant
              GroupCreator.no_options (Some quietCallback) 0%nat
              (str "Halo") twoRecipients (Some 2) eq_refl eq_refl)
    as [(res & w' & E & _ & Hfailed & _) _].
  - intros f Hf ev. injection Hf as <-. reflexivity.
  - exists res, w'. split; assumption.
Defined.

(* ------------------------------------------------------------------ *)
(** ** Validation *)

Lemma filter_nil_forall {A} (f : A -> bool) (l : list A) :
  filter (fun x => negb (f x)) l = [] <-> Forall (fun x => f x = true) l.
Proof.
  induction l as [|x l IH]; cbn.
  - split; constructor.
  - destruct (f x) eqn:E; cbn.
    + rewrite IH. split; [now constructor|now inversion 1].
    + split; [discriminate|]. inversion 1; congruence.
Qed.

(** What [validateParticipants] accepts. *)
Lemma validateParticipants_accepts ps w :
  fst (GroupCreator.validateParticipants (Some ps) w) = Normal tt
  <-> ps <> [] /\ len ps <= 256
      /\ Forall (fun p => GroupCreator.matchesPhone p = true) ps.
Proof.
  unfold GroupCreator.validateParticipants, throw, ret.
  destruct (Z.eqb_spec (len ps) 0) as [H0|H0].
  { split; [discriminate|]. intros (Hne & _). apply nonempty_length in Hne.
    unfold len in H0. lia. }
  destruct (Z.gtb_spec (len ps) 256) as [H1|H1].
  { split; [discriminate|]. intros (_ & Hle & _). lia. }
  destruct (Z.gtb_spec
              (len (filter (fun n => negb (GroupCreator.matchesPhone n)) ps)) 0)
    as [H2|H2].
  - split; [discriminate|]. intros (_ & _ & Hall).
    apply filter_nil_forall in Hall. rewrite Hall in H2. cbn in H2. lia.
  - split; [|reflexivity]. intros _. split.
    + intros ->. now apply H0.
    + split; [lia|]. apply filter_nil_forall. apply length_zero_nil.
      unfold len in H2. lia.
Qed.

(** What it does not accept, it rejects without any effect. *)
Lemma validateParticipants_rejects participants w :
  fst (GroupCreator.validateParticipants participants w) <> Normal tt ->
  exists e, GroupCreator.validateParticipants participants w = (Throw e, w).
Proof.
  intros H. pose proof (validateParticipants_world participants w) as Hw.
  destruct (GroupCreator.validateParticipants participants w) as [[[]|e] w1];
    cbn [fst snd] in *; subst w1.
  - now contradiction H.
  - now exists e.
Qed.

Lemma createMultipleGroups_rejects random c groupPrefix count participants
    options cb w :
  fst (GroupCreator.validateParticipants participants w) <> Normal tt ->
  exists e,
    GroupCreator.createMultipleGroups random (Some c) groupPrefix count
      participants options cb w = (Throw e, w).
Proof.
  intros H. unfold GroupCreator.createMultipleGroups.
  destruct (info c); [|eexists; reflexivity].
  destruct (validateParticipants_rejects participants w H) as (e & E).
  exists e. unfold bind at 1. now rewrite E.
Qed.

(** C5, as stated, fails on the message path: [sendBulkMessages] checks
    no recipient, and the malformed identifier "abc" is passed to
    [client.sendMessage]. *)
Lemma message_path_sends_malformed_recipient :
  GroupCreator.matchesPhone (str "abc") = false
  /\ calls (trace (snd (MessageSender.sendBulkMessages (fun _ => drawZero)
                          (Some acceptingClient) (str "Halo") [str "abc"]
                          (Some 3) None start)))
     = [(SendMessage (str "abc") (str "Halo"),
         Resolved (str "true_628123456789@c.us_3EB0"))].
Proof. split; reflexivity. Qed.

(** C5, amended. On the group path, however the run ends, every
    collaborator call carries the participant list that was given, and
    every identifier of that list matches ^\d+@c\.us$; a list with a
    malformed identifier makes the run throw with nothing done, no call
    made. On the message path no recipient is checked: each is passed to
    the collaborator as given. *)
Theorem group_participants_validated random client groupPrefix count participants
    options cb rc0 c who message recipients delaySeconds cbm :
  info c = Some who ->
  quiet cbm ->
  let out := GroupCreator.createMultipleGroups random client groupPrefix count
               participants options cb (mkWorld rc0 []) in
  Forall (fun cr => exists name ps,
            fst cr = CreateGroup name ps
            /\ participants = Some ps
            /\ Forall (fun p => GroupCreator.matchesPhone p = true) ps)
    (calls (trace (snd out)))
  /\ (forall ps p,
        participants = Some ps -> In p ps ->
        GroupCreator.matchesPhone p = false ->
        exists e, out = (Throw e, mkWorld rc0 []))
  /\ (exists res w',
        MessageSender.sendBulkMessages random (Some c) message recipients
          delaySeconds cbm (mkWorld rc0 []) = (Normal res, w')
        /\ map (fun cr => match fst cr with
                          | SendMessage recipient _ => recipient
                          | CreateGroup name _ => name
                          end) (calls (trace w'))
           = recipients).
Proof.
  intros Hinfo Hq out. split; [|split].
  - destruct (createMultipleGroups_calls random client groupPrefix count
                participants options cb rc0) as [Hnone|(ps & Hps & Hok & Hcalls)].
    + fold out in Hnone. rewrite Hnone. constructor.
    + fold out in Hcalls. subst participants.
      apply validateParticipants_accepts in Hok as (_ & _ & Hall).
      eapply Forall_impl; [|exact Hcalls].
      intros cr (name & Hname). exists name, ps. repeat split; assumption.
  - intros ps p -> Hin Hbad. subst out.
    destruct client as [c'|]; [|eexists; reflexivity].
    apply createMultipleGroups_rejects.
    intros Hok. apply validateParticipants_accepts in Hok as (_ & _ & Hall).
    rewrite Forall_forall in Hall. specialize (Hall p Hin). congruence.
  - destruct (sendBulkMessages_reached random c who message recipients
                delaySeconds cbm rc0 Hinfo Hq) as (res & w' & idxs & E & H).
    exists res, w'. split; [exact E|].
    destruct H as [Hrec _ _ Hrcp _ _ _ _ _ _ _ _ _ _].
    rewrite (recipients_of_calls _ _ Hrec), Hrcp. apply firstn_all.
Qed.

Lemma group_participants_validated_witness :
  exists e,
    GroupCreator.createMultipleGroups (fun _ => drawHalf) (Some acceptingClient)
      (str "Kelas") 5 (Some [str "628123456789@c.us"; str "abc"])
      GroupCreator.no_options None start = (Throw e, start).
Proof.
  refine (proj1 (proj2 (group_participants_validated (fun _ => drawHalf)
            (Some acceptingClient) (str "Kelas") 5
            (Some [str "628123456789@c.us"; str "abc"]) GroupCreator.no_options
            None 0%nat acceptingClient (str "628000000000@c.us") (str "Halo")
            twoRecipients (Some 2) None eq_refl _))
            [str "628123456789@c.us"; str "abc"] (str "abc") eq_refl _ eq_refl).
  - intros f Hf. discriminate Hf.
  - right. left. reflexivity.
Defined.

(** C8, as stated, fails: a batch size of 0 is not rejected. The default
    of 10 takes its place and the run proceeds: here one group is asked
    for, one call is made and one entry is logged. *)
Lemma zero_batch_size_not_rejected :
  exists res w',
    GroupCreator.createMultipleGroups (fun _ => drawHalf) (Some acceptingClient)
      (str "Kelas") 1 (Some oneParticipant)
      (GroupCreator.mkOptions None None None (Some 0) None) None start
    = (Normal res, w')
    /\ length (calls (trace w')) = 1%nat
    /\ length (GroupCreator.groups res) = 1%nat.
Proof.
  set (out := GroupCreator.createMultipleGroups _ _ _ _ _ _ _ _).
  vm_compute in out. subst out.
  eexists; eexists. split; [reflexivity|]. split; reflexivity.
Qed.

(** C8, amended. If the client is missing or not ready, or the
    participant list is missing, empty, longer than 256 or holds a
    malformed identifier, [createMultipleGroups] throws with nothing
    done: no call, no wait, no batch line, no report and no result;
    [sendBulkMessages] does so when the client is missing or not ready.
    The batch size is not checked: in every run a batch size of 0 is the
    same as no batch size, the default of 10, and with it a run for
    N >= 0 groups that passes the checks (callback that does not throw,
    safe integers) is not rejected: it calls the collaborator N times
    and returns N entries. An empty list of units is not rejected either:
    a count of 0, or no recipient, gives at once an empty result. *)
Theorem rejected_before_any_unit random client groupPrefix count participants
    options cb w message recipients delaySeconds :
  ((client = None
    \/ (exists c, client = Some c /\ info c = None)
    \/ participants = None
    \/ participants = Some []
    \/ (exists ps, participants = Some ps /\ 256 < len ps)
    \/ (exists ps p, participants = Some ps /\ In p ps
                     /\ GroupCreator.matchesPhone p = false)) ->
   exists e,
     GroupCreator.createMultipleGroups random client groupPrefix count
       participants options cb w = (Throw e, w))
  /\ (client = None \/ (exists c, client = Some c /\ info c = None) ->
      exists e,
        MessageSender.sendBulkMessages random client message recipients
          delaySeconds cb w = (Throw e, w))
  /\ (forall s d p bc,
        GroupCreator.s_batchSize
          (GroupCreator.settingsOf (GroupCreator.mkOptions s d p (Some 0) bc))
        = 10
        /\ GroupCreator.createMultipleGroups random client groupPrefix count
             participants (GroupCreator.mkOptions s d p (Some 0) bc) cb w
           = GroupCreator.createMultipleGroups random client groupPrefix count
               participants (GroupCreator.mkOptions s d p None bc) cb w)
  /\ (forall c who ps s d p bc rc0,
        info c = Some who ->
        fst (GroupCreator.validateParticipants (Some ps) (mkWorld rc0 []))
        = Normal tt ->
        quiet cb ->
        0 <= count ->
        SafeCount count
          (GroupCreator.settingsOf (GroupCreator.mkOptions s d p (Some 0) bc)) ->
        exists res w',
          GroupCreator.createMultipleGroups random (Some c) groupPrefix count
            (Some ps) (GroupCreator.mkOptions s d p (Some 0) bc) cb
            (mkWorld rc0 [])
          = (Normal res, w')
          /\ len (GroupCreator.groups res) = count
          /\ len (calls (trace w')) = count)
  /\ (forall c who ps,
        info c = Some who ->
        fst (GroupCreator.validateParticipants (Some ps) w) = Normal tt ->
        GroupCreator.createMultipleGroups random (Some c) groupPrefix 0
          (Some ps) options cb w
        = (Normal (GroupCreator.mkResults 0 0 []), w))
  /\ (forall c who,
        info c = Some who ->
        MessageSender.sendBulkMessages random (Some c) message [] delaySeconds
          cb w
        = (Normal (MessageSender.mkResults 0 0 []), w)).
Proof.
  split; [|split; [|split; [|split; [|split]]]].
  - intros Hbad.
    destruct client as [c|]; [|eexists; reflexivity].
    destruct Hbad as [H|[(c' & Hc & Hinfo)|Hbad]]; [discriminate| |].
    { injection Hc as <-. unfold GroupCreator.createMultipleGroups.
      rewrite Hinfo. eexists; reflexivity. }
    apply createMultipleGroups_rejects.
    destruct Hbad as [->|[->|[(ps & -> & Hlong)|(ps & p & -> & Hin & Hp)]]];
      try discriminate;
      intros Hok; apply validateParticipants_accepts in Hok as (_ & Hle & Hall).
    + lia.
    + rewrite Forall_forall in Hall. specialize (Hall p Hin). congruence.
  - intros [->|(c & -> & Hinfo)]; unfold MessageSender.sendBulkMessages;
      [|rewrite Hinfo]; eexists; reflexivity.
  - intros s d p bc. split; reflexivity.
  - intros c who ps s d p bc rc0 Hinfo Hok Hq Hcount _.
    destruct (createMultipleGroups_reached random c who groupPrefix count ps
                (GroupCreator.mkOptions s d p (Some 0) bc) cb rc0 Hinfo Hok Hq
                Hcount ltac:(cbn; lia))
      as (res & w' & E & H).
    exists res, w'. split; [exact E|].
    destruct H as [Hrec _ _ Hent _ _ _ _ _ _ _ _].
    apply (f_equal (@length _)) in Hent.
    rewrite !length_map, range_length in Hent.
    pose proof (Forall2_length Hrec) as Hsame.
    unfold len. split; lia.
  - intros c who ps Hinfo Hok.
    unfold GroupCreator.createMultipleGroups. rewrite Hinfo. unfold bind at 1.
    pose proof (validateParticipants_world (Some ps) w) as Hw.
    destruct (GroupCreator.validateParticipants (Some ps) w) as [cpl w1].
    cbn [fst snd] in *. subst cpl w1.
    apply for_loop_nonpositive.
    unfold GroupCreator.totalBatchesOf. rewrite ceil_quotient.
    change (- 0) with 0. rewrite Zdiv_0_l. lia.
  - intros c who Hinfo. unfold MessageSender.sendBulkMessages.
    rewrite Hinfo. reflexivity.
Qed.

Lemma rejected_before_any_unit_witness :
  exists e,
    GroupCreator.createMultipleGroups (fun _ => drawHalf) (Some acceptingClient)
      (str "Kelas") 5 (Some [str "abc"]) GroupCreator.no_options
      (Some quietCallback) start = (Throw e, start).
Proof.
  refine (proj1 (rejected_before_any_unit (fun _ => drawHalf)
            (Some acceptingClient) (str "Kelas") 5 (Some [str "abc"])
            GroupCreator.no_options (Some quietCallback) start (str "Halo")
            twoRecipients (Some 2)) _).
  do 5 right. exists [str "abc"], (str "abc").
  split; [reflexivity|]. split; [left; reflexivity|reflexivity].
Defined.

(* ------------------------------------------------------------------ *)
(** ** Group names *)

(** C10, as stated, fails: numbering from -10 with padding, the three
    names end in "-10", "-9" and "-8", of lengths 3, 2 and 2. *)
Lemma negative_start_unequal_numbers :
  exists res w',
    GroupCreator.createMultipleGroups (fun _ => drawHalf) (Some acceptingClient)
      (str "Kelas") 3 (Some oneParticipant)
      (GroupCreator.mkOptions (Some (-10)) None (Some true) None None)
      None start = (Normal res, w')
    /\ map GroupCreator.name (GroupCreator.groups res)
       = [str "Kelas -10"; str "Kelas -9"; str "Kelas -8"]
    /\ map (fun g => len (GroupCreator.name g) - len (str "Kelas "))
         (GroupCreator.groups res)
       = [3; 2; 2].
Proof.
  set (out := GroupCreator.createMultipleGroups _ _ _ _ _ _ _ _).
  vm_compute in out. subst out.
  eexists; eexists. split; [reflexivity|]. split; reflexivity.
Qed.

(** C10, amended. In a run whose starting number option is not negative
    and whose numbers are safe integers (so that the group numbers are
    the exact sums, written in decimal digits), every group name is the
    prefix, a space and the number of the group. With padNumbers the
    number is padded with zeros on the left to exactly the number of
    digits of startingNumber + count - 1, so the numbers of one run all
    have that length; without it the number is rendered as it is. *)
Theorem padded_group_names random c who groupPrefix count ps options cb rc0 :
  info c = Some who ->
  fst (GroupCreator.validateParticipants (Some ps) (mkWorld rc0 [])) = Normal tt ->
  quiet cb ->
  (forall s, GroupCreator.startingNumber options = Some s -> 0 <= s) ->
  SafeCount count (GroupCreator.settingsOf options) ->
  let width :=
    len (toString (GroupCreator.s_startingNumber (GroupCreator.settingsOf options)
                   + count - 1)) in
  exists res w',
    GroupCreator.createMultipleGroups random (Some c) groupPrefix count (Some ps)
      options cb (mkWorld rc0 []) = (Normal res, w')
    /\ Forall (fun g =>
         (GroupCreator.padNumbers options = Some true ->
          exists numeric,
            GroupCreator.name g = groupPrefix ++ str " " ++ numeric
            /\ numeric = padStart0 (toString (GroupCreator.number g)) width
            /\ len numeric = width)
         /\ (GroupCreator.padNumbers options <> Some true ->
             GroupCreator.name g
             = groupPrefix ++ str " " ++ toString (GroupCreator.number g)))
         (GroupCreator.groups res).
Proof.
  intros Hinfo Hvalid Hq Hstart _ width.
  destruct (createMultipleGroups_sound random c who groupPrefix count ps
              options cb rc0 Hinfo Hvalid Hq) as (res & w' & E & [_ _ _ Hunits]).
  exists res, w'. split; [exact E|].
  eapply Forall_impl; [|exact Hunits].
  intros g (j & Hj & Hnum & Hname).
  unfold GroupRun.nameAt, GroupRun.maxDigits, GroupCreator.groupNameOf,
    GroupCreator.formatNumber, GroupRun.numberAt in *.
  cbn [GroupRun.settings GroupRun.count GroupRun.groupPrefix] in *.
  fold width in Hname. rewrite <- Hnum in Hname.
  assert (H1 : 1 <= GroupCreator.s_startingNumber (GroupCreator.settingsOf options))
    by (apply or_default_positive; [lia|assumption]).
  unfold GroupCreator.settingsOf in Hname at 1. cbn [GroupCreator.s_padNumbers] in Hname.
  split.
  - intros Hpad. rewrite Hpad in Hname. cbn [or_false] in Hname.
    eexists. split; [exact Hname|]. split; [reflexivity|].
    apply padStart0_length. unfold width, len.
    apply inj_le. apply toString_length_mono. lia.
  - intros Hpad. rewrite Hname.
    destruct (GroupCreator.padNumbers options) as [[|]|]; cbn [or_false];
      [congruence|reflexivity|reflexivity].
Qed.

Lemma padded_group_names_witness :
  exists res w',
    GroupCreator.createMultipleGroups (fun _ => drawHalf) (Some acceptingClient)
      (str "Kelas") 12 (Some oneParticipant)
      (GroupCreator.mkOptions (Some 95) (Some 1) (Some true) None None)
      (Some quietCallback) start = (Normal res, w')
    /\ Forall (fun g =>
         exists numeric,
           GroupCreator.name g = str "Kelas" ++ str " " ++ numeric
           /\ len numeric = 3)
         (GroupCreator.groups res).
Proof.
  destruct (padded_group_names (fun _ => drawHalf) acceptingClient
              (str "628000000000@c.us") (str "Kelas") 12 oneParticipant
              (GroupCreator.mkOptions (Some 95) (Some 1) (Some true) None None)
              (Some quietCallback) 0%nat eq_refl eq_refl)
    as (res & w' & E & H).
  - intros f Hf ev. injection Hf as <-. reflexivity.
  - intros s Hs. injection Hs as <-. lia.
  - unfold SafeCount, safeInteger. cbn. lia.
  - exists res, w'. split; [exact E|].
    eapply Forall_impl; [|exact H].
    intros g [Hpad _]. destruct (Hpad eq_refl) as (numeric & Hname & _ & Hlen).
    exists numeric. split; [exact Hname|exact Hlen].
Defined.

(* ================================================================== *)
(** * Further properties of the code *)

(** ** Strings *)

Lemma jsstring_eqb_eq a b : jsstring_eqb a b = true <-> a = b.
Proof.
  revert b. induction a as [|x a IH]; intros [|y b]; cbn;
    try (split; [discriminate|discriminate]).
  - split; reflexivity.
  - rewrite andb_true_iff, Z.eqb_eq, IH. split.
    + now intros [-> ->].
    + intros E. injection E as -> ->. now split.
Qed.

Lemma skipDigits_app ds rest :
  forallb GroupCreator.isDigit ds = true ->
  GroupCreator.skipDigits (ds ++ rest) = GroupCreator.skipDigits rest.
Proof.
  induction ds as [|c ds IH]; cbn [forallb app]; [reflexivity|].
  intros H. apply andb_true_iff in H as [Hc Hds].
  cbn [GroupCreator.skipDigits]. rewrite Hc. now apply IH.
Qed.

Lemma skipDigits_split s :
  exists ds, forallb GroupCreator.isDigit ds = true
             /\ s = ds ++ GroupCreator.skipDigits s.
Proof.
  induction s as [|c s (ds & Hds & E)].
  - now exists [].
  - cbn [GroupCreator.skipDigits].
    destruct (GroupCreator.isDigit c) eqn:Hc.
    + exists (c :: ds). cbn [forallb app]. rewrite Hc, Hds. split; [reflexivity|].
      now rewrite <- E.
    + now exists [].
Qed.

Lemma matchesPhone_shape p :
  GroupCreator.matchesPhone p = true <-> PhoneShape p.
Proof.
  unfold GroupCreator.matchesPhone, PhoneShape. split.
  - destruct p as [|c rest]; [discriminate|].
    intros H. apply andb_true_iff in H as [Hc Hrest].
    apply jsstring_eqb_eq in Hrest.
    destruct (skipDigits_split rest) as (ds & Hds & E).
    exists (c :: ds). cbn [forallb]. rewrite Hc, Hds.
    split; [discriminate|]. split; [reflexivity|].
    cbn [app]. now rewrite <- Hrest, <- E.
  - intros (ds & Hne & Hds & ->).
    destruct ds as [|c ds]; [now contradiction Hne|].
    cbn [forallb] in Hds. apply andb_true_iff in Hds as [Hc Hds].
    cbn [app]. rewrite Hc, skipDigits_app by exact Hds. reflexivity.
Qed.

Lemma filter_digits_all s :
  forallb GroupCreator.isDigit (filter GroupCreator.isDigit s) = true.
Proof.
  induction s as [|c s IH]; [reflexivity|]. cbn [filter].
  destruct (GroupCreator.isDigit c) eqn:Hc; [|exact IH].
  cbn [forallb]. now rewrite Hc, IH.
Qed.

Lemma filter_digits_id ds :
  forallb GroupCreator.isDigit ds = true -> filter GroupCreator.isDigit ds = ds.
Proof.
  induction ds as [|c ds IH]; [reflexivity|]. cbn [forallb filter].
  intros H. apply andb_true_iff in H as [Hc Hds]. rewrite Hc. f_equal. now apply IH.
Qed.

(** A string of digits contains no ["@c.us"]. *)
Lemma digits_exclude_suffix ds :
  forallb GroupCreator.isDigit ds = true ->
  Text.includes ds (str "@c.us") = false.
Proof.
  induction ds as [|c ds IH]; [reflexivity|]. cbn [forallb].
  intros H. apply andb_true_iff in H as [Hc Hds].
  cbn [Text.includes]. rewrite (IH Hds), orb_false_r.
  change (str "@c.us") with [64; 99; 46; 117; 115]. cbn [startsWith].
  unfold GroupCreator.isDigit in Hc.
  destruct (Z.eqb_spec 64 c); [lia|reflexivity].
Qed.

Lemma digit_not_space c :
  GroupCreator.isDigit c = true -> Text.isWhiteSpace c = false.
Proof.
  unfold GroupCreator.isDigit, Text.isWhiteSpace. intros H.
  apply andb_true_iff in H as [H1 H2].
  apply Z.leb_le in H1. apply Z.leb_le in H2.
  repeat match goal with
         | |- context [?a =? ?b] => destruct (Z.eqb_spec a b); [lia|]
         end.
  destruct (Z.leb_spec 8192 c); [lia|reflexivity].
Qed.

Lemma filter_digits_trimStart s :
  filter GroupCreator.isDigit (Text.trimStart s) = filter GroupCreator.isDigit s.
Proof.
  induction s as [|c s IH]; [reflexivity|]. cbn [Text.trimStart].
  destruct (Text.isWhiteSpace c) eqn:Hc; [|reflexivity].
  cbn [filter]. destruct (GroupCreator.isDigit c) eqn:Hd; [|exact IH].
  apply digit_not_space in Hd. congruence.
Qed.

Lemma filter_rev {A} (f : A -> bool) l : filter f (rev l) = rev (filter f l).
Proof.
  induction l as [|x l IH]; [reflexivity|]. cbn [rev filter].
  rewrite filter_app, IH. cbn [filter]. destruct (f x); cbn [rev].
  - reflexivity.
  - now rewrite app_nil_r.
Qed.

(** Trimming removes no digit. *)
Lemma filter_digits_trim s :
  filter GroupCreator.isDigit (Text.trim s) = filter GroupCreator.isDigit s.
Proof.
  unfold Text.trim, Text.trimEnd.
  rewrite filter_rev, filter_digits_trimStart, filter_rev, rev_involutive.
  apply filter_digits_trimStart.
Qed.

(** Without the separator there is one piece. *)
Lemma split_without sep s : ~ In sep s -> Text.split sep s = [s].
Proof.
  induction s as [|c s IH]; [reflexivity|]. intros H. cbn [Text.split].
  destruct (Z.eqb_spec c sep) as [->|Hne]; [exfalso; apply H; now left|].
  rewrite IH; [reflexivity|]. intros Hin. apply H. now right.
Qed.

Lemma includes_unit s c : Text.includes s [c] = false -> ~ In c s.
Proof.
  induction s as [|x s IH]; [intros _ []|]. cbn [Text.includes startsWith].
  intros H. apply orb_false_iff in H as [Hx Hs]. rewrite andb_true_r in Hx.
  intros [E|Hin]; [subst; rewrite Z.eqb_refl in Hx; discriminate|].
  now apply IH.
Qed.

Lemma split_with sep p rest :
  ~ In sep p -> Text.split sep (p ++ sep :: rest) = p :: Text.split sep rest.
Proof.
  induction p as [|c p IH]; intros H.
  - cbn [app Text.split]. now rewrite Z.eqb_refl.
  - cbn [app Text.split].
    destruct (Z.eqb_spec c sep) as [->|Hne]; [exfalso; apply H; now left|].
    rewrite IH; [reflexivity|]. intros Hin. apply H. now right.
Qed.

(** Splitting undoes joining, when no piece holds the separator. *)
Lemma split_join sep pieces :
  pieces <> [] -> Forall (fun p => ~ In sep p) pieces ->
  Text.split sep (join [sep] pieces) = pieces.
Proof.
  induction pieces as [|p pieces IH]; [congruence|]. intros _ H.
  inversion H as [|? ? Hp Hrest]; subst.
  destruct pieces as [|q pieces].
  - cbn [join]. now apply split_without.
  - change (join [sep] (p :: q :: pieces)) with (p ++ sep :: join [sep] (q :: pieces)).
    rewrite split_with by exact Hp. f_equal. apply IH; [discriminate|exact Hrest].
Qed.

(** ** [parseParticipants] *)

Lemma filter_map_swap {A B} (f : B -> bool) (g : A -> B) l :
  filter f (map g l) = map g (filter (fun x => f (g x)) l).
Proof.
  induction l as [|x l IH]; [reflexivity|]. cbn [map filter].
  destruct (f (g x)); cbn [map]; now rewrite IH.
Qed.

(** The pieces are those of [split], comma or not, and the suffix is
    always added. *)
Lemma parseParticipants_pieces s :
  Commands.parseParticipants s
  = map identifierOf (filter nonBlank (Text.split 44 s)).
Proof.
  unfold Commands.parseParticipants.
  assert (Hparts : (if Text.includes s (str ",") then Text.split 44 s else [s])
                   = Text.split 44 s).
  { destruct (Text.includes s (str ",")) eqn:E; [reflexivity|].
    symmetry. apply split_without. now apply includes_unit. }
  rewrite Hparts, filter_map_swap, map_map. apply map_ext. intros part.
  unfold identifierOf.
  rewrite digits_exclude_suffix by apply filter_digits_all.
  cbn [negb]. now rewrite filter_digits_trim.
Qed.

Lemma identifier_matches part :
  GroupCreator.matchesPhone (identifierOf part)
  = existsb GroupCreator.isDigit part.
Proof.
  unfold identifierOf.
  induction part as [|c part IH]; [reflexivity|]. cbn [filter existsb].
  destruct (GroupCreator.isDigit c) eqn:Hc; [|exact IH].
  cbn [app GroupCreator.matchesPhone orb]. rewrite Hc.
  rewrite skipDigits_app by apply filter_digits_all. reflexivity.
Qed.

Lemma trimStart_id c s :
  Text.isWhiteSpace c = false -> Text.trimStart (c :: s) = c :: s.
Proof. intros H. cbn [Text.trimStart]. now rewrite H. Qed.

(** An identifier has nothing to trim, holds no comma, and is made of
    its own digits. *)
Lemma identifier_fixed part :
  let p := identifierOf part in
  Text.trim p = p /\ ~ In 44 p /\ identifierOf p = p.
Proof.
  cbn zeta. unfold identifierOf.
  set (ds := filter GroupCreator.isDigit part).
  assert (Hds : forallb GroupCreator.isDigit ds = true)
    by apply filter_digits_all.
  clearbody ds. split; [|split].
  - unfold Text.trim, Text.trimEnd.
    assert (Hstart : Text.trimStart (ds ++ str "@c.us") = ds ++ str "@c.us").
    { destruct ds as [|c ds]; [reflexivity|].
      cbn [forallb] in Hds. apply andb_true_iff in Hds as [Hc _].
      apply trimStart_id. now apply digit_not_space. }
    rewrite Hstart, rev_app_distr.
    change (rev (str "@c.us")) with (115 :: [117; 46; 99; 64]).
    cbn [app]. rewrite trimStart_id by reflexivity.
    change (115 :: 117 :: 46 :: 99 :: 64 :: rev ds)
      with (rev (str "@c.us") ++ rev ds).
    now rewrite <- rev_app_distr, rev_involutive.
  - intros Hin. apply in_app_or in Hin as [Hin|Hin].
    + rewrite forallb_forall in Hds. specialize (Hds _ Hin). discriminate.
    + change (str "@c.us") with [64; 99; 46; 117; 115] in Hin.
      cbn [In] in Hin. lia.
  - rewrite filter_app.
    change (filter GroupCreator.isDigit (str "@c.us")) with (@nil Z).
    now rewrite app_nil_r, filter_digits_id.
Qed.

(** X1. [validateParticipants] accepts an array exactly when it holds
    between 1 and 256 identifiers, each made of one decimal digit or
    more followed by ["@c.us"]. *)
Theorem accepted_participants_shape ps w :
  fst (GroupCreator.validateParticipants (Some ps) w) = Normal tt
  <-> 1 <= len ps <= 256 /\ Forall PhoneShape ps.
Proof.
  rewrite validateParticipants_accepts. split.
  - intros (Hne & Hle & Hall). split.
    + apply nonempty_length in Hne. unfold len in *. lia.
    + eapply Forall_impl; [|exact Hall]. intros p. apply matchesPhone_shape.
  - intros ((H1 & Hle) & Hall). split; [|split].
    + intros ->. cbn in H1. lia.
    + exact Hle.
    + eapply Forall_impl; [|exact Hall]. intros p. apply matchesPhone_shape.
Qed.

(** X2. [parseParticipants] gives, for each piece of the input between
    commas that is not blank, and in their order, the decimal digits of
    the piece followed by ["@c.us"]: neither the test for a comma nor the
    test for the suffix changes the result. *)
Theorem participants_parsed_piecewise s :
  Commands.parseParticipants s
  = map identifierOf (filter nonBlank (Text.split 44 s)).
Proof. apply parseParticipants_pieces. Qed.

(** X3. What [parseParticipants] returns passes [validateParticipants]
    exactly when the input has between 1 and 256 pieces that are not
    blank and each of them holds a decimal digit: a piece without one,
    such as a word, becomes the bare suffix ["@c.us"], which the
    validation refuses. *)
Theorem parsed_participants_validated s w :
  let kept := filter nonBlank (Text.split 44 s) in
  fst (GroupCreator.validateParticipants
         (Some (Commands.parseParticipants s)) w) = Normal tt
  <-> 1 <= len kept <= 256
      /\ Forall (fun part => existsb GroupCreator.isDigit part = true) kept.
Proof.
  cbn zeta. rewrite validateParticipants_accepts, parseParticipants_pieces.
  set (kept := filter nonBlank (Text.split 44 s)).
  unfold len. rewrite length_map, Forall_map.
  assert (Hall : Forall (fun part =>
                   GroupCreator.matchesPhone (identifierOf part) = true) kept
                 <-> Forall (fun part =>
                       existsb GroupCreator.isDigit part = true) kept).
  { split; apply Forall_impl; intros part; now rewrite identifier_matches. }
  rewrite Hall. split.
  - intros (Hne & Hle & H). split; [|exact H]. split; [|exact Hle].
    destruct kept; [now contradiction Hne|]. cbn [length]. lia.
  - intros ((H1 & Hle) & H). split; [|split; assumption].
    destruct kept; [cbn in H1; lia|discriminate].
Qed.

(** X4. Parsing is idempotent through the comma-separated form: the
    identifiers returned by [parseParticipants], joined by commas and
    parsed again, come back unchanged. *)
Theorem parseParticipants_idempotent s :
  Commands.parseParticipants
    (join (str ",") (Commands.parseParticipants s))
  = Commands.parseParticipants s.
Proof.
  rewrite (parseParticipants_pieces s).
  set (kept := filter nonBlank (Text.split 44 s)).
  rewrite parseParticipants_pieces.
  destruct kept as [|part kept]; [reflexivity|].
  change (str ",") with [44]. rewrite split_join.
  - set (l := part :: kept). clearbody l. clear.
    induction l as [|x l IH]; [reflexivity|].
    destruct (identifier_fixed x) as (Htrim & _ & Hfix).
    cbn [map filter]. unfold nonBlank at 1. rewrite Htrim.
    assert (Hlen : (len (identifierOf x) >? 0) = true).
    { unfold identifierOf, len. rewrite length_app.
      change (length (str "@c.us")) with 5%nat. apply Z.gtb_lt. lia. }
    rewrite Hlen. cbn [map]. now rewrite Hfix, IH.
  - discriminate.
  - apply Forall_map, Forall_forall. intros x _.
    now destruct (identifier_fixed x) as (_ & H & _).
Qed.

(** ** [parseInt] and [toString] *)

Lemma digitsValue_snoc ds c :
  Text.digitsValue (ds ++ [c]) = Text.digitsValue ds * 10 + (c - 48).
Proof. unfold Text.digitsValue. now rewrite fold_left_app. Qed.

(** With fuel enough, [digits] writes the number: decimal digits, one at
    least, whose value is the number. *)
Lemma digits_written fuel : forall n acc,
  0 <= n < 2 ^ Z.of_nat fuel -> (1 <= fuel)%nat ->
  exists ds, digits fuel n acc = ds ++ acc
             /\ ds <> []
             /\ forallb GroupCreator.isDigit ds = true
             /\ Text.digitsValue ds = n.
Proof.
  induction fuel as [|fuel IH]; intros n acc Hn Hf; [lia|].
  cbn [digits].
  assert (Hd : GroupCreator.isDigit (48 + n mod 10) = true).
  { unfold GroupCreator.isDigit. pose proof (Z.mod_pos_bound n 10 ltac:(lia)).
    apply andb_true_iff. split; apply Z.leb_le; lia. }
  destruct (Z.ltb_spec n 10) as [H10|H10].
  - exists [48 + n mod 10]. cbn [app forallb]. rewrite Hd.
    repeat split; try discriminate.
    unfold Text.digitsValue. cbn [fold_left]. rewrite Z.mod_small by lia. lia.
  - assert (Hfuel : (1 <= fuel)%nat).
    { destruct fuel; [cbn in Hn; lia|lia]. }
    destruct (IH (n / 10) ((48 + n mod 10) :: acc)) as (ds & E & Hne & Hds & Hv).
    + split; [apply Z.div_pos; lia|].
      rewrite Nat2Z.inj_succ, Z.pow_succ_r in Hn by lia.
      apply Z.div_lt_upper_bound; lia.
    + exact Hfuel.
    + exists (ds ++ [48 + n mod 10]). rewrite E, <- app_assoc. cbn [app].
      split; [reflexivity|]. split; [now destruct ds|]. split.
      * rewrite forallb_app, Hds. cbn [forallb]. now rewrite Hd.
      * rewrite digitsValue_snoc, Hv.
        pose proof (Z.div_mod n 10 ltac:(lia)). lia.
Qed.

Lemma takeDigits_run ds rest :
  forallb GroupCreator.isDigit ds = true ->
  (forall c, hd_error rest = Some c -> GroupCreator.isDigit c = false) ->
  Text.takeDigits (ds ++ rest) = ds.
Proof.
  intros Hds Hrest. induction ds as [|c ds IH].
  - destruct rest as [|c rest]; [reflexivity|]. cbn [app Text.takeDigits].
    now rewrite (Hrest c eq_refl).
  - cbn [forallb] in Hds. apply andb_true_iff in Hds as [Hc Hds].
    cbn [app Text.takeDigits]. rewrite Hc. f_equal. now apply IH.
Qed.

(** [parseInt] of a run of digits followed by something else. *)
Lemma parseInt_digits ds rest :
  ds <> [] -> forallb GroupCreator.isDigit ds = true ->
  (forall c, hd_error rest = Some c -> GroupCreator.isDigit c = false) ->
  Text.parseInt (ds ++ rest) = Some (Text.digitsValue ds).
Proof.
  intros Hne Hds Hrest. unfold Text.parseInt.
  destruct ds as [|c ds]; [now contradiction Hne|].
  pose proof Hds as Hall. cbn [forallb] in Hds.
  apply andb_true_iff in Hds as [Hc _].
  cbn [app]. rewrite trimStart_id by now apply digit_not_space.
  assert (H45 : (c =? 45) = false).
  { unfold GroupCreator.isDigit in Hc. apply andb_true_iff in Hc as [H1 _].
    apply Z.leb_le in H1. apply Z.eqb_neq. lia. }
  assert (H43 : (c =? 43) = false).
  { unfold GroupCreator.isDigit in Hc. apply andb_true_iff in Hc as [H1 _].
    apply Z.leb_le in H1. apply Z.eqb_neq. lia. }
  rewrite H45, H43.
  change (c :: ds ++ rest) with ((c :: ds) ++ rest).
  rewrite takeDigits_run by assumption. f_equal. lia.
Qed.

Lemma parseInt_negative ds rest :
  ds <> [] -> forallb GroupCreator.isDigit ds = true ->
  (forall c, hd_error rest = Some c -> GroupCreator.isDigit c = false) ->
  Text.parseInt (45 :: ds ++ rest) = Some (- Text.digitsValue ds).
Proof.
  intros Hne Hds Hrest. unfold Text.parseInt.
  rewrite trimStart_id by reflexivity. rewrite Z.eqb_refl.
  rewrite takeDigits_run by assumption.
  destruct ds as [|c ds]; [now contradiction Hne|]. f_equal; lia.
Qed.

(** X5. Reading back what [toString] wrote gives the number again,
    whatever follows the digits, as long as it does not start with a
    digit: for an integer [n] below 2^53 in absolute value,
    [parseInt(n.toString() + rest, 10)] is [n]. *)
Theorem parseInt_of_toString n rest :
  Z.abs n < 2 ^ 53 ->
  (forall c, hd_error rest = Some c -> GroupCreator.isDigit c = false) ->
  Text.parseInt (toString n ++ rest) = Some n.
Proof.
  intros _ Hrest. unfold toString.
  destruct (Z.ltb_spec n 0) as [Hneg|Hpos].
  - destruct (digits_written (S (Z.to_nat (Z.log2 (- n)))) (- n) [])
      as (ds & E & Hne & Hds & Hv).
    + split; [lia|]. apply toString_fuel. lia.
    + lia.
    + rewrite E, app_nil_r. cbn [app].
      rewrite parseInt_negative by assumption. f_equal. lia.
  - destruct (digits_written (S (Z.to_nat (Z.log2 n))) n [])
      as (ds & E & Hne & Hds & Hv).
    + split; [lia|]. apply toString_fuel. lia.
    + lia.
    + rewrite E, app_nil_r. rewrite parseInt_digits by assumption.
      now f_equal.
Qed.

Lemma parseInt_of_toString_witness :
  Text.parseInt (toString (-42) ++ str "px") = Some (-42).
Proof.
  apply (parseInt_of_toString (-42) (str "px")).
  - reflexivity.
  - intros c E. injection E as <-. reflexivity.
Defined.

(** ** The command handler *)

Lemma scanOption_within i part o l :
  OptionsWithin o ->
  OptionsWithin (fst (Commands.scanOption i part (o, l))).
Proof.
  intros (H1 & H2 & H3 & H4). unfold Commands.scanOption.
  destruct (startsWith (str "--") part);
    [|destruct (l =? -1); cbn [fst]; repeat split; assumption].
  cbn [fst].
  destruct (jsstring_eqb part (str "--padding")).
  { repeat split; assumption. }
  destruct (startsWith (str "--start=") part).
  { destruct (Commands.optionValue part) as [v|]; [|repeat split; assumption].
    destruct (Z.gtb_spec v 0); [|repeat split; assumption].
    repeat split; try assumption. cbn. intros ? [= <-]. lia. }
  destruct (startsWith (str "--delay=") part).
  { destruct (Commands.optionValue part) as [v|]; [|repeat split; assumption].
    destruct (Z.geb_spec v 0); [|repeat split; assumption].
    repeat split; try assumption. cbn. intros ? [= <-]. lia. }
  destruct (startsWith (str "--batchsize=") part).
  { destruct (Commands.optionValue part) as [v|]; [|repeat split; assumption].
    destruct (Z.gtb_spec v 0); [|repeat split; assumption].
    repeat split; try assumption. cbn. intros ? [= <-]. lia. }
  destruct (startsWith (str "--batchdelay=") part).
  { destruct (Commands.optionValue part) as [v|]; [|repeat split; assumption].
    destruct (Z.gtb_spec v 0); [|repeat split; assumption].
    repeat split; try assumption. cbn. intros ? [= <-]. lia. }
  repeat split; assumption.
Qed.

Lemma scanOptions_within parts : forall i state,
  OptionsWithin (fst state) ->
  OptionsWithin (fst (Commands.scanOptions i parts state)).
Proof.
  induction parts as [|part parts IH]; intros i [o l] H; [exact H|].
  cbn [Commands.scanOptions]. apply IH.
  now apply scanOption_within.
Qed.

Lemma no_options_within : OptionsWithin GroupCreator.no_options.
Proof. repeat split; discriminate. Qed.

(** What the handler has checked when it goes on to the call. *)
Lemma handleCreateMultipleGroups_calls commandParts args :
  Commands.handleCreateMultipleGroups commandParts = Commands.Calls args ->
  1 <= Commands.count args <= 100
  /\ OptionsWithin (Commands.options args)
  /\ Commands.participantNumbers args <> [].
Proof.
  unfold Commands.handleCreateMultipleGroups.
  set (countIndex := Commands.findCountIndex 1 (skipn 1 commandParts)).
  destruct (countIndex =? -1); [discriminate|].
  destruct (Text.parseInt (nth (Z.to_nat countIndex) commandParts []))
    as [count|]; [|discriminate].
  destruct (Z.ltb_spec count 1); [discriminate|].
  destruct (Z.gtb_spec count 100); [discriminate|]. cbn [orb].
  pose proof (scanOptions_within
                (skipn (Z.to_nat (countIndex + 1)) commandParts)
                (countIndex + 1) (GroupCreator.no_options, -1)
                no_options_within) as Hopt.
  destruct (Commands.scanOptions (countIndex + 1)
              (skipn (Z.to_nat (countIndex + 1)) commandParts)
              (GroupCreator.no_options, -1)) as [options l].
  cbn [fst] in Hopt.
  destruct (len commandParts <? countIndex + 2); [discriminate|].
  destruct (Z.eqb_spec
              (len (Commands.parseParticipants
                      (Commands.gatherParticipants
                         (skipn (Z.to_nat (countIndex + 1)) commandParts) [])))
              0) as [|Hlen]; [discriminate|].
  intros [= <-].
  cbn [Commands.count Commands.options Commands.participantNumbers].
  split; [lia|]. split; [exact Hopt|].
  intros E. rewrite E in Hlen. now apply Hlen.
Qed.

(** X6. When [handleCreateMultipleGroups] goes on to call
    [createMultipleGroups], the count is between 1 and 100, a starting
    number, a batch size or a batch cooldown that is passed is at least
    1, a delay that is passed is not negative, and there is at least one
    participant: flags with other values are dropped, not passed on. *)
Theorem handler_passes_checked_arguments commandParts args :
  Commands.handleCreateMultipleGroups commandParts = Commands.Calls args ->
  1 <= Commands.count args <= 100
  /\ (forall v, GroupCreator.startingNumber (Commands.options args) = Some v
                -> 1 <= v)
  /\ (forall v, GroupCreator.delaySeconds (Commands.options args) = Some v
                -> 0 <= v)
  /\ (forall v, GroupCreator.batchSize (Commands.options args) = Some v
                -> 1 <= v)
  /\ (forall v, GroupCreator.batchCooldownSeconds (Commands.options args) = Some v
                -> 1 <= v)
  /\ Commands.participantNumbers args <> [].
Proof.
  intros H.
  destruct (handleCreateMultipleGroups_calls _ _ H)
    as (Hc & (H1 & H2 & H3 & H4) & Hp).
  repeat split; try assumption; apply Hc.
Qed.

Lemma handler_passes_checked_arguments_witness :
  let args :=
    Commands.mkGroupArguments (str "Kelas A") 3
      [str "628123456789@c.us"; str "628987654321@c.us"]
      (GroupCreator.mkOptions (Some 5) None (Some true) None None) in
  1 <= Commands.count args <= 100
  /\ (forall v, GroupCreator.startingNumber (Commands.options args) = Some v
                -> 1 <= v)
  /\ (forall v, GroupCreator.delaySeconds (Commands.options args) = Some v
                -> 0 <= v)
  /\ (forall v, GroupCreator.batchSize (Commands.options args) = Some v
                -> 1 <= v)
  /\ (forall v, GroupCreator.batchCooldownSeconds (Commands.options args) = Some v
                -> 1 <= v)
  /\ Commands.participantNumbers args <> [].
Proof.
  apply (handler_passes_checked_arguments
           [str "!createmultiplegroups"; str "Kelas"; str "A"; str "3";
            str "628123456789"; str "+628987654321,"; str "--start=5";
            str "--batchsize=0"; str "--padding"]).
  vm_compute. reflexivity.
Defined.

Lemma Forall_of_map {A B C} (f : A -> C) (g : B -> C) (P : C -> Prop) l l' :
  map f l = map g l' ->
  Forall (fun y => P (g y)) l' -> Forall (fun x => P (f x)) l.
Proof. intros E H. apply Forall_map. rewrite E. now apply Forall_map. Qed.

(** X7. A run of [createMultipleGroups] with the arguments that
    [handleCreateMultipleGroups] passes, for a ready client, participants
    that pass the validation, a batch size below 2^53 and a callback that
    does not throw, returns a result with one entry per group asked for,
    counters that add up to the count, group numbers that are all
    positive, and makes exactly as many collaborator calls as the count,
    at most 100. *)
Theorem handled_group_run random c who cb rc0 commandParts args :
  Commands.handleCreateMultipleGroups commandParts = Commands.Calls args ->
  info c = Some who ->
  quiet cb ->
  fst (GroupCreator.validateParticipants
         (Some (Commands.participantNumbers args)) (mkWorld rc0 [])) = Normal tt ->
  (forall v, GroupCreator.batchSize (Commands.options args) = Some v
             -> v < 2 ^ 53) ->
  exists res w',
    GroupCreator.createMultipleGroups random (Some c)
      (Commands.groupPrefix args) (Commands.count args)
      (Some (Commands.participantNumbers args)) (Commands.options args) cb
      (mkWorld rc0 []) = (Normal res, w')
    /\ GroupCreator.successCount res + GroupCreator.failedCount res
       = Commands.count args
    /\ len (GroupCreator.groups res) = Commands.count args
    /\ Forall (fun g => 1 <= GroupCreator.number g) (GroupCreator.groups res)
    /\ len (calls (trace w')) = Commands.count args
    /\ len (calls (trace w')) <= 100.
Proof.
  intros Hcall Hinfo Hq Hvalid _.
  destruct (handleCreateMultipleGroups_calls _ _ Hcall)
    as (Hc & (H1 & H2 & H3 & H4) & Hp).
  assert (HB : 1 <= GroupCreator.s_batchSize
                      (GroupCreator.settingsOf (Commands.options args))).
  { apply or_default_positive; [lia|]. intros b Hb. specialize (H3 b Hb). lia. }
  assert (HS : 1 <= GroupCreator.s_startingNumber
                      (GroupCreator.settingsOf (Commands.options args))).
  { apply or_default_positive; [lia|]. intros b Hb. specialize (H1 b Hb). lia. }
  destruct (createMultipleGroups_reached random c who
              (Commands.groupPrefix args) (Commands.count args)
              (Commands.participantNumbers args) (Commands.options args)
              cb rc0 Hinfo Hvalid Hq ltac:(lia) HB)
    as (res & w' & E & H).
  exists res, w'. split; [exact E|].
  destruct H as [Hrec Hsuc Hfail Hent Hcalls _ _ _ _ _ _ _].
  assert (Hlen : length (GroupCreator.groups res)
                 = Z.to_nat (Commands.count args)).
  { apply (f_equal (@length _)) in Hent.
    now rewrite !length_map, range_length in Hent. }
  assert (Hn : length (calls (trace w')) = Z.to_nat (Commands.count args)).
  { apply (f_equal (@length _)) in Hcalls.
    now rewrite !length_map, range_length in Hcalls. }
  pose proof (filter_split_length GroupCreator.success (GroupCreator.groups res)).
  repeat split; try (unfold len; lia).
  apply (f_equal (map snd)) in Hent. rewrite !map_map in Hent. cbn [snd] in Hent.
  refine (Forall_of_map _ _ (fun n => 1 <= n) _ _ Hent _).
  apply Forall_forall. intros j Hj.
  unfold range in Hj. apply in_map_iff in Hj as (i & <- & _).
  unfold GroupRun.numberAt. cbn [GroupRun.settings]. lia.
Qed.

Lemma handled_group_run_witness :
  exists res w',
    GroupCreator.createMultipleGroups (fun _ => drawHalf) (Some acceptingClient)
      (str "Kelas") 2 (Some [str "628123456789@c.us"])
      (GroupCreator.mkOptions None (Some 2) None (Some 1) (Some 7))
      (Some quietCallback) (mkWorld 0 []) = (Normal res, w')
    /\ GroupCreator.successCount res + GroupCreator.failedCount res = 2
    /\ len (GroupCreator.groups res) = 2
    /\ Forall (fun g => 1 <= GroupCreator.number g) (GroupCreator.groups res)
    /\ len (calls (trace w')) = 2
    /\ len (calls (trace w')) <= 100.
Proof.
  apply (handled_group_run (fun _ => drawHalf) acceptingClient
           (str "628000000000@c.us") (Some quietCallback) 0%nat
           [str "!createmultiplegroups"; str "Kelas"; str "2";
            str "628123456789"; str "--delay=2"; str "--batchsize=1";
            str "--batchdelay=7"; str "--start=-4"]
           (Commands.mkGroupArguments (str "Kelas") 2
              [str "628123456789@c.us"]
              (GroupCreator.mkOptions None (Some 2) None (Some 1) (Some 7)))).
  - vm_compute. reflexivity.
  - reflexivity.
  - intros f E ev. injection E as <-. reflexivity.
  - vm_compute. reflexivity.
  - cbn. intros v E. injection E as <-. lia.
Defined.

(** What the handler has checked when it goes on to the call. *)
Lemma handleBulkMessage_calls commandParts args :
  Commands.handleBulkMessage commandParts = Commands.Calls args ->
  0 <= Commands.delaySeconds args <= 60
  /\ Commands.recipientNumbers args <> []
  /\ Text.trim (Commands.messageText args) <> [].
Proof.
  unfold Commands.handleBulkMessage.
  destruct (len commandParts <? 4); [discriminate|].
  destruct (Text.parseInt (nth 1 commandParts [])) as [d|]; [|discriminate].
  destruct (Z.ltb_spec d 0); [discriminate|].
  destruct (Z.gtb_spec d 60); [discriminate|]. cbn [orb].
  destruct (Z.eqb_spec
              (len (Commands.parseParticipants (nth 2 commandParts []))) 0)
    as [|Hlen]; [discriminate|].
  destruct (len (join (str " ") (slice_from commandParts 3)) =? 0);
    [discriminate|]. cbn [orb].
  destruct (Z.eqb_spec
              (len (Text.trim (join (str " ") (slice_from commandParts 3)))) 0)
    as [|Htrim]; [discriminate|].
  intros [= <-].
  cbn [Commands.delaySeconds Commands.recipientNumbers Commands.messageText].
  split; [lia|]. split.
  - intros E. rewrite E in Hlen. now apply Hlen.
  - intros E. rewrite E in Htrim. now apply Htrim.
Qed.

(** X8. When [handleBulkMessage] goes on to call [sendBulkMessages], the
    delay is a number of seconds between 0 and 60, there is at least one
    recipient, and the message is not blank. *)
Theorem bulk_handler_passes_checked_arguments commandParts args :
  Commands.handleBulkMessage commandParts = Commands.Calls args ->
  0 <= Commands.delaySeconds args <= 60
  /\ Commands.recipientNumbers args <> []
  /\ Text.trim (Commands.messageText args) <> [].
Proof. apply handleBulkMessage_calls. Qed.

Lemma bulk_handler_passes_checked_arguments_witness :
  let args :=
    Commands.mkBulkArguments (str "Selamat pagi semua")
      [str "628123456789@c.us"; str "628987654321@c.us"] 5 in
  0 <= Commands.delaySeconds args <= 60
  /\ Commands.recipientNumbers args <> []
  /\ Text.trim (Commands.messageText args) <> [].
Proof.
  apply (bulk_handler_passes_checked_arguments
           [str "!bulkmessage"; str "5"; str "628123456789,628987654321";
            str "Selamat"; str "pagi"; str "semua"]).
  vm_compute. reflexivity.
Defined.

(** X9. A run of [sendBulkMessages] with the arguments that
    [handleBulkMessage] passes, for a ready client and a callback that
    does not throw, returns a result with one entry per recipient, and
    every wait before a message lasts between 1 and 65.999 seconds. *)
Theorem handled_bulk_run random c who cb rc0 commandParts args :
  Commands.handleBulkMessage commandParts = Commands.Calls args ->
  info c = Some who ->
  quiet cb ->
  exists res w',
    MessageSender.sendBulkMessages random (Some c)
      (Commands.messageText args) (Commands.recipientNumbers args)
      (Some (Commands.delaySeconds args)) cb (mkWorld rc0 [])
    = (Normal res, w')
    /\ len (MessageSender.details res) = len (Commands.recipientNumbers args)
    /\ 1 <= len (MessageSender.details res)
    /\ Forall (fun ms => 1000 <= ms <= 65999) (pacingWaits (trace w')).
Proof.
  intros Hcall Hinfo Hq.
  destruct (handleBulkMessage_calls _ _ Hcall) as (Hd & Hr & _).
  destruct (sendBulkMessages_reached random c who
              (Commands.messageText args) (Commands.recipientNumbers args)
              (Some (Commands.delaySeconds args)) cb rc0 Hinfo Hq)
    as (res & w' & idxs & E & H).
  exists res, w'. split; [exact E|].
  destruct H as [_ _ _ Hrcp _ _ _ _ _ Hpacing _ _ _ _].
  rewrite firstn_all in Hrcp.
  assert (Hlen : length (MessageSender.details res)
                 = length (Commands.recipientNumbers args)).
  { apply (f_equal (@length _)) in Hrcp. now rewrite length_map in Hrcp. }
  apply nonempty_length in Hr.
  repeat split; try (unfold len; lia).
  rewrite Hpacing. apply Forall_map, Forall_forall. intros idx _.
  unfold MessageRun.waitOfDraw. cbn [MessageRun.delaySeconds MessageRun.random].
  pose proof (randomOffset_range (random idx)). lia.
Qed.

Lemma handled_bulk_run_witness :
  exists res w',
    MessageSender.sendBulkMessages (fun _ => drawHalf) (Some acceptingClient)
      (str "Selamat pagi") [str "628123456789@c.us"; str "628987654321@c.us"]
      (Some 60) (Some quietCallback) (mkWorld 0 []) = (Normal res, w')
    /\ len (MessageSender.details res)
       = len [str "628123456789@c.us"; str "628987654321@c.us"]
    /\ 1 <= len (MessageSender.details res)
    /\ Forall (fun ms => 1000 <= ms <= 65999) (pacingWaits (trace w')).
Proof.
  apply (handled_bulk_run (fun _ => drawHalf) acceptingClient
           (str "628000000000@c.us") (Some quietCallback) 0%nat
           [str "!bulkmessage"; str "60"; str "628123456789,628987654321";
            str "Selamat"; str "pagi"]
           (Commands.mkBulkArguments (str "Selamat pagi")
              [str "628123456789@c.us"; str "628987654321@c.us"] 60)).
  - vm_compute. reflexivity.
  - reflexivity.
  - intros f E ev. injection E as <-. reflexivity.
Defined.

(** ** [createSingleGroup] *)

(** The three ways a run of [createSingleGroup] can go. *)
Lemma createSingleGroup_cases client groupName participants w :
  let heading := str "Failed to create group: " in
  let run := SingleGroup.createSingleGroup client groupName participants w in
  let call r := emit (EvCall (CreateGroup groupName participants) r) w in
  (exists cause,
      GroupCreator.validateParticipants (Some participants) w = (Throw cause, w)
      /\ run = (Throw (mkError (heading ++ message cause)), w))
  \/ (fst (GroupCreator.validateParticipants (Some participants) w) = Normal tt
      /\ (client = None \/ exists c, client = Some c /\ info c = None)
      /\ run = (Throw (mkError (heading ++ message GroupCreator.notReady)), w))
  \/ (fst (GroupCreator.validateParticipants (Some participants) w) = Normal tt
      /\ exists c who, client = Some c /\ info c = Some who
         /\ match createGroup c (trace w) groupName participants with
            | Resolved id => run = (Normal id, call (Resolved id))
            | Rejected cause =>
                run = (Throw (mkError (heading ++ message cause)),
                       call (Rejected cause))
            end).
Proof.
  cbn zeta. unfold SingleGroup.createSingleGroup, try_catch, bind.
  pose proof (validateParticipants_world (Some participants) w) as Hw.
  destruct (GroupCreator.validateParticipants (Some participants) w)
    as [[[]|cause] w1]; cbn [fst snd] in *; subst w1.
  - right. destruct client as [c|].
    + destruct (info c) as [who|] eqn:Hinfo.
      * right. split; [reflexivity|]. exists c, who.
        split; [reflexivity|]. split; [exact Hinfo|].
        unfold call_createGroup, ret, throw.
        destruct (createGroup c (trace w) groupName participants); reflexivity.
      * left. split; [reflexivity|]. split; [|reflexivity].
        right. exists c. split; [reflexivity|exact Hinfo].
    + left. split; [reflexivity|]. split; [now left|reflexivity].
  - left. exists cause. split; reflexivity.
Qed.

(** X10. [createSingleGroup] returns a group exactly when the
    participants pass the validation, the client is ready and the
    collaborator resolves the one call made for the group; the value
    returned is the collaborator's, and the call is the only thing added
    to the trace. *)
Theorem single_group_success client groupName participants w id w' :
  SingleGroup.createSingleGroup client groupName participants w = (Normal id, w')
  <-> fst (GroupCreator.validateParticipants (Some participants) w) = Normal tt
      /\ exists c who,
           client = Some c /\ info c = Some who
           /\ createGroup c (trace w) groupName participants = Resolved id
           /\ w' = emit (EvCall (CreateGroup groupName participants)
                           (Resolved id)) w.
Proof.
  pose proof (createSingleGroup_cases client groupName participants w) as H.
  cbn zeta in H. split.
  - intros E. destruct H as [(cause & _ & R)|[(_ & _ & R)|(Hv & c & who & Hc & Hi & R)]];
      try congruence.
    split; [exact Hv|]. exists c, who. split; [exact Hc|]. split; [exact Hi|].
    destruct (createGroup c (trace w) groupName participants) as [id'|cause];
      rewrite R in E; [|discriminate].
    injection E as -> <-. now split.
  - intros (Hv & c & who & Hc & Hi & Hr & ->).
    destruct H as [(cause & Hthrow & _)|[(_ & Hnot & _)|(_ & c' & who' & Hc' & _ & R)]].
    + rewrite Hthrow in Hv. discriminate.
    + destruct Hnot as [->|(c' & E & Hn)]; [discriminate|]. congruence.
    + assert (c' = c) by congruence. subst c'. now rewrite Hr in R.
Qed.

(** X11. Every error thrown by [createSingleGroup] is a new error whose
    message is ["Failed to create group: "] followed by the message of
    the cause; either nothing was added to the trace (the participants
    were refused or the client was not ready), or exactly the one call
    that the collaborator rejected with that cause. *)
Theorem single_group_failure client groupName participants w e w' :
  SingleGroup.createSingleGroup client groupName participants w = (Throw e, w') ->
  exists cause,
    e = mkError (str "Failed to create group: " ++ message cause)
    /\ (w' = w
        \/ exists c,
             client = Some c
             /\ createGroup c (trace w) groupName participants = Rejected cause
             /\ w' = emit (EvCall (CreateGroup groupName participants)
                             (Rejected cause)) w).
Proof.
  intros E.
  pose proof (createSingleGroup_cases client groupName participants w) as H.
  cbn zeta in H.
  destruct H as [(cause & _ & R)|[(_ & _ & R)|(Hv & c & who & Hc & Hi & R)]].
  - rewrite R in E. injection E as <- <-. exists cause. split; [reflexivity|now left].
  - rewrite R in E. injection E as <- <-. exists GroupCreator.notReady.
    split; [reflexivity|now left].
  - destruct (createGroup c (trace w) groupName participants) as [id|cause] eqn:Hr;
      rewrite R in E; [discriminate|].
    injection E as <- <-. exists cause. split; [reflexivity|].
    right. exists c. repeat split; assumption.
Qed.

Lemma single_group_failure_witness :
  exists cause,
    mkError (str "Failed to create group: Evaluation failed")
    = mkError (str "Failed to create group: " ++ message cause)
    /\ (emit (EvCall (CreateGroup (str "Kelas 1") oneParticipant)
                (Rejected (mkError (str "Evaluation failed")))) start = start
        \/ exists c,
             Some refusingClient = Some c
             /\ createGroup c (trace start) (str "Kelas 1") oneParticipant
                = Rejected cause
             /\ emit (EvCall (CreateGroup (str "Kelas 1") oneParticipant)
                        (Rejected (mkError (str "Evaluation failed")))) start
                = emit (EvCall (CreateGroup (str "Kelas 1") oneParticipant)
                          (Rejected cause)) start).
Proof.
  apply (single_group_failure (Some refusingClient) (str "Kelas 1")
           oneParticipant start).
  vm_compute. reflexivity.
Defined.

(** X12. The two entry points check in a different order. With
    participants that the validation refuses and a client that is not
    ready, [createSingleGroup] reports the participants (under its
    heading) and [createMultipleGroups] reports the client; neither makes
    a call. *)
Theorem checks_in_different_order random groupName count participants options
    cb w cause :
  GroupCreator.validateParticipants (Some participants) w = (Throw cause, w) ->
  SingleGroup.createSingleGroup None groupName participants w
  = (Throw (mkError (str "Failed to create group: " ++ message cause)), w)
  /\ GroupCreator.createMultipleGroups random None groupName count
       (Some participants) options cb w
     = (Throw GroupCreator.notReady, w).
Proof.
  intros H. split.
  - unfold SingleGroup.createSingleGroup, try_catch, bind. now rewrite H.
  - reflexivity.
Qed.

Lemma checks_in_different_order_witness :
  SingleGroup.createSingleGroup None (str "Kelas") [str "08123"] start
  = (Throw (mkError (str "Failed to create group: "
                     ++ message (mkError (str "Invalid phone numbers detected: 08123")))),
     start)
  /\ GroupCreator.createMultipleGroups (fun _ => drawHalf) None (str "Kelas") 3
       (Some [str "08123"]) GroupCreator.no_options None start
     = (Throw GroupCreator.notReady, start).
Proof.
  apply (checks_in_different_order (fun _ => drawHalf) (str "Kelas") 3
           [str "08123"] GroupCreator.no_options None start
           (mkError (str "Invalid phone numbers detected: 08123"))).
  vm_compute. reflexivity.
Defined.

(** ** The chunks of a long text *)

Lemma lastIndexFrom_le s search k :
  Text.lastIndexFrom s search k <= Z.of_nat k.
Proof.
  induction k as [|k IH]; cbn [Text.lastIndexFrom];
    destruct (startsWith search (skipn _ s)); lia.
Qed.

Lemma lastIndexOf_le s search position :
  0 <= position -> Text.lastIndexOf s search position <= position.
Proof.
  intros H. unfold Text.lastIndexOf.
  pose proof (lastIndexFrom_le s search
                (Z.to_nat (Z.min (Z.max position 0) (len s - len search)))).
  lia.
Qed.

Lemma substring_window s a b :
  0 <= a -> a <= b -> a <= len s ->
  Text.substring s a b
  = firstn (Z.to_nat (Z.min b (len s)) - Z.to_nat a) (skipn (Z.to_nat a) s).
Proof.
  intros H0 Hab Ha. unfold Text.substring. f_equal; [|f_equal]; lia.
Qed.

(** A window of a list and what follows it. *)
Lemma window_then_rest {A} (l : list A) (a m : nat) :
  (a <= m)%nat ->
  firstn (m - a) (skipn a l) ++ skipn m l = skipn a l.
Proof.
  intros H. replace (skipn m l) with (skipn (m - a) (skipn a l)).
  - apply firstn_skipn.
  - rewrite skipn_skipn. f_equal. lia.
Qed.

Lemma range_cons from n : range from (S n) = from :: range (from + 1) n.
Proof.
  unfold range. cbn [seq map]. f_equal; [lia|].
  rewrite <- seq_shift, map_map. apply map_ext. intros j. lia.
Qed.

(** The loop covers the text from [startIndex] on, with chunks of 1 to
    4000 code units numbered in sequence, as soon as the fuel is the
    number of code units left. *)
Lemma chunkLoop_covers t : forall fuel startIndex chunkNumber,
  0 <= startIndex -> len t - startIndex <= Z.of_nat fuel ->
  let chunks := Commands.chunkLoop fuel t startIndex chunkNumber in
  concat (map fst chunks) = skipn (Z.to_nat startIndex) t
  /\ Forall (fun c => 1 <= len (fst c) <= Commands.maxChunkSize) chunks
  /\ map snd chunks = range chunkNumber (length chunks).
Proof.
  induction fuel as [|fuel IH]; intros startIndex chunkNumber H0 Hfuel.
  - cbn. split; [|split; [constructor|reflexivity]].
    symmetry. apply skipn_all2. unfold len in Hfuel. lia.
  - cbn [Commands.chunkLoop]. cbv zeta.
    destruct (Z.ltb_spec startIndex (len t)) as [Hlt|Hge].
    2:{ cbn. split; [|split; [constructor|reflexivity]].
        symmetry. apply skipn_all2. unfold len in Hge. lia. }
    match goal with
    | |- context [Text.substring t startIndex ?e] => set (endIndex := e)
    end.
    assert (Hend : startIndex < endIndex <= startIndex + 4000
                   /\ (endIndex < startIndex + 4000 -> endIndex < len t)).
    { subst endIndex. unfold Commands.maxChunkSize.
      destruct (Z.ltb_spec (startIndex + 4000) (len t)) as [Hin|Hout]; [|lia].
      pose proof (lastIndexOf_le t (Text.newline ++ Text.newline)
                    (startIndex + 4000) ltac:(lia)).
      destruct (Z.gtb_spec
                  (Text.lastIndexOf t (Text.newline ++ Text.newline)
                     (startIndex + 4000)) startIndex); lia. }
    clearbody endIndex. destruct Hend as ((Hgt & Hle) & Hshort).
    destruct (IH endIndex (chunkNumber + 1) ltac:(lia) ltac:(lia))
      as (Hcat & Hall & Hnum).
    cbn zeta in Hcat, Hall, Hnum.
    assert (Hchunk : Text.substring t startIndex endIndex
                     = firstn (Z.to_nat (Z.min endIndex (len t))
                               - Z.to_nat startIndex)
                         (skipn (Z.to_nat startIndex) t))
      by (apply substring_window; lia).
    assert (Hrest : skipn (Z.to_nat endIndex) t
                    = skipn (Z.to_nat (Z.min endIndex (len t))) t).
    { destruct (Z.le_gt_cases endIndex (len t)) as [Hin|Hout].
      - now rewrite Z.min_l by lia.
      - rewrite !skipn_all2; [reflexivity| |]; unfold len in *; lia. }
    cbn [map concat fst snd length]. split; [|split].
    + rewrite Hcat, Hrest, Hchunk. apply window_then_rest. lia.
    + constructor; [|exact Hall]. cbn [fst]. rewrite Hchunk.
      unfold len, Commands.maxChunkSize in *.
      rewrite length_firstn, length_skipn. lia.
    + rewrite Hnum. symmetry. apply range_cons.
Qed.

Lemma chunks_cover_text_aux t :
  concat (map fst (Commands.chunksOf t)) = t
  /\ Forall (fun c => 1 <= len (fst c) <= 4000) (Commands.chunksOf t)
  /\ map snd (Commands.chunksOf t) = range 1 (length (Commands.chunksOf t)).
Proof.
  unfold Commands.chunksOf.
  destruct (chunkLoop_covers t (length t) 0 1 ltac:(lia)
              ltac:(unfold len; lia)) as (Hcat & Hall & Hnum).
  cbn zeta in *. now repeat split.
Qed.

(** X13. The chunks into which [handleCopyAllGroups] cuts a long text
    are its consecutive pieces: put together in order they give the text
    back, nothing lost and nothing repeated; each has between 1 and 4000
    code units, and they are numbered 1, 2, 3, ... The loop ends: the
    result does not depend on a bound on its passes. *)
Theorem chunks_cover_text t :
  let chunks := Commands.chunksOf t in
  concat (map fst chunks) = t
  /\ Forall (fun c => 1 <= len (fst c) <= 4000) chunks
  /\ map snd chunks = range 1 (length chunks).
Proof.
  cbn zeta. apply chunks_cover_text_aux.
Qed.

Lemma chunks_length_bound (chunks : list (jsstring * Z)) :
  Forall (fun c => 1 <= len (fst c) <= 4000) chunks ->
  len (concat (map fst chunks)) <= 4000 * len chunks.
Proof.
  induction 1 as [|[chunk k] chunks Hc _ IH]; [cbn; lia|].
  cbn [map concat fst] in *. unfold len in *. rewrite length_app.
  cbn [length]. lia.
Qed.

(** X14. For a text of more than 4000 code units, [handleCopyAllGroups]
    sends at least as many replies as the total written in their labels
    (the length divided by 4000, rounded up): cutting at blank lines
    makes chunks shorter, so the numbering can go past the total. *)
Theorem replies_reach_the_total t :
  4000 < len t ->
  Math_ceil (inject_Z (len t) / inject_Z 4000) <= len (Commands.copyReplies t).
Proof.
  intros Hlong. unfold Commands.copyReplies, Commands.maxChunkSize.
  destruct (Z.leb_spec (len t) 4000) as [|_]; [lia|].
  destruct (chunks_cover_text_aux t) as (Hcat & Hall & _).
  pose proof (chunks_length_bound _ Hall) as Hsum. rewrite Hcat in Hsum.
  destruct (ceil_quotient_pos (len t) 4000 ltac:(lia)) as [Hlow _].
  unfold len in *. rewrite length_map.
  set (total := Math_ceil _) in *. clearbody total.
  unfold jsstring in *. lia.
Qed.

Lemma replies_reach_the_total_witness :
  4000 < len manyParagraphs
  /\ Math_ceil (inject_Z (len manyParagraphs) / inject_Z 4000)
     <= len (Commands.copyReplies manyParagraphs).
Proof.
  split; [reflexivity|].
  apply (replies_reach_the_total manyParagraphs). reflexivity.
Defined.

(** On that text the third reply is numbered past the total. *)
Lemma third_reply_of_two :
  len (Commands.copyReplies manyParagraphs) = 3
  /\ Math_ceil (inject_Z (len manyParagraphs) / inject_Z 4000) = 2
  /\ nth 2 (Commands.copyReplies manyParagraphs) []
     = repeat 10 2 ++ repeat 97 1998 ++ repeat 10 2 ++ str "(Bagian 3/2)".
Proof. vm_compute. repeat split; reflexivity. Qed.

(** ** The logger's list *)

Lemma addToWebInterfaceLogs_newest e logs :
  Logger.addToWebInterfaceLogs (Logger.timestamp e) (Logger.level e)
    (Logger.message e) logs
  = firstn 50 (e :: logs).
Proof.
  unfold Logger.addToWebInterfaceLogs. destruct e as [t l m].
  cbn [Logger.timestamp Logger.level Logger.message].
  set (entries := Logger.mkLogEntry t l m :: logs).
  destruct (Z.gtb_spec (len entries) 50) as [Hlong|Hshort].
  - rewrite slice_prefix, slice_index_inside by lia. reflexivity.
  - symmetry. apply firstn_all2. unfold len in Hshort. lia.
Qed.

Lemma firstn_cons_firstn {A} n (x : A) l :
  firstn n (x :: firstn n l) = firstn n (x :: l).
Proof.
  destruct n as [|n]; [reflexivity|]. rewrite !firstn_cons.
  apply (f_equal (cons x)).
  rewrite firstn_firstn. now replace (Nat.min n (S n)) with n by lia.
Qed.

Lemma addAll_newest calls : forall logs,
  Logger.addAll calls (firstn 50 logs) = firstn 50 (rev calls ++ logs).
Proof.
  induction calls as [|e calls IH]; intros logs.
  - reflexivity.
  - cbn [Logger.addAll rev]. rewrite addToWebInterfaceLogs_newest.
    rewrite firstn_cons_firstn, IH, <- app_assoc. reflexivity.
Qed.

(** X15. After any sequence of calls of [addToWebInterfaceLogs] on the
    list that starts empty, the list holds the entries of the 50 most
    recent calls, the newest first; in particular it never has more than
    50 entries. *)
Theorem web_logs_keep_the_newest calls :
  Logger.addAll calls [] = firstn 50 (rev calls)
  /\ len (Logger.addAll calls []) = Z.min 50 (len calls).
Proof.
  pose proof (addAll_newest calls []) as H.
  rewrite firstn_nil, app_nil_r in H.
  split; [exact H|].
  rewrite H. unfold len. rewrite length_firstn, length_rev. lia.
Qed.

(** ** Group names *)

Lemma dropZeros_padding k s : dropZeros (repeat 48 k ++ s) = dropZeros s.
Proof. induction k as [|k IH]; [reflexivity|exact IH]. Qed.

Lemma numberOf_digits ds :
  forallb GroupCreator.isDigit ds = true -> numberOf ds = Text.digitsValue ds.
Proof.
  unfold numberOf. induction ds as [|c ds IH]; [reflexivity|].
  cbn [forallb]. intros H. apply andb_true_iff in H as [Hc Hds].
  cbn [dropZeros]. destruct (Z.eqb_spec c 48) as [->|Hne].
  - rewrite (IH Hds). reflexivity.
  - unfold GroupCreator.isDigit in Hc. apply andb_true_iff in Hc as [H1 _].
    apply Z.leb_le in H1. destruct (Z.eqb_spec c 45); [lia|reflexivity].
Qed.

(** The number is read back from its text, padded or not. *)
Lemma numberOf_padStart n width : numberOf (padStart0 (toString n) width) = n.
Proof.
  unfold padStart0, numberOf. rewrite dropZeros_padding. unfold toString.
  destruct (Z.ltb_spec n 0) as [Hneg|Hpos].
  - destruct (digits_written (S (Z.to_nat (Z.log2 (- n)))) (- n) [])
      as (ds & E & _ & _ & Hv).
    + split; [lia|]. apply toString_fuel. lia.
    + lia.
    + rewrite E, app_nil_r. change (dropZeros (45 :: ds)) with (45 :: ds).
      cbv iota beta. rewrite Z.eqb_refl, Hv. lia.
  - destruct (digits_written (S (Z.to_nat (Z.log2 n))) n [])
      as (ds & E & _ & Hds & Hv).
    + split; [lia|]. apply toString_fuel. lia.
    + lia.
    + rewrite E, app_nil_r. fold (numberOf ds).
      now rewrite numberOf_digits.
Qed.

Lemma numberOf_formatNumber settings maxDigits n :
  numberOf (GroupCreator.formatNumber settings maxDigits n) = n.
Proof.
  unfold GroupCreator.formatNumber. destruct (GroupCreator.s_padNumbers settings).
  - apply numberOf_padStart.
  - pose proof (numberOf_padStart n 0) as H. unfold padStart0 in H.
    replace (Z.to_nat (0 - len (toString n))) with 0%nat in H
      by (unfold len; lia).
    exact H.
Qed.

Lemma nameAt_injective (a : GroupRun.Args) j k :
  GroupRun.nameAt a j = GroupRun.nameAt a k -> j = k.
Proof.
  unfold GroupRun.nameAt, GroupCreator.groupNameOf. intros H.
  apply app_inv_head in H. apply app_inv_head in H.
  apply (f_equal numberOf) in H. rewrite !numberOf_formatNumber in H.
  unfold GroupRun.numberAt in H. lia.
Qed.

Lemma NoDup_map_injective {A B} (f : A -> B) l :
  (forall x y, f x = f y -> x = y) -> NoDup l -> NoDup (map f l).
Proof.
  intros Hinj. induction 1 as [|x l Hx _ IH]; cbn [map]; constructor.
  - intros Hin. apply in_map_iff in Hin as (y & E & Hy).
    apply Hinj in E. now subst y.
  - exact IH.
Qed.

Lemma range_NoDup from n : NoDup (range from n).
Proof.
  unfold range. apply NoDup_map_injective; [|apply seq_NoDup].
  intros i j H. lia.
Qed.

(** X16. In the result of a run of [createMultipleGroups] whose numbers
    are safe integers (the group numbers are then the exact sums, and
    written in decimal digits) no two groups have the same name, nor the
    same number, whatever the prefix, the starting number and the
    padding: the number of a group can be read back from the end of its
    name. *)
Theorem group_names_distinct random c who groupPrefix count ps options cb rc0 :
  info c = Some who ->
  fst (GroupCreator.validateParticipants (Some ps) (mkWorld rc0 [])) = Normal tt ->
  quiet cb ->
  0 <= count ->
  (forall b, GroupCreator.batchSize options = Some b -> 0 <= b) ->
  SafeCount count (GroupCreator.settingsOf options) ->
  exists res w',
    GroupCreator.createMultipleGroups random (Some c) groupPrefix count
      (Some ps) options cb (mkWorld rc0 []) = (Normal res, w')
    /\ NoDup (map GroupCreator.name (GroupCreator.groups res))
    /\ NoDup (map GroupCreator.number (GroupCreator.groups res))
    /\ Forall (fun g =>
         exists text, GroupCreator.name g = groupPrefix ++ str " " ++ text
                      /\ numberOf text = GroupCreator.number g)
         (GroupCreator.groups res).
Proof.
  intros Hinfo Hvalid Hq Hcount Hbatch _.
  assert (HB : 1 <= GroupCreator.s_batchSize (GroupCreator.settingsOf options))
    by (apply or_default_positive; [lia|assumption]).
  destruct (createMultipleGroups_reached random c who groupPrefix count ps
              options cb rc0 Hinfo Hvalid Hq Hcount HB)
    as (res & w' & E & H).
  exists res, w'. split; [exact E|].
  destruct H as [_ _ _ Hent _ _ _ _ _ _ _ _].
  set (a := GroupRun.mkArgs random c groupPrefix count ps
              (GroupCreator.settingsOf options) cb) in *.
  pose proof (f_equal (map fst) Hent) as Hnames.
  pose proof (f_equal (map snd) Hent) as Hnumbers.
  rewrite !map_map in Hnames, Hnumbers. cbn [fst snd] in Hnames, Hnumbers.
  split; [|split].
  - change (map GroupCreator.name (GroupCreator.groups res))
      with (map (fun x => GroupCreator.name x) (GroupCreator.groups res)).
    rewrite Hnames. apply NoDup_map_injective; [|apply range_NoDup].
    intros j k. apply nameAt_injective.
  - change (map GroupCreator.number (GroupCreator.groups res))
      with (map (fun x => GroupCreator.number x) (GroupCreator.groups res)).
    rewrite Hnumbers. apply NoDup_map_injective; [|apply range_NoDup].
    intros j k. unfold GroupRun.numberAt. lia.
  - refine (Forall_of_map
              (fun g => (GroupCreator.name g, GroupCreator.number g))
              (fun j => (GroupRun.nameAt a j, GroupRun.numberAt a j))
              (fun p => exists text, fst p = groupPrefix ++ str " " ++ text
                                     /\ numberOf text = snd p)
              _ _ Hent _).
    apply Forall_forall. intros j _. cbn [fst snd].
    eexists. split; [reflexivity|]. apply numberOf_formatNumber.
Qed.

Lemma group_names_distinct_witness :
  exists res w',
    GroupCreator.createMultipleGroups (fun _ => drawHalf) (Some acceptingClient)
      (str "Kelas") 12 (Some oneParticipant)
      (GroupCreator.mkOptions (Some (-3)) (Some 1) (Some true) None None)
      (Some quietCallback) (mkWorld 0 []) = (Normal res, w')
    /\ NoDup (map GroupCreator.name (GroupCreator.groups res))
    /\ NoDup (map GroupCreator.number (GroupCreator.groups res))
    /\ Forall (fun g =>
         exists text, GroupCreator.name g = str "Kelas" ++ str " " ++ text
                      /\ numberOf text = GroupCreator.number g)
         (GroupCreator.groups res).
Proof.
  apply (group_names_distinct (fun _ => drawHalf) acceptingClient
           (str "628000000000@c.us") (str "Kelas") 12 oneParticipant
           (GroupCreator.mkOptions (Some (-3)) (Some 1) (Some true) None None)
           (Some quietCallback) 0%nat).
  - reflexivity.
  - vm_compute. reflexivity.
  - intros f E ev. injection E as <-. reflexivity.
  - lia.
  - cbn. intros b E. discriminate.
  - unfold SafeCount, safeInteger. cbn. lia.
Defined.

(** ** A callback that throws *)






(** ** Empty runs *)

(** X18. A run for no unit is not an error. With a ready client,
    [createMultipleGroups] asked for a count of 0 or less (and
    participants that pass the validation) and [sendBulkMessages] given
    no recipient return the empty result, make no draw and add nothing
    to the trace: no call, no wait, no batch line and no report to the
    callback, whatever the callback. (The lines that the logger writes
    at the start and at the end of every run are not events of the
    trace.) *)
Theorem empty_runs_return_empty random c who groupPrefix count ps options cb
    message delaySeconds w :
  info c = Some who ->
  fst (GroupCreator.validateParticipants (Some ps) w) = Normal tt ->
  count <= 0 ->
  (forall b, GroupCreator.batchSize options = Some b -> 0 <= b) ->
  GroupCreator.createMultipleGroups random (Some c) groupPrefix count (Some ps)
    options cb w = (Normal (GroupCreator.mkResults 0 0 []), w)
  /\ MessageSender.sendBulkMessages random (Some c) message [] delaySeconds cb w
     = (Normal (MessageSender.mkResults 0 0 []), w).
Proof.
  intros Hinfo Hvalid Hcount Hbatch. split.
  - assert (HB : 1 <= GroupCreator.s_batchSize (GroupCreator.settingsOf options))
      by (apply or_default_positive; [lia|assumption]).
    unfold GroupCreator.createMultipleGroups. rewrite Hinfo. unfold bind at 1.
    pose proof (validateParticipants_world (Some ps) w) as Hw.
    destruct (GroupCreator.validateParticipants (Some ps) w) as [cpl w1].
    cbn [fst snd] in *. subst cpl w1.
    apply for_loop_nonpositive. unfold GroupCreator.totalBatchesOf.
    destruct (ceil_quotient_pos count
                (GroupCreator.s_batchSize (GroupCreator.settingsOf options))
                ltac:(lia)) as [Hlow _].
    set (T := Math_ceil _) in *. clearbody T. nia.
  - unfold MessageSender.sendBulkMessages. rewrite Hinfo.
    apply for_loop_nonpositive. vm_compute. discriminate.
Qed.

Lemma empty_runs_return_empty_witness :
  GroupCreator.createMultipleGroups (fun _ => drawHalf) (Some acceptingClient)
    (str "Kelas") 0 (Some oneParticipant) GroupCreator.no_options
    (Some quietCallback) start = (Normal (GroupCreator.mkResults 0 0 []), start)
  /\ MessageSender.sendBulkMessages (fun _ => drawHalf) (Some acceptingClient)
       (str "Halo") [] None (Some quietCallback) start
     = (Normal (MessageSender.mkResults 0 0 []), start).
Proof.
  apply (empty_runs_return_empty (fun _ => drawHalf) acceptingClient
           (str "628000000000@c.us") (str "Kelas") 0 oneParticipant
           GroupCreator.no_options (Some quietCallback) (str "Halo") None start).
  - reflexivity.
  - vm_compute. reflexivity.
  - lia.
  - cbn. discriminate.
Defined.

(** ** A variation is one edit *)

(** [replace] with patterns of one code unit: the first occurrence, if
    there is one. *)
Lemma replace_first a b s :
  (~ In a s /\ replace [a] [b] s = s)
  \/ exists pre post,
       s = pre ++ [a] ++ post /\ ~ In a pre
       /\ replace [a] [b] s = pre ++ [b] ++ post.
Proof.
  induction s as [|c s IH].
  - left. split; [intros []|reflexivity].
  - cbn [replace startsWith]. destruct (Z.eqb_spec a c) as [<-|Hne].
    + right. exists [], s. cbn. repeat split. intros [].
    + cbn [andb]. destruct IH as [(Hnot & E)|(pre & post & E & Hnot & R)].
      * left. split; [|now rewrite E].
        intros [H|H]; [now apply Hne|now apply Hnot].
      * right. exists (c :: pre), post. rewrite R, E. repeat split.
        intros [H|H]; [now apply Hne|now apply Hnot].
Qed.

(** X19. What [addMessageVariation] returns differs from the message by
    one edit at most: nothing, a space or a dot put at the end, a space
    put at the start, a zero-width character put somewhere, or the first
    [a], [e] or [o] replaced by its Cyrillic look-alike; every other code
    unit stays where it was, and the trace is untouched. *)
Theorem variation_is_one_edit random msg w :
  exists out w' pre old new post,
    MessageSender.addMessageVariation random msg w = (Normal out, w')
    /\ msg = pre ++ old ++ post
    /\ out = pre ++ new ++ post
    /\ In (old, new) edits
    /\ (forall c, old = [c] -> ~ In c pre)
    /\ trace w' = trace w.
Proof.
  unfold MessageSender.addMessageVariation, bind, Math_random.
  assert (Hreplace : forall a b rc,
            In ([a], [b]) edits ->
            exists out w' pre old new post,
              (Normal (replace [a] [b] msg), mkWorld rc (trace w))
              = (Normal out, w')
              /\ msg = pre ++ old ++ post /\ out = pre ++ new ++ post
              /\ In (old, new) edits
              /\ (forall c, old = [c] -> ~ In c pre)
              /\ trace w' = trace w).
  { intros a b rc Hin.
    destruct (replace_first a b msg) as [(Hnot & E)|(pre & post & E & Hnot & R)].
    - exists msg, (mkWorld rc (trace w)), msg, [], [], [].
      rewrite E, !app_nil_r.
      repeat split; [now left|discriminate].
    - exists (pre ++ [b] ++ post), (mkWorld rc (trace w)), pre, [a], [b], post.
      rewrite R.
      repeat split; try assumption. intros c [= <-]. exact Hnot. }
  each_variation (random (randomCalls w));
    cbn -[replace slice slice_from edits]; unfold ret;
    repeat match goal with
           | |- context [Z.of_nat (Pos.to_nat ?p)] =>
               let v := eval vm_compute in (Z.of_nat (Pos.to_nat p)) in
               change (Z.of_nat (Pos.to_nat p)) with v
           end;
    try (apply Hreplace; unfold edits; cbn; tauto).
  - exists (msg ++ []), (mkWorld (S (randomCalls w)) (trace w)), msg, [], [], [].
    repeat split; [now rewrite !app_nil_r|now left|discriminate].
  - exists (msg ++ str " "), (mkWorld (S (randomCalls w)) (trace w)),
      msg, [], (str " "), [].
    repeat split; [now rewrite !app_nil_r|unfold edits; cbn; tauto|discriminate].
  - exists (msg ++ str "."), (mkWorld (S (randomCalls w)) (trace w)),
      msg, [], (str "."), [].
    repeat split; [now rewrite !app_nil_r|unfold edits; cbn; tauto|discriminate].
  - exists msg, (mkWorld (S (randomCalls w)) (trace w)), [], [], [], msg.
    repeat split; [now left|discriminate].
  - exists (str " " ++ msg), (mkWorld (S (randomCalls w)) (trace w)),
      [], [], (str " "), msg.
    repeat split; [unfold edits; cbn; tauto|discriminate].
  - match goal with
    | |- context [slice msg 0 ?p] =>
        change (slice msg 0 p ++ 8203 :: slice_from msg p)
          with (slice msg 0 p ++ [8203] ++ slice_from msg p)
    end.
    rewrite insertion_shape.
    set (k := slice_index msg _).
    exists (firstn k msg ++ [8203] ++ skipn k msg),
      (mkWorld (S (S (randomCalls w))) (trace w)),
      (firstn k msg), [], [8203], (skipn k msg).
    repeat split; [symmetry; apply firstn_skipn|unfold edits; cbn; tauto
                  |discriminate].
  - match goal with
    | |- context [slice msg 0 ?p] =>
        change (slice msg 0 p ++ 8204 :: slice_from msg p)
          with (slice msg 0 p ++ [8204] ++ slice_from msg p)
    end.
    rewrite insertion_shape.
    set (k := slice_index msg _).
    exists (firstn k msg ++ [8204] ++ skipn k msg),
      (mkWorld (S (S (randomCalls w))) (trace w)),
      (firstn k msg), [], [8204], (skipn k msg).
    repeat split; [symmetry; apply firstn_skipn|unfold edits; cbn; tauto
                  |discriminate].
Qed.

(** ** The time a run waits *)

Lemma waits_split tr :
  total (waits tr) = total (pacingWaits tr) + total (cooldownWaits tr).
Proof.
  unfold waits, pacingWaits, cooldownWaits, total.
  induction tr as [|ev tr IH]; [reflexivity|].
  destruct ev as [| |[] ms| |]; cbn [collect fold_right]; lia.
Qed.

Lemma total_repeat c n : total (repeat c n) = c * Z.of_nat n.
Proof.
  unfold total. induction n as [|n IH]; [cbn; lia|].
  cbn [repeat fold_right]. rewrite IH. lia.
Qed.

Lemma total_between lo hi l :
  Forall (fun x => lo <= x <= hi) l ->
  lo * len l <= total l <= hi * len l.
Proof.
  unfold total, len. induction 1 as [|x l Hx _ IH]; [cbn; lia|].
  cbn [fold_right length]. lia.
Qed.



Lemma baseDelay_at_most (count : Z) : GroupCreator.baseDelay count <= 12000.
Proof.
  unfold GroupCreator.baseDelay.
  destruct (Z.gtb_spec count 10), (Z.gtb_spec count 20), (Z.gtb_spec count 30); lia.
Qed.

(** X21. A run of [createMultipleGroups] for a count N >= 1, with a
    ready client, participants that pass the validation, a callback that
    does not throw and numbers that are safe integers, waits T - 1
    cooldowns of the configured length, T being the number of batches,
    and N - 1 times before a group: each time exactly D seconds if a
    delay D > 0 is configured, and otherwise between 1500 and 18000
    milliseconds, both included. *)
Theorem group_run_total_wait random c who groupPrefix count ps options cb rc0 :
  info c = Some who ->
  fst (GroupCreator.validateParticipants (Some ps) (mkWorld rc0 [])) = Normal tt ->
  quiet cb ->
  1 <= count ->
  (forall b, GroupCreator.batchSize options = Some b -> 0 <= b) ->
  SafeRun count (GroupCreator.settingsOf options) ->
  let s := GroupCreator.settingsOf options in
  let T := Math_ceil (inject_Z count / inject_Z (GroupCreator.s_batchSize s)) in
  exists res w',
    GroupCreator.createMultipleGroups random (Some c) groupPrefix count
      (Some ps) options cb (mkWorld rc0 []) = (Normal res, w')
    /\ cooldownWaits (trace w')
       = repeat (GroupCreator.s_batchCooldownSeconds s * 1000) (Z.to_nat (T - 1))
    /\ total (cooldownWaits (trace w'))
       = (T - 1) * (GroupCreator.s_batchCooldownSeconds s * 1000)
    /\ total (waits (trace w'))
       = total (pacingWaits (trace w')) + total (cooldownWaits (trace w'))
    /\ len (pacingWaits (trace w')) = count - 1
    /\ (0 < GroupCreator.s_delaySeconds s ->
        Forall (fun ms => ms = GroupCreator.s_delaySeconds s * 1000)
          (pacingWaits (trace w'))
        /\ total (pacingWaits (trace w'))
           = (count - 1) * (GroupCreator.s_delaySeconds s * 1000))
    /\ (GroupCreator.s_delaySeconds s <= 0 ->
        Forall (fun ms => 1500 <= ms <= 18000) (pacingWaits (trace w'))
        /\ (count - 1) * 1500 <= total (pacingWaits (trace w'))
           <= (count - 1) * 18000).
Proof.
  intros Hinfo Hvalid Hq Hcount Hbatch _ s T.
  assert (HB : 1 <= GroupCreator.s_batchSize s)
    by (apply or_default_positive; [lia|assumption]).
  destruct (createMultipleGroups_reached random c who groupPrefix count ps
              options cb rc0 Hinfo Hvalid Hq ltac:(lia) HB)
    as (res & w' & E & H).
  exists res, w'. split; [exact E|].
  destruct H as [_ _ _ _ _ _ Hcd _ _ Hpacing _ _].
  fold s in Hcd, Hpacing.
  set (a := GroupRun.mkArgs random c groupPrefix count ps s cb) in *.
  destruct (totalBatches_bounds a HB ltac:(cbn; lia)) as (_ & Hhi & Htb).
  change (GroupRun.totalBatches a) with T in *.
  unfold a in Hhi at 1 2. cbn [GroupRun.settings GroupRun.count] in Hhi.
  assert (HT : 1 <= T) by nia.
  assert (Hlen : len (map (GroupRun.pacingAt a rc0)
                        (range 1 (Z.to_nat count - 1))) = count - 1).
  { unfold len. rewrite length_map, range_length. lia. }
  replace (Z.to_nat T - 1)%nat with (Z.to_nat (T - 1)) in Hcd by lia.
  unfold a in Hcd at 1. cbn [GroupRun.settings] in Hcd.
  split; [exact Hcd|].
  split; [|split; [apply waits_split|split; [|split]]].
  - rewrite Hcd, total_repeat.
    replace (Z.of_nat (Z.to_nat (T - 1))) with (T - 1) by (clear - HT; lia).
    ring.
  - rewrite Hpacing. exact Hlen.
  - intros HD. rewrite Hpacing.
    assert (Hall : Forall (fun ms => ms = GroupCreator.s_delaySeconds s * 1000)
                     (map (GroupRun.pacingAt a rc0)
                        (range 1 (Z.to_nat count - 1)))).
    { apply Forall_map, Forall_forall. intros k _.
      unfold GroupRun.pacingAt, GroupRun.waitTime, a. cbn [GroupRun.settings].
      destruct (Z.gtb_spec (GroupCreator.s_delaySeconds s) 0); lia. }
    split; [exact Hall|].
    assert (Hbetween : Forall (fun x => GroupCreator.s_delaySeconds s * 1000 <= x
                                        <= GroupCreator.s_delaySeconds s * 1000)
                         (map (GroupRun.pacingAt a rc0)
                            (range 1 (Z.to_nat count - 1))))
      by (eapply Forall_impl; [|exact Hall]; cbn; intros; lia).
    apply total_between in Hbetween. rewrite Hlen in Hbetween. lia.
  - intros HD. rewrite Hpacing.
    assert (Hall : Forall (fun x => 1500 <= x <= 18000)
                     (map (GroupRun.pacingAt a rc0)
                        (range 1 (Z.to_nat count - 1)))).
    { apply Forall_map, Forall_forall. intros k _.
      unfold GroupRun.pacingAt, GroupRun.waitTime, a.
      cbn [GroupRun.settings GroupRun.random].
      destruct (Z.gtb_spec (GroupCreator.s_delaySeconds s) 0); [lia|].
      match goal with
      | |- _ <= GroupCreator.rateLimitOf (value ?d) ?n <= _ =>
          pose proof (rateLimitOf_range d n);
          pose proof (baseDelay_positive n);
          pose proof (baseDelay_at_most n)
      end.
      lia. }
    split; [exact Hall|].
    apply total_between in Hall. rewrite Hlen in Hall. lia.
Qed.

Lemma group_run_total_wait_witness :
  let s := GroupCreator.settingsOf
             (GroupCreator.mkOptions None (Some 2) None (Some 2) (Some 7)) in
  let T := Math_ceil (inject_Z 5 / inject_Z (GroupCreator.s_batchSize s)) in
  exists res w',
    GroupCreator.createMultipleGroups (fun _ => drawHalf) (Some acceptingClient)
      (str "Kelas") 5 (Some oneParticipant)
      (GroupCreator.mkOptions None (Some 2) None (Some 2) (Some 7))
      (Some quietCallback) (mkWorld 0 []) = (Normal res, w')
    /\ cooldownWaits (trace w')
       = repeat (GroupCreator.s_batchCooldownSeconds s * 1000) (Z.to_nat (T - 1))
    /\ total (cooldownWaits (trace w'))
       = (T - 1) * (GroupCreator.s_batchCooldownSeconds s * 1000)
    /\ total (waits (trace w'))
       = total (pacingWaits (trace w')) + total (cooldownWaits (trace w'))
    /\ len (pacingWaits (trace w')) = 5 - 1
    /\ (0 < GroupCreator.s_delaySeconds s ->
        Forall (fun ms => ms = GroupCreator.s_delaySeconds s * 1000)
          (pacingWaits (trace w'))
        /\ total (pacingWaits (trace w'))
           = (5 - 1) * (GroupCreator.s_delaySeconds s * 1000))
    /\ (GroupCreator.s_delaySeconds s <= 0 ->
        Forall (fun ms => 1500 <= ms <= 18000) (pacingWaits (trace w'))
        /\ (5 - 1) * 1500 <= total (pacingWaits (trace w')) <= (5 - 1) * 18000).
Proof.
  apply (group_run_total_wait (fun _ => drawHalf) acceptingClient
           (str "628000000000@c.us") (str "Kelas") 5 oneParticipant
           (GroupCreator.mkOptions None (Some 2) None (Some 2) (Some 7))
           (Some quietCallback) 0%nat).
  - reflexivity.
  - vm_compute. reflexivity.
  - intros f E ev. injection E as <-. reflexivity.
  - lia.
  - cbn. intros b E. injection E as <-. lia.
  - unfold SafeRun, SafeCount, SafeWaits, safeInteger. cbn. lia.
Defined.

(** ** What the progress callback is told *)




Section GroupReports.

Import GroupCreator GroupRun.

Variable a : Args.
Variable rc0 : nat.
Variable f : Callback.
Hypothesis Hcb : progressCallback a = Some f.
Hypothesis Hquiet : forall ev, f ev = None.

Let B := s_batchSize (settings a).
Let N := count a.






End GroupReports.

Section MessageReports.

Import MessageSender MessageRun.

Variable a : Args.
Variable f : Callback.
Hypothesis Hcb : progressCallback a = Some f.
Hypothesis Hquiet : forall ev, f ev = None.






End MessageReports.


